(** * Route construction and incident re-optimisation

    A shallow embedding of the optimisation controller
    (createOptimization, runORToolsOptimization, calculateFallbackMatrix,
    calculateDistance, rerouteOptimization, resolveIncident,
    getRoadMatrix, getRouteGeometry, getRoutedPolyline), of the incident
    analysis service (analyzeIncidentImpact) and of the simulate button
    of the detail page (handleSimulateIncident).

    Conventions of the embedding.
    - A JavaScript number is a rational ([Q]). The builder computes
      without rounding; the timing loop is also given on the numbers of
      the machine ([annotateWith], for every addition and
      multiplication, those of the IEEE doubles among them), and the
      statement about the times is made there. Where the source tests
      a value for being a number ([typeof], [isNaN]) or for truthiness,
      the other outcomes are constructors of their own ([coord]) or
      [None].
    - A string is the UTF-8 encoding of the JavaScript string.
    - Everything outside the process (the matrix service, the directions
      service, the language model, the document store, the clock and the
      [Math] library) is a field of [Env]: what that collaborator answers
      during one request.
    - [console.warn] is a list of warnings returned next to the value. *)

From Stdlib Require Import QArith Qround Qpower ZArith String Ascii List Lia Lqa DecimalString.
From stdpp Require Import gmap strings list.

Import ListNotations.
Local Open Scope string_scope.
Local Open Scope list_scope.
Local Open Scope Z_scope.

(** ** JavaScript primitives used by the controller *)
Module JS.

(** [x || d] on a number: zero is falsy. *)
Definition or_num (x d : Q) : Q := if Qeq_bool x 0 then d else x.

(** [o || d] on a possibly missing number. *)
Definition or_opt (o : option Q) (d : Q) : Q :=
  match o with
  | Some x => or_num x d
  | None => d
  end.

(** [Math.round]: the nearest integer, halves upwards. *)
Definition round (x : Q) : Z := Qfloor (x + (1 # 2)).

(** [parseFloat(x.toFixed(2))]: two decimals, halves away from zero. *)
Definition toFixed2 (x : Q) : Q :=
  if Qlt_le_dec x 0
  then - (inject_Z (Qfloor ((- x) * 100 + (1 # 2))) / 100)
  else inject_Z (Qfloor (x * 100 + (1 # 2))) / 100.

(** [n.toString()] of an integer. *)
Definition toString (n : Z) : string := NilZero.string_of_int (Z.to_int n).

(** [s.padStart(2, '0')]. *)
Definition padStart2 (s : string) : string :=
  match String.length s with
  | O => ("00" ++ s)%string
  | S O => ("0" ++ s)%string
  | _ => s
  end.

(** [a % b]: the remainder has the sign of the dividend. *)
Definition rem (a b : Z) : Z := Z.rem a b.

(** [Math.floor(a / b)] on integers, [b] positive. *)
Definition floordiv (a b : Z) : Z := a / b.

(** A value read from a numeric field: a number, [NaN], or nothing. *)
Inductive coord : Type :=
| CNum (x : Q)
| CNaN
| CUndefined.

(** Truthiness of such a value. *)
Definition truthy (c : coord) : bool :=
  match c with
  | CNum x => negb (Qeq_bool x 0)
  | _ => false
  end.

(** [a + b] and [a / 2] where an operand may be [NaN] or [undefined]. *)
Definition add (a b : coord) : coord :=
  match a, b with
  | CNum x, CNum y => CNum (x + y)
  | _, _ => CNaN
  end.

Definition half (a : coord) : coord :=
  match a with
  | CNum x => CNum (x / 2)
  | _ => CNaN
  end.

(** [typeof c !== 'number' || isNaN(c)]. *)
Definition notNumber (c : coord) : bool :=
  match c with
  | CNum _ => false
  | _ => true
  end.

(** The functions of [Math] that the haversine formula calls. *)
Record MathLib : Type := {
  PI : Q;
  sin : Q -> Q;
  cos : Q -> Q;
  sqrt : Q -> Q;
  atan2 : Q -> Q -> Q
}.

(** The addition and the multiplication of the machine. A number of the
    program is an IEEE double; a statement that is to hold for the
    doubles is made for every pair of operations, the rounding ones
    among them. [exact] is the pair that does not round. *)
Record Arith : Type := {
  m_add : Q -> Q -> Q;
  m_mul : Q -> Q -> Q
}.

Definition exact : Arith := {| m_add := Qplus; m_mul := Qmult |}.

End JS.

(** ** services/trafficAI.js: incident analysis *)
Module TrafficAI.

(** The object parsed from the language model's answer; a field that the
    answer lacks is [None]. Display-only fields (delayLabel,
    trafficCondition, estimatedRecoveryTime) are left out. *)
Record AiData : Type := {
  ai_fixedDelayMinutes : option Q;
  ai_delayMinutes : option Q;
  ai_severity : option string;
  ai_recommendation : option string;
  ai_shouldReroute : option bool;
  ai_trafficMultiplier : option Q
}.

(** What one call to the language model comes to. *)
Inductive Gemini : Type :=
| NoApiKey
| Threw
| Answered (aiData : AiData).

Record IncidentAnalysis : Type := {
  success : option bool;
  fixedDelayMinutes : option Q;
  delayMinutes : option Q;
  severity : option string;
  recommendation : option string;
  shouldReroute : option bool;
  trafficMultiplier : option Q;
  reroutedAt : option Z;
  originalDuration : option Q;
  incidentType : option string;
  noAlternativeRoute : option bool;
  resolvedAt : option Z;
  resolved : option bool
}.

(** [x > 300] and [x < 30] on a possibly missing number: a comparison
    with [undefined] is false. *)
Definition gt300 (o : option Q) : bool :=
  match o with
  | Some x => if Qlt_le_dec 300 x then true else false
  | None => false
  end.

Definition lt30 (o : option Q) : bool :=
  match o with
  | Some x => if Qlt_le_dec x 30 then true else false
  | None => false
  end.

(** Lines 171-177: "Ensure fixed delay is realistic". *)
Definition ensureRealistic (o : option Q) : option Q :=
  let o1 := if gt300 o then Some 300%Q else o in
  if lt30 o1 then Some 60%Q else o1.

Definition analyzeIncidentImpact (g : Gemini) : IncidentAnalysis :=
  match g with
  | NoApiKey =>
      {| success := Some false;
         fixedDelayMinutes := Some 60%Q;
         delayMinutes := Some 60%Q;
         severity := Some "MODERATE";
         recommendation := Some "Consider alternative route";
         shouldReroute := None;
         trafficMultiplier := None;
         reroutedAt := None; originalDuration := None;
         incidentType := None; noAlternativeRoute := None;
         resolvedAt := None; resolved := None |}
  | Threw =>
      {| success := Some false;
         fixedDelayMinutes := Some 60%Q;
         delayMinutes := Some 60%Q;
         severity := Some "MODERATE";
         recommendation :=
           Some "Major accident reported. Monitor situation and consider rerouting.";
         shouldReroute := Some true;
         trafficMultiplier := None;
         reroutedAt := None; originalDuration := None;
         incidentType := None; noAlternativeRoute := None;
         resolvedAt := None; resolved := None |}
  | Answered aiData =>
      let fixed := ensureRealistic (ai_fixedDelayMinutes aiData) in
      {| success := Some true;
         fixedDelayMinutes := fixed;
         delayMinutes := fixed;
         severity := ai_severity aiData;
         recommendation := ai_recommendation aiData;
         shouldReroute := ai_shouldReroute aiData;
         trafficMultiplier := ai_trafficMultiplier aiData;
         reroutedAt := None; originalDuration := None;
         incidentType := None; noAlternativeRoute := None;
         resolvedAt := None; resolved := None |}
  end.

End TrafficAI.

(** ** models and controllers/optimization.js *)
Module Optimization.
Import JS TrafficAI.

Definition SPEED_KMH : Q := 60.
Definition ROAD_FACTOR : Q := 14 # 10.
Definition SERVICE_TIME_MINUTES : Q := 15.

Record Location : Type := {
  loc_id : string;
  loc_name : string;
  loc_latitude : coord;
  loc_longitude : coord;
  loc_demand : Q;
  isDepot : bool
}.

Record Vehicle : Type := {
  veh_id : string;
  veh_name : string;
  veh_capacity : Q;
  veh_count : Z
}.

Record VehicleSlot : Type := {
  vs_id : string;
  vs_name : string;
  capacity : Q;
  used : bool;
  currentLoad : Q
}.

Record Stop : Type := {
  locationId : string;
  locationName : string;
  latitude : coord;
  longitude : coord;
  demand : Q;
  order : nat;
  cumulativeDistance : Q;
  distanceFromPrev : Q;
  arrivalTime : option Z;
  eta : option string
}.

(** [geometry.coordinates]: pairs [lng, lat]. *)
Definition Coordinates : Type := list (Q * Q).

Record Route : Type := {
  vehicle : string;
  vehicleName : string;
  stops : list Stop;
  distance : Q;
  duration : Q;
  totalCapacity : Q;
  geometry : option Coordinates;
  usingRealRoadData : bool
}.

Record Point : Type := {
  pt_latitude : coord;
  pt_longitude : coord
}.

Record MatrixData : Type := {
  distanceMatrix : list (list Q);
  durationMatrix : list (list Q);
  md_success : bool
}.

(** The departure time ['HH:MM'], held as the two numbers that
    [split(':').map(Number)] reads from it. *)
Record DepartureTime : Type := {
  startHour : Z;
  startMinute : Z
}.

Definition default_departure : DepartureTime :=
  {| startHour := 8; startMinute := 0 |}.

(** The optimisation document. [vehicles] and [locations] hold the
    references; the populated documents come from the store. The
    aiPrediction and algorithmResults fields, which no handler reads
    back, are left out. *)
Record Run : Type := {
  name : string;
  vehicles : list string;
  locations : list string;
  routes : list Route;
  totalDistance : Q;
  totalDuration : Q;
  departureTime : option DepartureTime;
  isIncidentActive : bool;
  incidentLocation : option Point;
  detourLocation : option Point;
  originalRoutes : option (list Route);
  incidentAnalysis : option IncidentAnalysis
}.

(** What the collaborators answer during one request. *)
Record Env : Type := {
  Math : MathLib;
  getRoadMatrix : list Location -> option MatrixData;
  getRouteGeometry : list Stop -> option Point -> option Coordinates;
  gemini : Gemini;
  Vehicle_find : list string -> list Vehicle;
  Location_find : list string -> list Location;
  populate_vehicles : list string -> list Vehicle;
  populate_locations : list string -> list Location;
  now : Z
}.

Inductive Response : Type :=
| Json (o : Run)
| Status (code : Z) (msg : string).

(** *** The geometric fallback (lines 124-147 and 520-539) *)

Inductive Warning : Type :=
| InvalidCoordinates (lat1 lon1 lat2 lon2 : coord).

Definition num (c : coord) : Q :=
  match c with
  | CNum x => x
  | _ => 0
  end.

Definition calculateDistance (M : MathLib) (lat1 lon1 lat2 lon2 : coord)
  : Q * list Warning :=
  if notNumber lat1 || notNumber lon1 || notNumber lat2 || notNumber lon2
  then (0%Q, [InvalidCoordinates lat1 lon1 lat2 lon2])
  else
    let R := 6371%Q in
    let dLat := ((num lat2 - num lat1) * PI M / 180)%Q in
    let dLon := ((num lon2 - num lon1) * PI M / 180)%Q in
    let a :=
      (sin M (dLat / 2) * sin M (dLat / 2) +
       cos M (num lat1 * PI M / 180) * cos M (num lat2 * PI M / 180) *
       sin M (dLon / 2) * sin M (dLon / 2))%Q in
    let c := (2 * atan2 M (sqrt M a) (sqrt M (1 - a)))%Q in
    ((R * c)%Q, []).

(** One pass of the body of the two nested loops: the distance, the
    duration, and what was logged. *)
Definition fallbackCell (M : MathLib) (i j : nat) (li lj : Location)
  : Q * Q * list Warning :=
  if (i =? j)%nat then (0%Q, 0%Q, [])
  else
    let '(straightDist, w) :=
      calculateDistance M (loc_latitude li) (loc_longitude li)
                          (loc_latitude lj) (loc_longitude lj) in
    let roadDist := (straightDist * ROAD_FACTOR)%Q in
    (roadDist, (roadDist / SPEED_KMH * 60)%Q, w).

Definition calculateFallbackMatrix (M : MathLib) (locations : list Location)
  : MatrixData * list Warning :=
  let cells :=
    imap (fun i li => imap (fun j lj => fallbackCell M i j li lj) locations)
         locations in
  ({| distanceMatrix := map (map (fun c => fst (fst c))) cells;
      durationMatrix := map (map (fun c => snd (fst c))) cells;
      md_success := false |},
   concat (map (fun row => concat (map snd row)) cells)).

(** *** The route builder (lines 318-517) *)

Definition toId (objId : string) : string := objId.

(** [m[i][j]] on a matrix that has a row [i] and a column [j]; the
    matrix service and the fallback both answer with one row and one
    column per location. *)
Definition at2 (m : list (list Q)) (i j : nat) : Q :=
  match m !! i with
  | Some row => default 0%Q (row !! j)
  | None => 0%Q
  end.

(** [locations.forEach((loc, idx) => locationIndexMap[id] = idx)]. *)
Fixpoint indexFrom (idx : nat) (locs : list Location) (m : gmap string nat)
  : gmap string nat :=
  match locs with
  | [] => m
  | loc :: rest => indexFrom (S idx) rest (<[toId (loc_id loc) := idx]> m)
  end.

Definition buildIndexMap (locs : list Location) : gmap string nat :=
  indexFrom 0 locs ∅.

(** Expand vehicles by count. *)
Definition expandVehicles (vs : list Vehicle) : list VehicleSlot :=
  flat_map
    (fun v =>
       let count := if (veh_count v =? 0)%Z then 1%Z else veh_count v in
       replicate (Z.to_nat count)
         {| vs_id := veh_id v;
            vs_name := veh_name v;
            capacity := or_num (veh_capacity v) 0;
            used := false;
            currentLoad := 0 |})
    vs.

(** The stop pushed for the depot: first with its start values, last
    with the placeholders. *)
Definition depotStop (depot : Location) (ord : nat)
    (arr : option Z) (e : option string) : Stop :=
  {| locationId := loc_id depot;
     locationName := loc_name depot;
     latitude := loc_latitude depot;
     longitude := loc_longitude depot;
     demand := or_num (loc_demand depot) 0;
     order := ord;
     cumulativeDistance := 0;
     distanceFromPrev := 0;
     arrivalTime := arr;
     eta := e |}.

Definition visitStop (best : Location) (ord : nat) : Stop :=
  {| locationId := loc_id best;
     locationName := loc_name best;
     latitude := loc_latitude best;
     longitude := loc_longitude best;
     demand := or_num (loc_demand best) 0;
     order := ord;
     cumulativeDistance := 0;
     distanceFromPrev := 0;
     arrivalTime := None;
     eta := None |}.

(** [bestD], [best] and [bestIndex]; [None] is the start value
    [(Infinity, null, -1)]. *)
Definition Best : Type := option (Q * Location * nat).

Section Builder.
(** What the body of [runORToolsOptimization] has in scope after its
    first lines: the directions service, the two matrices and the
    flag of the matrix answer, and the arguments. *)
Variable geometryService : list Stop -> option Point -> option Coordinates.
Variables (distanceMx durationMx : list (list Q)) (realRoadData : bool).
Variables (locs : list Location) (depot : Location).
Variable trafficMultiplier : Q.
Variable departure : DepartureTime.
Variable incidentLoc : option Point.
Variable fixedDelayMinutes : Q.

Definition depotId : string := toId (loc_id depot).

Definition nonDepot : list Location :=
  filter (fun l => toId (loc_id l) ≠ depotId) locs.

Definition adjustedDurationMatrix : list (list Q) :=
  map (map (fun d => (d * trafficMultiplier)%Q)) durationMx.

Definition locationIndexMap : gmap string nat := buildIndexMap locs.

(** The callers pass a depot found in [locs], so the lookup is
    defined. *)
Definition depotIndex : nat := default 0%nat (locationIndexMap !! depotId).

(** The body of [for (const loc of nonDepot)]. *)
Definition consider (assigned : gset string) (remaining : Q)
    (currentIndex : nat) (acc : Best) (loc : Location) : Best :=
  let locId := toId (loc_id loc) in
  if decide (locId ∈ assigned) then acc
  else if Qlt_le_dec remaining (or_num (loc_demand loc) 0) then acc
  else
    match locationIndexMap !! locId with
    | None => acc
    | Some locIndex =>
        let d := at2 distanceMx currentIndex locIndex in
        match acc with
        | None => Some (d, loc, locIndex)
        | Some (bestD, _, _) =>
            if Qlt_le_dec d bestD then Some (d, loc, locIndex) else acc
        end
    end.

Definition findNearest (assigned : gset string) (remaining : Q)
    (currentIndex : nat) : Best :=
  foldl (consider assigned remaining currentIndex) None nonDepot.

Record Fill : Type := {
  f_remaining : Q;
  f_stops : list Stop;
  f_current : nat;
  f_order : nat;
  f_assigned : gset string
}.

(** [while (true)]: every pass assigns one more entry of [nonDepot],
    so [length nonDepot] passes are enough (see [fill_complete]). *)
Fixpoint fill (fuel : nat) (st : Fill) : Fill :=
  match fuel with
  | O => st
  | S fuel' =>
      match findNearest (f_assigned st) (f_remaining st) (f_current st) with
      | None => st
      | Some (_, best, bestIndex) =>
          fill fuel'
            {| f_remaining := (f_remaining st - or_num (loc_demand best) 0)%Q;
               f_stops := f_stops st ++ [visitStop best (f_order st)];
               f_current := bestIndex;
               f_order := S (f_order st);
               f_assigned := {[toId (loc_id best)]} ∪ f_assigned st |}
      end
  end.

Definition indexOf (s : Stop) : nat :=
  default 0%nat (locationIndexMap !! toId (locationId s)).

(** Lines 458-464: the increments of stop [i > 0] of [len] stops. *)
Definition legDistance (prev curr : Stop) : Q :=
  at2 distanceMx (indexOf prev) (indexOf curr).

Definition legTime (len i : nat) (prev curr : Stop) : Q :=
  let timeFromPrev := at2 adjustedDurationMatrix (indexOf prev) (indexOf curr) in
  if (i <? len - 1)%nat
  then (timeFromPrev + SERVICE_TIME_MINUTES)%Q
  else timeFromPrev.

(** Lines 475-482: the ETA as a time string. *)
Definition formatEta (cumulativeTime : Q) : string :=
  let totalMinutesFromStart := round cumulativeTime in
  let etaMinutes :=
    startHour departure * 60 + startMinute departure + totalMinutesFromStart in
  let etaHour := rem (floordiv etaMinutes 60) 24 in
  let etaMinute := rem etaMinutes 60 in
  let displayHour :=
    if etaHour >? 12 then etaHour - 12
    else if etaHour =? 0 then 12 else etaHour in
  let ampm := if etaHour >=? 12 then "PM" else "AM" in
  (toString displayHour ++ ":" ++ padStart2 (toString etaMinute)
     ++ " " ++ ampm)%string.

(** [for (let i = 0; i < rtStops.length; i++)]: [prev] is
    [rtStops[i - 1]], absent when [i = 0]. The result is the stops
    with their fields set, then [cumulativeDist] and
    [cumulativeTime] after the loop. *)
Fixpoint annotate (len i : nat) (prev : option Stop)
    (cumulativeDist cumulativeTime : Q) (rest : list Stop)
  : list Stop * Q * Q :=
  match rest with
  | [] => ([], cumulativeDist, cumulativeTime)
  | s :: rest' =>
      let distFromPrev :=
        match prev with
        | Some p => legDistance p s
        | None => 0%Q
        end in
      let cumulativeDist' :=
        match prev with
        | Some p => (cumulativeDist + legDistance p s)%Q
        | None => cumulativeDist
        end in
      let cumulativeTime' :=
        match prev with
        | Some p => (cumulativeTime + legTime len i p s)%Q
        | None => cumulativeTime
        end in
      let s' :=
        {| locationId := locationId s;
           locationName := locationName s;
           latitude := latitude s;
           longitude := longitude s;
           demand := demand s;
           order := order s;
           cumulativeDistance := toFixed2 cumulativeDist';
           distanceFromPrev := toFixed2 distFromPrev;
           arrivalTime := Some (round cumulativeTime');
           eta := Some (formatEta cumulativeTime') |} in
      let '(out, cd, ct) :=
        annotate len (S i) (Some s) cumulativeDist' cumulativeTime' rest' in
      (s' :: out, cd, ct)
  end.

(** Lines 428-510: close the route if it has stops, time it, and push
    it. *)
Definition closeRoute (vs : VehicleSlot) (st : Fill) (routes : list Route)
  : list Route :=
  if (1 <? List.length (f_stops st))%nat then
    let rtStops := f_stops st ++ [depotStop depot (f_order st) None None] in
    let '(annotated, cumulativeDist, cumulativeTime) :=
      annotate (List.length rtStops) 0 None 0 0 rtStops in
    let totalDist := cumulativeDist in
    let duration0 := inject_Z (round cumulativeTime) in
    let duration :=
      if (if Qlt_le_dec 0 fixedDelayMinutes then true else false)
         && (List.length routes =? 0)%nat
      then (duration0 + fixedDelayMinutes)%Q
      else duration0 in
    let geom := geometryService annotated incidentLoc in
    routes ++
      [{| vehicle := vs_id vs;
          vehicleName := vs_name vs;
          stops := annotated;
          distance := totalDist;
          duration := duration;
          totalCapacity := (capacity vs - f_remaining st)%Q;
          geometry := geom;
          usingRealRoadData := realRoadData |}]
  else routes.

(** The start of one vehicle slot (lines 368-385). *)
Definition startFill (vs : VehicleSlot) (assigned : gset string) : Fill :=
  {| f_remaining := capacity vs;
     f_stops := [depotStop depot 0 (Some 0) (Some "8:00 AM")];
     f_current := depotIndex;
     f_order := 1;
     f_assigned := assigned |}.

(** [for (const vs of vehicleSlots)], with its [break]. *)
Fixpoint slotsLoop (slots : list VehicleSlot) (routes : list Route)
    (assigned : gset string) : list Route :=
  match slots with
  | [] => routes
  | vs :: rest =>
      let st := fill (List.length nonDepot) (startFill vs assigned) in
      let routes' := closeRoute vs st routes in
      if decide (size (f_assigned st) = List.length nonDepot) then routes'
      else slotsLoop rest routes' (f_assigned st)
  end.

End Builder.

(** *** The timing loop on the numbers of the machine (lines 443-483)

    The loop of [annotate] with its additions, and the multiplication
    by the traffic multiplier before it, done by [ar]. [annotate] is
    this loop for [exact]. *)
Section Machine.
Variable ar : Arith.
Variables (distanceMx durationMx : list (list Q)).
Variable locs : list Location.
Variable trafficMultiplier : Q.
Variable departure : DepartureTime.

Definition adjustedWith : list (list Q) :=
  map (map (fun duration => m_mul ar duration trafficMultiplier)) durationMx.

Definition legTimeWith (len i : nat) (prev curr : Stop) : Q :=
  let timeFromPrev := at2 adjustedWith (indexOf locs prev) (indexOf locs curr) in
  if (i <? len - 1)%nat
  then m_add ar timeFromPrev SERVICE_TIME_MINUTES
  else timeFromPrev.

Fixpoint annotateWith (len i : nat) (prev : option Stop)
    (cumulativeDist cumulativeTime : Q) (rest : list Stop)
  : list Stop * Q * Q :=
  match rest with
  | [] => ([], cumulativeDist, cumulativeTime)
  | s :: rest' =>
      let distFromPrev :=
        match prev with
        | Some p => legDistance distanceMx locs p s
        | None => 0%Q
        end in
      let cumulativeDist' :=
        match prev with
        | Some p => m_add ar cumulativeDist (legDistance distanceMx locs p s)
        | None => cumulativeDist
        end in
      let cumulativeTime' :=
        match prev with
        | Some p => m_add ar cumulativeTime (legTimeWith len i p s)
        | None => cumulativeTime
        end in
      let s' :=
        {| locationId := locationId s;
           locationName := locationName s;
           latitude := latitude s;
           longitude := longitude s;
           demand := demand s;
           order := order s;
           cumulativeDistance := toFixed2 cumulativeDist';
           distanceFromPrev := toFixed2 distFromPrev;
           arrivalTime := Some (round cumulativeTime');
           eta := Some (formatEta departure cumulativeTime') |} in
      let '(out, cd, ct) :=
        annotateWith len (S i) (Some s) cumulativeDist' cumulativeTime' rest' in
      (s' :: out, cd, ct)
  end.

End Machine.

(** [roadData || calculateFallbackMatrix(locations)]. *)
Definition matrices (env : Env) (locs : list Location) : MatrixData :=
  match getRoadMatrix env locs with
  | Some rd => rd
  | None => fst (calculateFallbackMatrix (Math env) locs)
  end.

(** [roadData?.success || false]. *)
Definition realData (env : Env) (locs : list Location) : bool :=
  match getRoadMatrix env locs with
  | Some rd => md_success rd
  | None => false
  end.

Definition runORToolsOptimization (env : Env) (vehicles : list Vehicle)
    (locs : list Location) (depot : Location) (trafficMultiplier : Q)
    (departure : DepartureTime) (incidentLoc : option Point)
    (fixedDelayMinutes : Q) : list Route :=
  slotsLoop (getRouteGeometry env)
    (distanceMatrix (matrices env locs)) (durationMatrix (matrices env locs))
    (realData env locs)
    locs depot trafficMultiplier departure incidentLoc fixedDelayMinutes
    (expandVehicles vehicles) [] ∅.

(** [routes.forEach(route => { totalDistance += route.distance || 0; ... })] *)
Definition sumDistance (rs : list Route) : Q :=
  foldl (fun acc r => (acc + or_num (distance r) 0)%Q) 0%Q rs.

Definition sumDuration (rs : list Route) : Q :=
  foldl (fun acc r => (acc + or_num (duration r) 0)%Q) 0%Q rs.

(** *** createOptimization (lines 185-295) *)

Record CreateReq : Type := {
  cr_name : option string;
  cr_vehicleIds : option (list string);
  cr_locationIds : option (list string);
  cr_incidentType : option string;
  cr_affectedRouteIndex : option Z;
  cr_departureTime : option DepartureTime
}.

(** The white space and the line terminators that [trim] removes. A
    string is the UTF-8 encoding of the JavaScript string: the six
    characters of one byte (TAB, LF, VT, FF, CR, SP), U+00A0 in two
    bytes, and in three bytes U+1680, U+2000 to U+200A, U+2028, U+2029,
    U+202F, U+205F, U+3000 and U+FEFF. *)
Definition isSpace (c : ascii) : bool :=
  let n := nat_of_ascii c in
  ((n =? 32) || (n =? 9) || (n =? 10) || (n =? 11) || (n =? 12) || (n =? 13))%nat.

Definition isSpace2 (c1 c2 : ascii) : bool :=
  ((nat_of_ascii c1 =? 194) && (nat_of_ascii c2 =? 160))%nat.

Definition isSpace3 (c1 c2 c3 : ascii) : bool :=
  let a := nat_of_ascii c1 in
  let b := nat_of_ascii c2 in
  let c := nat_of_ascii c3 in
  ((a =? 225) && (b =? 154) && (c =? 128)
   || (a =? 226) && (b =? 128)
      && ((128 <=? c) && (c <=? 138) || (c =? 168) || (c =? 169) || (c =? 175))
   || (a =? 226) && (b =? 129) && (c =? 159)
   || (a =? 227) && (b =? 128) && (c =? 128)
   || (a =? 239) && (b =? 187) && (c =? 191))%nat.

(** [name.trim().length === 0]: every character is one that [trim]
    removes. *)
Fixpoint blank (s : string) : bool :=
  match s with
  | EmptyString => true
  | String c1 rest1 =>
      if isSpace c1 then blank rest1
      else
        match rest1 with
        | EmptyString => false
        | String c2 rest2 =>
            if isSpace2 c1 c2 then blank rest2
            else
              match rest2 with
              | EmptyString => false
              | String c3 rest3 =>
                  if isSpace3 c1 c2 c3 then blank rest3 else false
              end
        end
  end.

(** Truthiness of a string that may be absent. *)
Definition given (o : option string) : bool :=
  match o with
  | Some (String _ _) => true
  | _ => false
  end.

Definition findDepot (locs : list Location) : option Location :=
  List.find isDepot locs.

Definition createOptimization (env : Env) (req : CreateReq) : Response :=
  match cr_name req with
  | None => Status 400 "Valid optimization name is required"
  | Some nm =>
  if blank nm then Status 400 "Valid optimization name is required" else
  match cr_vehicleIds req with
  | None | Some [] => Status 400 "At least one vehicle must be selected"
  | Some vehicleIds =>
  match cr_locationIds req with
  | None | Some [] => Status 400 "At least one location must be selected"
  | Some locationIds =>
  if (100 <? List.length locationIds)%nat
  then Status 400 "Maximum 100 locations allowed" else
  if (20 <? List.length vehicleIds)%nat
  then Status 400 "Maximum 20 vehicles allowed" else
  let vs := Vehicle_find env vehicleIds in
  let locs := Location_find env locationIds in
  match vs with
  | [] => Status 400 "No valid vehicles found"
  | _ =>
  match locs with
  | [] => Status 400 "No valid locations found"
  | _ =>
  match findDepot locs with
  | None => Status 400 "At least one location must be marked as a depot"
  | Some depot =>
      let analysis :=
        if given (cr_incidentType req) && bool_decide (is_Some (cr_affectedRouteIndex req))
        then Some (analyzeIncidentImpact (gemini env))
        else None in
      let trafficMult :=
        match analysis with
        | Some a => or_opt (trafficMultiplier a) (3 # 2)
        | None => 1%Q
        end in
      let dep := default default_departure (cr_departureTime req) in
      let rs := runORToolsOptimization env vs locs depot trafficMult dep None 0 in
      match rs with
      | [] => Status 500 "OR-Tools optimization failed"
      | _ =>
          Json {| name := nm;
                  vehicles := vehicleIds;
                  locations := locationIds;
                  routes := rs;
                  totalDistance := sumDistance rs;
                  totalDuration := sumDuration rs;
                  departureTime := Some dep;
                  isIncidentActive := false;
                  incidentLocation := None;
                  detourLocation := None;
                  originalRoutes := None;
                  incidentAnalysis := analysis |}
      end
  end end end end end end.

(** *** rerouteOptimization (lines 575-698) *)

Record RerouteReq : Type := {
  rr_incidentType : option string;
  rr_affectedRouteIndex : option Z;
  rr_incidentLocation : option Point
}.

(** Lines 599-614: the midpoint between the depot and the first stop. *)
Definition midpointFallback (rs : list Route) : option Point :=
  match rs with
  | firstRoute :: _ =>
      match stops firstRoute with
      | depot :: firstStop :: _ =>
          Some {| pt_latitude := half (add (latitude depot) (latitude firstStop));
                  pt_longitude := half (add (longitude depot) (longitude firstStop)) |}
      | _ => None
      end
  | [] => None
  end.

Definition finalIncidentLocation (o : Run) (req : RerouteReq) : option Point :=
  match rr_incidentLocation req with
  | Some p =>
      if truthy (pt_latitude p) && truthy (pt_longitude p)
      then Some {| pt_latitude := pt_latitude p; pt_longitude := pt_longitude p |}
      else midpointFallback (routes o)
  | None => midpointFallback (routes o)
  end.

(** [JSON.stringify(a) === JSON.stringify(b)] on coordinate lists. *)
Definition sameCoordinates (a b : Coordinates) : bool :=
  (List.length a =? List.length b)%nat
  && forallb (fun '((x1, y1), (x2, y2)) => Qeq_bool x1 x2 && Qeq_bool y1 y2)
             (combine a b).

Definition firstGeometry (rs : list Route) : Coordinates :=
  match rs with
  | r :: _ => default [] (geometry r)
  | [] => []
  end.

(** What the schema keeps of an incident analysis (models/Optimization.js,
    lines 118-134): it has no path [noAlternativeRoute], so the value
    assigned to it is not saved, and the document that is read again
    for the answer does not carry it. *)
Definition persisted (a : IncidentAnalysis) : IncidentAnalysis :=
  {| success := success a;
     fixedDelayMinutes := fixedDelayMinutes a;
     delayMinutes := delayMinutes a;
     severity := severity a;
     recommendation := recommendation a;
     shouldReroute := shouldReroute a;
     trafficMultiplier := trafficMultiplier a;
     reroutedAt := reroutedAt a;
     originalDuration := originalDuration a;
     incidentType := incidentType a;
     noAlternativeRoute := None;
     resolvedAt := resolvedAt a;
     resolved := resolved a |}.

(** Line 624: [incidentAnalysis.fixedDelayMinutes || 60]. *)
Definition appliedDelay (analysis : IncidentAnalysis) : Q :=
  or_opt (fixedDelayMinutes analysis) 60.

Definition rerouteOptimization (env : Env) (found : option Run) (req : RerouteReq)
  : Response :=
  match found with
  | None => Status 404 "Optimization not found"
  | Some optimization =>
      let vs := populate_vehicles env (vehicles optimization) in
      let locs := populate_locations env (locations optimization) in
      let finalLoc := finalIncidentLocation optimization req in
      let analysis := analyzeIncidentImpact (gemini env) in
      let fixedDelay := appliedDelay analysis in
      match findDepot locs with
      | None => Status 400 "Depot not found"
      | Some depot =>
          let original := routes optimization in
          let originalDur := totalDuration optimization in
          let newRoutes :=
            runORToolsOptimization env vs locs depot 1
              (default default_departure (departureTime optimization))
              finalLoc fixedDelay in
          let noAlternative :=
            match original, newRoutes with
            | _ :: _, _ :: _ =>
                sameCoordinates (firstGeometry original) (firstGeometry newRoutes)
            | _, _ => false
            end in
          Json {| name := name optimization;
                  vehicles := vehicles optimization;
                  locations := locations optimization;
                  routes := newRoutes;
                  totalDistance := sumDistance newRoutes;
                  totalDuration := sumDuration newRoutes;
                  departureTime := departureTime optimization;
                  isIncidentActive := true;
                  incidentLocation := finalLoc;
                  detourLocation := detourLocation optimization;
                  originalRoutes := Some original;
                  incidentAnalysis :=
                    Some (persisted
                            {| success := success analysis;
                               fixedDelayMinutes := fixedDelayMinutes analysis;
                               delayMinutes := Some fixedDelay;
                               severity := severity analysis;
                               recommendation := recommendation analysis;
                               shouldReroute := shouldReroute analysis;
                               trafficMultiplier := trafficMultiplier analysis;
                               reroutedAt := Some (now env);
                               originalDuration := Some originalDur;
                               incidentType := rr_incidentType req;
                               noAlternativeRoute := Some noAlternative;
                               resolvedAt := resolvedAt analysis;
                               resolved := resolved analysis |}) |}
      end
  end.

(** *** resolveIncident (lines 701-771) *)

Definition noAnalysis : IncidentAnalysis :=
  {| success := None; fixedDelayMinutes := None; delayMinutes := None;
     severity := None; recommendation := None; shouldReroute := None;
     trafficMultiplier := None; reroutedAt := None; originalDuration := None;
     incidentType := None; noAlternativeRoute := None;
     resolvedAt := None; resolved := None |}.

Definition resolveIncident (env : Env) (found : option Run) : Response :=
  match found with
  | None => Status 404 "Optimization not found"
  | Some optimization =>
      if negb (isIncidentActive optimization)
      then Status 400 "No active incident to resolve"
      else
        let vs := populate_vehicles env (vehicles optimization) in
        let locs := populate_locations env (locations optimization) in
        match findDepot locs with
        | None => Status 400 "Depot not found"
        | Some depot =>
            let normalRoutes :=
              runORToolsOptimization env vs locs depot 1
                (default default_departure (departureTime optimization))
                None 0 in
            let old := default noAnalysis (incidentAnalysis optimization) in
            Json {| name := name optimization;
                    vehicles := vehicles optimization;
                    locations := locations optimization;
                    routes := normalRoutes;
                    totalDistance := sumDistance normalRoutes;
                    totalDuration := sumDuration normalRoutes;
                    departureTime := departureTime optimization;
                    isIncidentActive := false;
                    incidentLocation := None;
                    detourLocation := None;
                    originalRoutes := None;
                    incidentAnalysis :=
                      Some (persisted
                              {| success := success old;
                                 fixedDelayMinutes := fixedDelayMinutes old;
                                 delayMinutes := delayMinutes old;
                                 severity := severity old;
                                 recommendation := recommendation old;
                                 shouldReroute := shouldReroute old;
                                 trafficMultiplier := trafficMultiplier old;
                                 reroutedAt := reroutedAt old;
                                 originalDuration := originalDuration old;
                                 incidentType := incidentType old;
                                 noAlternativeRoute := noAlternativeRoute old;
                                 resolvedAt := Some (now env);
                                 resolved := Some true |}) |}
        end
  end.

(** The document in the store after a request that was answered with
    one of the answers above: the answers 404, 400 and the 500 of
    creation are given before [save()] is reached, so they leave the
    store as it was. A failure of the store between [save()] and the
    answer is not among the answers of the model. *)
Definition stored (found : option Run) (r : Response) : option Run :=
  match r with
  | Json o => Some o
  | Status _ _ => found
  end.

End Optimization.

(** ** The specification's vocabulary *)
Module Spec.
Import JS TrafficAI Optimization.

(** Clamping into an interval. *)
Definition clamp (lo hi x : Q) : Q :=
  if Qlt_le_dec x lo then lo
  else if Qlt_le_dec hi x then hi
  else x.

(** What [ensureRealistic] does to a number. *)
Definition capOrHour (v : Q) : Q :=
  if Qlt_le_dec 300 v then 300%Q
  else if Qlt_le_dec v 30 then 60%Q
  else v.

(** The sum of a list of numbers. *)
Definition total (l : list Q) : Q := fold_right Qplus 0%Q l.

(** The stops of a route that are not the depot, and their demands. *)
Definition nonDepotStops (depot : Location) (r : Route) : list Stop :=
  filter (fun s => locationId s ≠ loc_id depot) (stops r).

Definition demands (depot : Location) (r : Route) : list Q :=
  map demand (nonDepotStops depot r).

(** Every entry of a list of demands fits into what the entries before
    it leave of the capacity. *)
Definition fits (cap : Q) (ds : list Q) : Prop :=
  forall (k : nat) (x : Q),
    ds !! k = Some x -> (x <= cap - total (take k ds))%Q.

(** A route stays within a capacity: the demands of its non-depot
    stops add up to at most the capacity, the recorded totalCapacity is
    that sum, and no stop was pushed beyond what remained. *)
Definition withinCapacity (depot : Location) (cap : Q) (r : Route) : Prop :=
  (total (demands depot r) <= cap)%Q /\
  (totalCapacity r == total (demands depot r))%Q /\
  fits cap (demands depot r).

(** The decimal digit [d], a number below 100 written with two digits,
    and an hour from 1 to 12 written without a leading zero. *)
Definition digit (d : Z) : string :=
  String (ascii_of_nat (48 + Z.to_nat d)) EmptyString.

Definition twoDigits (n : Z) : string :=
  (digit (n / 10) ++ digit (n mod 10))%string.

Definition hourText (h : Z) : string :=
  if (h <? 10)%Z then digit h else twoDigits h.

(** A time of day, given in minutes, on the 12-hour clock: the minutes
    of the day modulo 1440, hour 0 shown as 12, the minutes with two
    digits, then AM or PM. *)
Definition clock12 (minutes : Z) : string :=
  let m := minutes mod 1440 in
  let h := m / 60 in
  let h12 := if h mod 12 =? 0 then 12 else h mod 12 in
  (hourText h12 ++ ":" ++ twoDigits (m mod 60) ++ " "
     ++ (if (h <? 12)%Z then "AM" else "PM"))%string.

(** The row or column of a location in the matrices. *)
Definition position (locs : list Location) (id : string) : nat :=
  default 0%nat (buildIndexMap locs !! id).

(** Duration from the previous stop for stop [i > 0] of a route that
    visits [ids]: the matrix entry, plus the service time unless the
    stop is the final one. *)
Definition durationFromPrev (adjusted : list (list Q)) (locs : list Location)
    (ids : list string) (i : nat) : Q :=
  match ids !! (i - 1)%nat, ids !! i with
  | Some p, Some c =>
      let travel := at2 adjusted (position locs p) (position locs c) in
      if (i =? List.length ids - 1)%nat then travel
      else (travel + SERVICE_TIME_MINUTES)%Q
  | _, _ => 0%Q
  end.

(** Cumulative time at stop [i]: the increments of stops [1] to [i]. *)
Definition cumulativeMinutes (adjusted : list (list Q)) (locs : list Location)
    (ids : list string) (i : nat) : Q :=
  foldl (fun acc k => (acc + durationFromPrev adjusted locs ids k)%Q) 0%Q
        (seq 1 i).

(** The same two quantities on the numbers of the machine. The travel
    time between two locations is the entry of the duration matrix
    times the traffic multiplier; the time from the previous stop is
    the travel time, and for every stop but the final one the service
    time added to it; the cumulative time at stop [i] adds the times of
    the stops [1] to [i] in this order. *)
Definition travelMinutes (ar : Arith) (durationMx : list (list Q)) (mult : Q)
    (locs : list Location) (p c : string) : Q :=
  m_mul ar (at2 durationMx (position locs p) (position locs c)) mult.

Definition legMinutes (ar : Arith) (durationMx : list (list Q)) (mult : Q)
    (locs : list Location) (ids : list string) (i : nat) : Q :=
  match ids !! (i - 1)%nat, ids !! i with
  | Some p, Some c =>
      let travel := travelMinutes ar durationMx mult locs p c in
      if (i =? List.length ids - 1)%nat then travel
      else m_add ar travel 15
  | _, _ => 0%Q
  end.

Definition minutesAt (ar : Arith) (durationMx : list (list Q)) (mult : Q)
    (locs : list Location) (ids : list string) (i : nat) : Q :=
  foldl (fun acc k => m_add ar acc (legMinutes ar durationMx mult locs ids k))
        0%Q (seq 1 i).

(** An integer is the nearest one to a number, the upper one of two that
    are equally near. *)
Definition nearestUp (x : Q) (m : Z) : Prop :=
  (inject_Z m - (1 # 2) <= x)%Q /\ (x < inject_Z m + (1 # 2))%Q.

(** The operations of the machine give no negative result for
    operands that are not negative. *)
Definition keepsSign (ar : Arith) : Prop :=
  (forall x y : Q, (0 <= x)%Q -> (0 <= y)%Q -> (0 <= m_add ar x y)%Q) /\
  (forall x y : Q, (0 <= x)%Q -> (0 <= y)%Q -> (0 <= m_mul ar x y)%Q).

(** A matrix has [n] rows of [n] entries, and a stop shows a location
    of the list: then every entry that the loops read is there. *)
Definition square (n : nat) (m : list (list Q)) : Prop :=
  List.length m = n /\ Forall (fun row => List.length row = n) m.

Definition listed (locs : list Location) (s : Stop) : Prop :=
  exists loc : Location, loc ∈ locs /\ loc_id loc = locationId s.

(** The haversine formula for the great-circle distance in kilometres
    between two points given in degrees, Earth radius 6371 km. *)
Definition haversine (M : MathLib) (lat1 lon1 lat2 lon2 : Q) : Q :=
  let phi1 := (lat1 * PI M / 180)%Q in
  let phi2 := (lat2 * PI M / 180)%Q in
  let dphi := ((lat2 - lat1) * PI M / 180)%Q in
  let dlambda := ((lon2 - lon1) * PI M / 180)%Q in
  let a :=
    (sin M (dphi / 2) * sin M (dphi / 2) +
     cos M phi1 * cos M phi2 * sin M (dlambda / 2) * sin M (dlambda / 2))%Q in
  (6371 * (2 * atan2 M (sqrt M a) (sqrt M (1 - a))))%Q.

(** Both coordinates of a location are numbers. *)
Definition located (l : Location) : Prop :=
  exists lat lon : Q, loc_latitude l = CNum lat /\ loc_longitude l = CNum lon.

(** The entry of a matrix in row [i] and column [j], if there is one. *)
Definition entry (m : list (list Q)) (i j : nat) : option Q :=
  m !! i ≫= (fun row => row !! j).

(** A route without what the directions service and the flag of the
    matrix answer put into its record. *)
Definition plain (r : Route) : Route :=
  {| vehicle := vehicle r; vehicleName := vehicleName r; stops := stops r;
     distance := distance r; duration := duration r;
     totalCapacity := totalCapacity r; geometry := None;
     usingRealRoadData := false |}.

(** A route with another value in its duration field. *)
Definition withDuration (r : Route) (d : Q) : Route :=
  {| vehicle := vehicle r;
     vehicleName := vehicleName r;
     stops := stops r;
     distance := distance r;
     duration := d;
     totalCapacity := totalCapacity r;
     geometry := geometry r;
     usingRealRoadData := usingRealRoadData r |}.

(** A route set whose first route, and no other, carries a delay. *)
Definition delayFirst (delay : Q) (rs : list Route) : list Route :=
  match rs with
  | [] => []
  | r :: rest => withDuration r (duration r + delay) :: rest
  end.

(** The midpoint between the depot and the first stop of a route. *)
Definition midpointOf (r : Route) : option Point :=
  match stops r with
  | depot :: firstStop :: _ =>
      Some {| pt_latitude := half (add (latitude depot) (latitude firstStop));
              pt_longitude := half (add (longitude depot) (longitude firstStop)) |}
  | _ => None
  end.

(** The same for the route that the affected-route index names. *)
Definition affectedMidpoint (rs : list Route) (affectedRouteIndex : nat)
  : option Point :=
  match rs !! affectedRouteIndex with
  | Some r => midpointOf r
  | None => None
  end.

(** Two values of a numeric field denote the same thing. *)
Definition sameCoord (a b : coord) : Prop :=
  match a, b with
  | CNum x, CNum y => (x == y)%Q
  | CNaN, CNaN => True
  | CUndefined, CUndefined => True
  | _, _ => False
  end.

Definition samePoint (p q : Point) : Prop :=
  sameCoord (pt_latitude p) (pt_latitude q) /\
  sameCoord (pt_longitude p) (pt_longitude q).

End Spec.

(** ** Invariants of the loops *)
Module Invariant.
Import JS TrafficAI Optimization.

(** What a successful search says about its result. *)
Definition eligible (locs : list Location) (depot : Location)
    (assigned : gset string) (remaining : Q) (b : Location) (i : nat) : Prop :=
  b ∈ nonDepot locs depot /\
  (loc_id b ∉ assigned) /\
  (or_num (loc_demand b) 0 <= remaining)%Q /\
  locationIndexMap locs !! loc_id b = Some i.

(** The [while] loop of one vehicle slot: the stops are the depot and
    then visits of other locations, whose demands add up to what has
    been taken from the capacity, each having fitted when it was
    pushed. *)
Definition fillInv (depot : Location) (vs : VehicleSlot) (st : Fill) : Prop :=
  exists (first : Stop) (visits : list Stop),
    f_stops st = first :: visits /\
    locationId first = loc_id depot /\
    Forall (fun s => locationId s ≠ loc_id depot) visits /\
    (f_remaining st == capacity vs - Spec.total (map demand visits))%Q /\
    Spec.fits (capacity vs) (map demand visits) /\
    (visits <> [] -> (0 <= f_remaining st)%Q).

(** The stops of a route carry the times of the specification: stop
    [i] has the rounded cumulative minutes as its arrival time and
    their clock string as its ETA, and the first stop starts at zero. *)
Definition timed (durationMx : list (list Q)) (locs : list Location)
    (mult : Q) (dep : DepartureTime) (r : Route) : Prop :=
  let adjusted := adjustedDurationMatrix durationMx mult in
  let ids := map locationId (stops r) in
  (forall s : Stop,
     stops r !! 0%nat = Some s -> cumulativeDistance s = toFixed2 0) /\
  (forall (i : nat) (s : Stop),
     stops r !! i = Some s ->
     arrivalTime s = Some (round (Spec.cumulativeMinutes adjusted locs ids i)) /\
     eta s = Some (formatEta dep (Spec.cumulativeMinutes adjusted locs ids i))).

(** The entries of [nonDepot] that are still to be assigned. *)
Definition unassigned (locs : list Location) (depot : Location)
    (assigned : gset string) : list Location :=
  filter (fun l => loc_id l ∉ assigned) (nonDepot locs depot).

End Invariant.

(** ** Sample data *)
Module Fixture.
Import JS TrafficAI Optimization.

Definition answer (v : Q) : Gemini :=
  Answered {| ai_fixedDelayMinutes := Some v;
              ai_delayMinutes := Some v;
              ai_severity := Some "LOW";
              ai_recommendation := None;
              ai_shouldReroute := Some true;
              ai_trafficMultiplier := None |}.

(** A rational stand-in for [Math]: truncated series and four Heron
    steps. The sample requests are answered by the matrix service, so
    no proof below evaluates it. *)
Fixpoint heron (n : nat) (x s : Q) : Q :=
  match n with
  | O => s
  | S n' => heron n' x ((s + x / s) / 2)%Q
  end.

Definition rationalMath : MathLib :=
  {| PI := 355 # 113;
     sin := fun x => (x - x * x * x / 6 + x * x * x * x * x / 120)%Q;
     cos := fun x => (1 - x * x / 2 + x * x * x * x / 24)%Q;
     sqrt := fun x => if Qlt_le_dec 0 x then heron 4 x ((x + 1) / 2)%Q else 0%Q;
     atan2 := fun y x =>
       if Qlt_le_dec 0 x
       then let t := (y / x)%Q in (t - t * t * t / 3 + t * t * t * t * t / 5)%Q
       else if Qlt_le_dec 0 y then ((355 # 113) / 2)%Q else 0%Q |}.

(** A depot and two customers of demand 10; one vehicle record of
    capacity 10 that stands for two vehicles. *)
Definition D : Location :=
  {| loc_id := "d"; loc_name := "Depot"; loc_latitude := CNum 0;
     loc_longitude := CNum 0; loc_demand := 0; isDepot := true |}.

Definition A : Location :=
  {| loc_id := "a"; loc_name := "A"; loc_latitude := CNum 2;
     loc_longitude := CNum 0; loc_demand := 10; isDepot := false |}.

Definition B : Location :=
  {| loc_id := "b"; loc_name := "B"; loc_latitude := CNum 0;
     loc_longitude := CNum 4; loc_demand := 10; isDepot := false |}.

Definition V : Vehicle :=
  {| veh_id := "v"; veh_name := "Van"; veh_capacity := 10; veh_count := 2 |}.

Definition roads : MatrixData :=
  {| distanceMatrix := [[0; 5; 8]; [5; 0; 4]; [8; 4; 0]]%Q;
     durationMatrix := [[0; 10; 16]; [10; 0; 8]; [16; 8; 0]]%Q;
     md_success := true |}.

(** The matrix service answers [roads]; there is no directions service
    and no language model key. *)
Definition env : Env :=
  {| Math := rationalMath;
     getRoadMatrix := fun _ => Some roads;
     getRouteGeometry := fun _ _ => None;
     gemini := NoApiKey;
     Vehicle_find := fun _ => [V];
     Location_find := fun _ => [D; A; B];
     populate_vehicles := fun _ => [V];
     populate_locations := fun _ => [D; A; B];
     now := 0 |}.

Definition plainCreate : CreateReq :=
  {| cr_name := Some "run";
     cr_vehicleIds := Some ["v"];
     cr_locationIds := Some ["d"; "a"; "b"];
     cr_incidentType := None;
     cr_affectedRouteIndex := None;
     cr_departureTime := None |}.

(** The same request on the legacy path: an incident at creation. *)
Definition incidentCreate : CreateReq :=
  {| cr_name := Some "run";
     cr_vehicleIds := Some ["v"];
     cr_locationIds := Some ["d"; "a"; "b"];
     cr_incidentType := Some "ACCIDENT";
     cr_affectedRouteIndex := Some 0;
     cr_departureTime := None |}.

Definition accident (affectedRouteIndex : Z) : RerouteReq :=
  {| rr_incidentType := Some "ACCIDENT";
     rr_affectedRouteIndex := Some affectedRouteIndex;
     rr_incidentLocation := None |}.

Definition blank : Run :=
  {| name := ""; vehicles := []; locations := []; routes := [];
     totalDistance := 0; totalDuration := 0; departureTime := None;
     isIncidentActive := false; incidentLocation := None;
     detourLocation := None; originalRoutes := None;
     incidentAnalysis := None |}.

(** The routes built for the sample data, and the first of them. *)
Definition built : list Route :=
  runORToolsOptimization env [V] [D; A; B] D 1 default_departure None 0.

Definition noRoute : Route :=
  {| vehicle := ""; vehicleName := ""; stops := []; distance := 0;
     duration := 0; totalCapacity := 0; geometry := None;
     usingRealRoadData := false |}.

Definition firstBuilt : Route := hd noRoute built.

(** The document that creation answers with. *)
Definition createdRun : Run :=
  default blank (stored None (createOptimization env plainCreate)).

(** The store after creation, and after one simulated incident. *)
Definition created : option Run :=
  stored None (createOptimization env plainCreate).

Definition active : option Run :=
  stored created (rerouteOptimization env created (accident 0)).

End Fixture.

(** ** A store with its two ways of reading *)
Module Shelf.
Import JS TrafficAI Optimization.

(** [Model.find({ _id: { $in: ids } })]: the documents of the collection
    that have one of the ids, in the order of the collection. *)
Definition findIn {A : Type} (idOf : A -> string) (collection : list A)
    (ids : list string) : list A :=
  List.filter (fun doc => bool_decide (idOf doc ∈ ids)) collection.

(** [populate]: the documents that the stored ids name, in the order of
    the ids. *)
Definition populated {A : Type} (idOf : A -> string) (collection : list A)
    (ids : list string) : list A :=
  omap (fun id => List.find (fun doc => String.eqb (idOf doc) id) collection)
       ids.

Definition small : Vehicle :=
  {| veh_id := "v1"; veh_name := "Small"; veh_capacity := 10; veh_count := 1 |}.

Definition large : Vehicle :=
  {| veh_id := "v2"; veh_name := "Large"; veh_capacity := 20; veh_count := 1 |}.

Definition fleet : list Vehicle := [small; large].

Definition sites : list Location := [Fixture.D; Fixture.A; Fixture.B].

(** One store and one matrix service for every request. *)
Definition env : Env :=
  {| Math := Fixture.rationalMath;
     getRoadMatrix := fun _ => Some Fixture.roads;
     getRouteGeometry := fun _ _ => None;
     gemini := NoApiKey;
     Vehicle_find := findIn veh_id fleet;
     Location_find := findIn loc_id sites;
     populate_vehicles := populated veh_id fleet;
     populate_locations := populated loc_id sites;
     now := 0 |}.

(** A create request without an incident that names the large vehicle
    first. *)
Definition largeFirst : CreateReq :=
  {| cr_name := Some "run";
     cr_vehicleIds := Some ["v2"; "v1"];
     cr_locationIds := Some ["d"; "a"; "b"];
     cr_incidentType := None;
     cr_affectedRouteIndex := None;
     cr_departureTime := None |}.

(** The document after creation, after a simulated incident, and after
    the incident was resolved. *)
Definition created : option Run :=
  stored None (createOptimization env largeFirst).

Definition active : option Run :=
  stored created (rerouteOptimization env created (Fixture.accident 0)).

Definition resolved : option Run :=
  stored active (resolveIncident env active).

Definition createdRun : Run := default Fixture.blank created.

Definition activeRun : Run := default Fixture.blank active.

Definition resolvedRun : Run := default Fixture.blank resolved.

End Shelf.

(** ** The doubles *)
Module Doubles.
Import JS TrafficAI Optimization.

(** The nearest integer, a tie going to the even one. *)
Definition halfEven (q : Q) : Z :=
  let f := Qfloor q in
  match (q - inject_Z f ?= 1 # 2)%Q with
  | Lt => f
  | Gt => f + 1
  | Eq => if Z.even f then f else f + 1
  end.

(** The exponent [e] of a positive number: [2 ^ e <= a < 2 ^ (e + 1)]. *)
Definition ilog2 (a : Q) : Z :=
  let e0 := Z.log2 (Qnum a) - Z.log2 (Zpos (Qden a)) in
  if Qle_bool (Qpower 2 e0) a then e0 else e0 - 1.

(** The double nearest to a number, a tie going to the even
    significand of 53 bits; for the numbers of the normal range. *)
Definition nearest (a : Q) : Q :=
  let s := ilog2 a - 52 in
  (inject_Z (halfEven (a / Qpower 2 s)) * Qpower 2 s)%Q.

Definition fl (x : Q) : Q :=
  match Qnum x with
  | Z0 => 0%Q
  | Zpos _ => nearest x
  | Zneg _ => (- nearest (- x))%Q
  end.

Definition binary64 : Arith :=
  {| m_add := fun x y => fl (x + y); m_mul := fun x y => fl (x * y) |}.

(** [dur / 60] of [getRoadMatrix], on the doubles and without
    rounding. *)
Definition minutesOf (seconds : Q) : Q := fl (seconds / 60).

Definition sixtieths (seconds : Q) : Q := (seconds / 60)%Q.

(** A depot and one customer: 122 seconds out and 28 seconds back. *)
Definition there : list Location := [Fixture.D; Fixture.A].

Definition legs (toMinutes : Q -> Q) : list (list Q) :=
  [[0%Q; toMinutes 122%Q]; [toMinutes 28%Q; 0%Q]].

Definition outAndBack : list Stop :=
  [depotStop Fixture.D 0 (Some 0) (Some "8:00 AM");
   visitStop Fixture.A 1;
   depotStop Fixture.D 2 None None].

(** The stops after the timing loop. *)
Definition timedOn (ar : Arith) (toMinutes : Q -> Q) : list Stop :=
  fst (fst (annotateWith ar (legs toMinutes) (legs toMinutes) there 1
              default_departure (List.length outAndBack) 0 None 0 0
              outAndBack)).

End Doubles.

(** ** The shape of the routes *)
Module Shape.
Import JS TrafficAI Optimization.

(** A stop shows a location: its id, name, coordinates and demand. *)
Definition stopOf (loc : Location) (s : Stop) : Prop :=
  locationId s = loc_id loc /\
  locationName s = loc_name loc /\
  latitude s = loc_latitude loc /\
  longitude s = loc_longitude loc /\
  demand s = or_num (loc_demand loc) 0.

(** Two stops agree on the fields that the timing loop does not set. *)
Definition sameVisit (a b : Stop) : Prop :=
  locationId a = locationId b /\
  locationName a = locationName b /\
  latitude a = latitude b /\
  longitude a = longitude b /\
  demand a = demand b /\
  order a = order b.

(** A stop shows one of the locations of the request other than the
    depot. *)
Definition customerStop (locs : list Location) (depot : Location) (s : Stop)
  : Prop :=
  exists loc : Location,
    loc ∈ locs /\ loc_id loc ≠ loc_id depot /\ stopOf loc s.

(** A route leaves the depot, visits at least one customer and returns to
    the depot; the stops are numbered from 0 in the order of the visit. *)
Definition wellShaped (locs : list Location) (depot : Location) (r : Route)
  : Prop :=
  exists (first : Stop) (visits : list Stop) (final : Stop),
    stops r = first :: visits ++ [final] /\
    visits <> [] /\
    stopOf depot first /\
    stopOf depot final /\
    Forall (customerStop locs depot) visits /\
    (forall (i : nat) (s : Stop), stops r !! i = Some s -> order s = i).

(** The ids of the customers that a route visits, and those of a route
    set, in the order of the visits. *)
Definition customerIds (depot : Location) (r : Route) : list string :=
  map locationId (Spec.nonDepotStops depot r).

Definition visitedIds (depot : Location) (rs : list Route) : list string :=
  concat (map (customerIds depot) rs).

(** The [while] loop of one vehicle slot that started with [assigned0]:
    the stops are the start stop and then customers numbered from 1, each
    a location that was not assigned before, none twice, and the set of
    assigned ids has grown by exactly these. *)
Definition fillShape (locs : list Location) (depot : Location)
    (assigned0 : gset string) (st : Fill) : Prop :=
  exists visits : list Stop,
    f_stops st = depotStop depot 0 (Some 0) (Some "8:00 AM") :: visits /\
    f_order st = S (List.length visits) /\
    Forall (customerStop locs depot) visits /\
    (forall (k : nat) (s : Stop), visits !! k = Some s -> order s = S k) /\
    NoDup (map locationId visits) /\
    (forall id : string,
       id ∈ f_assigned st <-> id ∈ assigned0 \/ id ∈ map locationId visits) /\
    (forall id : string, id ∈ map locationId visits -> id ∉ assigned0).

(** A location can be chosen: it is not assigned, its demand fits into
    what remains, and it has the row [j] of the matrices. *)
Definition candidate (locs : list Location) (assigned : gset string)
    (remaining : Q) (loc : Location) (j : nat) : Prop :=
  (loc_id loc ∉ assigned) /\
  (or_num (loc_demand loc) 0 <= remaining)%Q /\
  locationIndexMap locs !! loc_id loc = Some j.

(** What the search has found after the entries [seen] of the list: no
    candidate, or a candidate that is strictly nearer than every
    candidate before it and at least as near as every candidate after
    it. *)
Definition nearestOf (distanceMx : list (list Q)) (locs : list Location)
    (assigned : gset string) (remaining : Q) (currentIndex : nat)
    (seen : list Location) (found : Best) : Prop :=
  match found with
  | None =>
      forall (x : Location) (j : nat),
        x ∈ seen -> ~ candidate locs assigned remaining x j
  | Some (d, best, bestIndex) =>
      exists before after : list Location,
        seen = before ++ best :: after /\
        candidate locs assigned remaining best bestIndex /\
        d = at2 distanceMx currentIndex bestIndex /\
        (forall (x : Location) (j : nat),
           x ∈ before -> candidate locs assigned remaining x j ->
           (d < at2 distanceMx currentIndex j)%Q) /\
        (forall (x : Location) (j : nat),
           x ∈ after -> candidate locs assigned remaining x j ->
           (d <= at2 distanceMx currentIndex j)%Q)
  end.

(** A customer did not fit into what a route left of a capacity. *)
Definition tooBigFor (cap : Q) (r : Route) (loc : Location) : Prop :=
  (cap - totalCapacity r < or_num (loc_demand loc) 0)%Q.

(** The customers of the request that no route of a route set visits. *)
Definition unvisited (locs : list Location) (depot : Location)
    (rs : list Route) (loc : Location) : Prop :=
  loc ∈ locs /\ loc_id loc ≠ loc_id depot /\ loc_id loc ∉ visitedIds depot rs.

(** A route was built for a slot, and no customer left unvisited in the
    end would have fitted into it. *)
Definition servedBy (locs : list Location) (depot : Location)
    (final : list Route) (vs : VehicleSlot) (r : Route) : Prop :=
  vehicle r = vs_id vs /\ vehicleName r = vs_name vs /\
  forall loc : Location,
    unvisited locs depot final loc -> tooBigFor (capacity vs) r loc.

(** Distance from the previous stop for stop [i > 0] of a route that
    visits [ids], and the cumulative distance at stop [i]. *)
Definition legKm (distanceMx : list (list Q)) (locs : list Location)
    (ids : list string) (i : nat) : Q :=
  match ids !! (i - 1)%nat, ids !! i with
  | Some p, Some c => at2 distanceMx (Spec.position locs p) (Spec.position locs c)
  | _, _ => 0%Q
  end.

Definition cumulativeKm (distanceMx : list (list Q)) (locs : list Location)
    (ids : list string) (i : nat) : Q :=
  foldl (fun acc k => (acc + legKm distanceMx locs ids k)%Q) 0%Q (seq 1 i).

(** The distances of a route are those of the matrix along its stops, and
    its duration is the rounded cumulative time at its last stop, with
    the delay on top where the builder added it. *)
Definition measured (distanceMx durationMx : list (list Q))
    (locs : list Location) (mult delay : Q) (r : Route) : Prop :=
  let ids := map locationId (stops r) in
  let n := List.length (stops r) in
  let base :=
    inject_Z (round (Spec.cumulativeMinutes
                       (adjustedDurationMatrix durationMx mult) locs ids (n - 1))) in
  distance r = cumulativeKm distanceMx locs ids (n - 1) /\
  (forall (i : nat) (s : Stop),
     stops r !! i = Some s ->
     cumulativeDistance s = toFixed2 (cumulativeKm distanceMx locs ids i)) /\
  (duration r = base \/ ((0 < delay)%Q /\ duration r = (base + delay)%Q)).

(** What a stop shows apart from its times, and what a route shows apart
    from its times, its geometry and the flag of its data. *)
Definition place (s : Stop)
  : string * string * coord * coord * Q * nat * Q * Q :=
  (locationId s, locationName s, latitude s, longitude s, demand s, order s,
   cumulativeDistance s, distanceFromPrev s).

Definition skeleton (r : Route)
  : string * string * list (string * string * coord * coord * Q * nat * Q * Q)
    * Q * Q :=
  (vehicle r, vehicleName r, map place (stops r), distance r, totalCapacity r).

End Shape.

(** ** The body of a create request *)
Module Body.
Import JS TrafficAI Optimization.

(** A list of ids is an array of 1 to [most] entries. *)
Definition sized (most : nat) (ids : option (list string)) : bool :=
  match ids with
  | Some (id :: rest) => (List.length (id :: rest) <=? most)%nat
  | _ => false
  end.

(** The body passes the checks that are made before the store is read. *)
Definition accepted (req : CreateReq) : bool :=
  match cr_name req with
  | Some nm => negb (blank nm)
  | None => false
  end
  && sized 20 (cr_vehicleIds req) && sized 100 (cr_locationIds req).

(** The messages of these checks. *)
Definition complaints : list string :=
  ["Valid optimization name is required";
   "At least one vehicle must be selected";
   "At least one location must be selected";
   "Maximum 100 locations allowed";
   "Maximum 20 vehicles allowed"].

End Body.

(** ** The road services (lines 12-121) *)
Module Mapbox.
Import JS TrafficAI Optimization.

(** The answer of the matrix service: its status and the two fields of
    its body, in metres and seconds. *)
Record MatrixAnswer : Type := {
  ma_ok : bool;
  ma_distances : option (list (list Q));
  ma_durations : option (list (list Q))
}.

(** [getRoadMatrix]: [fetch] is the service, asked with the list of
    [lng,lat] pairs; it answers [None] when the call throws. *)
Definition getRoadMatrix (token : option string)
    (fetch : list (coord * coord) -> option MatrixAnswer)
    (locations : list Location) : option MatrixData :=
  if negb (given token) then None
  else
    let coordinates :=
      map (fun loc => (loc_longitude loc, loc_latitude loc)) locations in
    match fetch coordinates with
    | None => None
    | Some response =>
        if negb (ma_ok response) then None
        else
          match ma_distances response, ma_durations response with
          | Some distances, Some durations =>
              Some {| distanceMatrix :=
                        map (map (fun dist => (dist / 1000)%Q)) distances;
                      durationMatrix :=
                        map (map (fun dur => (dur / 60)%Q)) durations;
                      md_success := true |}
          | _, _ => None
          end
    end.

(** A request to the directions service: the [lng,lat] pairs of the
    stops and the point to exclude, if any. *)
Record DirectionsRequest : Type := {
  dr_coordinates : list (coord * coord);
  dr_exclude : option Point
}.

(** Its answer: the status and, of the body, the coordinates of each
    route's geometry ([None] for a route that carries none). *)
Record DirectionsAnswer : Type := {
  da_ok : bool;
  da_routes : option (list (option Coordinates))
}.

(** [data.routes && data.routes.length > 0] and then
    [data.routes[0].geometry.coordinates]. *)
Definition firstRouteOf (data : DirectionsAnswer) : option Coordinates :=
  match da_routes data with
  | Some (g :: _) => g
  | _ => None
  end.

(** [getRouteGeometry]: the geometry, and the requests that were sent. *)
Definition getRouteGeometry (token : option string)
    (fetch : DirectionsRequest -> option DirectionsAnswer)
    (stops : list Stop) (incidentLocation : option Point)
  : option Coordinates * list DirectionsRequest :=
  if negb (given token) || (List.length stops <? 2)%nat then (None, [])
  else
    let coordinates := map (fun stop => (longitude stop, latitude stop)) stops in
    let exclude :=
      match incidentLocation with
      | Some p =>
          if truthy (pt_latitude p) && truthy (pt_longitude p) then Some p
          else None
      | None => None
      end in
    let request := {| dr_coordinates := coordinates; dr_exclude := exclude |} in
    match fetch request with
    | None => (None, [request])
    | Some response =>
        if negb (da_ok response) then
          match incidentLocation with
          | Some _ =>
              let fallbackRequest :=
                {| dr_coordinates := coordinates; dr_exclude := None |} in
              match fetch fallbackRequest with
              | None => (None, [request; fallbackRequest])
              | Some fallbackResponse =>
                  if da_ok fallbackResponse
                  then (firstRouteOf fallbackResponse, [request; fallbackRequest])
                  else (None, [request; fallbackRequest])
              end
          | None => (None, [request])
          end
        else (firstRouteOf response, [request])
    end.

(** An environment whose two road services are these functions. *)
Definition withServices (token : option string)
    (fetchMatrix : list (coord * coord) -> option MatrixAnswer)
    (fetchDirections : DirectionsRequest -> option DirectionsAnswer)
    (base : Env) : Env :=
  {| Math := Math base;
     Optimization.getRoadMatrix := getRoadMatrix token fetchMatrix;
     Optimization.getRouteGeometry :=
       fun stops il => fst (getRouteGeometry token fetchDirections stops il);
     gemini := gemini base;
     Vehicle_find := Vehicle_find base;
     Location_find := Location_find base;
     populate_vehicles := populate_vehicles base;
     populate_locations := populate_locations base;
     now := now base |}.

End Mapbox.

(** ** getRoutedPolyline (lines 542-572) *)
Module Polyline.
Import JS TrafficAI Optimization.

Inductive PolylineResponse : Type :=
| PolylineJson (coordinates : list (coord * coord)) (distanceKm : Q)
    (durationMin : Z)
| PolylineStatus (code : Z) (msg : string).

(** [routeIndex] is [Number(req.params.routeIndex)] when that is an index
    of an array, [None] otherwise. *)
Definition getRoutedPolyline (found : option Run) (routeIndex : option nat)
  : PolylineResponse :=
  match found with
  | None => PolylineStatus 404 "Optimization not found"
  | Some optimization =>
      match routeIndex ≫= (fun i => routes optimization !! i) with
      | None => PolylineStatus 404 "Route not found"
      | Some route =>
          PolylineJson
            (map (fun stop => (longitude stop, latitude stop)) (stops route))
            (distance route)
            (round (duration route / 60))
      end
  end.

End Polyline.

(** ** The page: handleSimulateIncident and the notice of the analysis
    card (frontend/src/pages/OptimizationDetail.js, lines 99-177 and
    410-456). [optimization] is the copy of the document that the page
    holds. *)
Module Page.
Import JS TrafficAI Optimization.

(** The point that the page proposes: the middle entry of the first
    route's geometry, or else the midpoint of its first two stops. *)
Definition proposedPoint (o : Run) : option Point :=
  match routes o with
  | [] => None
  | firstRoute :: _ =>
      match geometry firstRoute with
      | Some (g0 :: g) =>
          let geometryCoordinates := g0 :: g in
          let midIndex := (List.length geometryCoordinates / 2)%nat in
          match geometryCoordinates !! midIndex with
          | Some midPoint =>
              Some {| pt_latitude := CNum (snd midPoint);
                      pt_longitude := CNum (fst midPoint) |}
          | None => None
          end
      | _ =>
          match stops firstRoute with
          | depot :: firstStop :: _ =>
              Some {| pt_latitude :=
                        half (add (latitude depot) (latitude firstStop));
                      pt_longitude :=
                        half (add (longitude depot) (longitude firstStop)) |}
          | _ => None
          end
      end
  end.

(** The request that the page sends, if it sends one. *)
Definition handleSimulateIncident (optimization : option Run)
  : option RerouteReq :=
  match optimization with
  | None => None
  | Some o =>
      if isIncidentActive o then None
      else
        Some {| rr_incidentType := Some "ACCIDENT";
                rr_affectedRouteIndex := Some 0;
                rr_incidentLocation := proposedPoint o |}
  end.

(** Lines 410-456: the notice "No alternative route available" is
    rendered inside the analysis card, that is, where the analysis
    succeeded, is not resolved and carries a true
    [noAlternativeRoute]. *)
Definition showsNoAlternative (o : Run) : bool :=
  match incidentAnalysis o with
  | Some ia =>
      default false (success ia) && negb (default false (resolved ia))
      && default false (noAlternativeRoute ia)
  | None => false
  end.

End Page.

(** ** More sample data *)
Module Sample.
Import JS TrafficAI Optimization.


(** A customer whose demand no vehicle of the sample data can carry. *)
Definition C : Location :=
  {| loc_id := "c"; loc_name := "C"; loc_latitude := CNum 3;
     loc_longitude := CNum 3; loc_demand := 50; isDepot := false |}.

Definition roads4 : MatrixData :=
  {| distanceMatrix :=
       [[0; 5; 8; 2]; [5; 0; 4; 6]; [8; 4; 0; 7]; [2; 6; 7; 0]]%Q;
     durationMatrix :=
       [[0; 10; 16; 4]; [10; 0; 8; 12]; [16; 8; 0; 14]; [4; 12; 14; 0]]%Q;
     md_success := true |}.

Definition locs4 : list Location := [Fixture.D; Fixture.A; Fixture.B; C].

(** The matrix service answers [roads4]; the rest is as in [Fixture.env]. *)
Definition env4 : Env :=
  {| Math := Fixture.rationalMath;
     getRoadMatrix := fun _ => Some roads4;
     getRouteGeometry := fun _ _ => None;
     gemini := NoApiKey;
     Vehicle_find := fun _ => [Fixture.V];
     Location_find := fun _ => locs4;
     populate_vehicles := fun _ => [Fixture.V];
     populate_locations := fun _ => locs4;
     now := 0 |}.

Definition built4 : list Route :=
  runORToolsOptimization env4 [Fixture.V] locs4 Fixture.D 1 default_departure None 0.

Definition firstBuilt4 : Route := hd Fixture.noRoute built4.

(** The same roads in heavy traffic: every duration is doubled. *)
Definition slowEnv : Env :=
  {| Math := Fixture.rationalMath;
     getRoadMatrix := fun _ =>
       Some {| distanceMatrix := distanceMatrix Fixture.roads;
               durationMatrix := [[0; 20; 32]; [20; 0; 16]; [32; 16; 0]]%Q;
               md_success := true |};
     getRouteGeometry := fun _ _ => Some [(0, 0); (1, 1)]%Q;
     gemini := Threw;
     Vehicle_find := fun _ => [Fixture.V];
     Location_find := fun _ => [Fixture.D; Fixture.A; Fixture.B];
     populate_vehicles := fun _ => [Fixture.V];
     populate_locations := fun _ => [Fixture.D; Fixture.A; Fixture.B];
     now := 1 |}.

(** A store that holds only the depot and the oversize customer. *)
Definition envC : Env :=
  {| Math := Fixture.rationalMath;
     getRoadMatrix := fun _ => Some Fixture.roads;
     getRouteGeometry := fun _ _ => None;
     gemini := NoApiKey;
     Vehicle_find := fun _ => [Fixture.V];
     Location_find := fun _ => [Fixture.D; C];
     populate_vehicles := fun _ => [Fixture.V];
     populate_locations := fun _ => [Fixture.D; C];
     now := 0 |}.

(** The no-break space U+00A0 and the line separator U+2028, in UTF-8. *)
Definition nbsp : string :=
  String (ascii_of_nat 194) (String (ascii_of_nat 160) EmptyString).

Definition lineSeparator : string :=
  String (ascii_of_nat 226)
    (String (ascii_of_nat 128) (String (ascii_of_nat 168) EmptyString)).

(** A create request whose name is only white space. *)
Definition unnamed : CreateReq :=
  {| cr_name := Some (" " ++ nbsp ++ lineSeparator)%string;
     cr_vehicleIds := cr_vehicleIds Fixture.plainCreate;
     cr_locationIds := cr_locationIds Fixture.plainCreate;
     cr_incidentType := cr_incidentType Fixture.plainCreate;
     cr_affectedRouteIndex := cr_affectedRouteIndex Fixture.plainCreate;
     cr_departureTime := cr_departureTime Fixture.plainCreate |}.

(** A simulate request with a point, and one whose point is on the
    equator. *)
Definition accidentAt (lat lon : Q) : RerouteReq :=
  {| rr_incidentType := Some "ACCIDENT";
     rr_affectedRouteIndex := Some 0;
     rr_incidentLocation :=
       Some {| pt_latitude := CNum lat; pt_longitude := CNum lon |} |}.

(** The sample store with a language model that answers [v] minutes. *)
Definition answering (v : Q) : Env :=
  {| Math := Math Fixture.env;
     getRoadMatrix := getRoadMatrix Fixture.env;
     getRouteGeometry := getRouteGeometry Fixture.env;
     gemini := Fixture.answer v;
     Vehicle_find := Vehicle_find Fixture.env;
     Location_find := Location_find Fixture.env;
     populate_vehicles := populate_vehicles Fixture.env;
     populate_locations := populate_locations Fixture.env;
     now := now Fixture.env |}.

(** The run with its incident active, and the same run after a second
    simulate request, for which the language model answers 120
    minutes. *)
Definition activeRun : Run := default Fixture.blank Fixture.active.

Definition again : Run :=
  default Fixture.blank
    (stored Fixture.active
       (rerouteOptimization (answering 120) Fixture.active (accidentAt 1 3))).

(** The first two stops of the first sample route. *)
Definition stop0 : Stop :=
  default (depotStop Fixture.D 0 None None) (stops Fixture.firstBuilt !! 0%nat).

Definition stop1 : Stop :=
  default (depotStop Fixture.D 0 None None) (stops Fixture.firstBuilt !! 1%nat).

Definition late : DepartureTime := {| startHour := 23; startMinute := 50 |}.

(** A matrix service that answers in metres and seconds, and a
    directions service that refuses every request with an exclusion. *)
Definition metres : Mapbox.MatrixAnswer :=
  {| Mapbox.ma_ok := true;
     Mapbox.ma_distances := Some [[0; 5000]; [5000; 0]]%Q;
     Mapbox.ma_durations := Some [[0; 600]; [600; 0]]%Q |}.

Definition fetchMatrix (coordinates : list (coord * coord))
  : option Mapbox.MatrixAnswer :=
  Some metres.

Definition line : Coordinates := [(0, 0); (1, 1); (2, 0)]%Q.

Definition fetchDirections (request : Mapbox.DirectionsRequest)
  : option Mapbox.DirectionsAnswer :=
  match Mapbox.dr_exclude request with
  | Some _ => Some {| Mapbox.da_ok := false; Mapbox.da_routes := None |}
  | None => Some {| Mapbox.da_ok := true; Mapbox.da_routes := Some [Some line] |}
  end.

(** The sample store behind the two services, with and without a token. *)
Definition served : Env :=
  Mapbox.withServices (Some "token") fetchMatrix fetchDirections Fixture.env.

Definition unserved : Env :=
  Mapbox.withServices None fetchMatrix fetchDirections Fixture.env.

(** The first route built behind the services with an incident point. *)
Definition crash : Point :=
  {| pt_latitude := CNum 1; pt_longitude := CNum 1 |}.

Definition servedFirst : Route :=
  hd Fixture.noRoute
    (runORToolsOptimization served [Fixture.V] [Fixture.D; Fixture.A]
       Fixture.D 1 default_departure (Some crash) 60).

(** A run whose first route has a geometry. *)
Definition drawn : Run :=
  {| name := "run"; vehicles := ["v"]; locations := ["d"; "a"; "b"];
     routes :=
       [{| vehicle := "v"; vehicleName := "Van";
           stops := stops Fixture.firstBuilt;
           distance := distance Fixture.firstBuilt;
           duration := duration Fixture.firstBuilt;
           totalCapacity := totalCapacity Fixture.firstBuilt;
           geometry := Some line;
           usingRealRoadData := true |}];
     totalDistance := 0; totalDuration := 0; departureTime := None;
     isIncidentActive := false; incidentLocation := None;
     detourLocation := None; originalRoutes := None;
     incidentAnalysis := None |}.

End Sample.

(** * Properties *)

Import JS TrafficAI Optimization Invariant.

(** ** The incident delay *)

Lemma or_num_id (x d : Q) : ~ (x == 0)%Q -> or_num x d = x.
Proof.
  intros Hx. unfold or_num.
  destruct (Qeq_bool x 0) eqn:E; [|reflexivity].
  apply Qeq_bool_eq in E. contradiction.
Qed.

Lemma ensureRealistic_some (v : Q) :
  ensureRealistic (Some v) = Some (Spec.capOrHour v).
Proof.
  unfold ensureRealistic, Spec.capOrHour, gt300, lt30.
  destruct (Qlt_le_dec 300 v) as [H|H].
  - destruct (Qlt_le_dec 300 30) as [H'|H']; [lra|reflexivity].
  - destruct (Qlt_le_dec v 30); reflexivity.
Qed.

Lemma capOrHour_range (v : Q) :
  (30 <= Spec.capOrHour v /\ Spec.capOrHour v <= 300)%Q.
Proof.
  unfold Spec.capOrHour.
  destruct (Qlt_le_dec 300 v); [lra|].
  destruct (Qlt_le_dec v 30); lra.
Qed.

(** The delay applied by a reroute is positive whatever the analysis
    service answered. *)
Lemma appliedDelay_range (g : Gemini) :
  (30 <= appliedDelay (analyzeIncidentImpact g) /\
   appliedDelay (analyzeIncidentImpact g) <= 300)%Q.
Proof.
  destruct g as [| |d]; unfold appliedDelay; simpl.
  - unfold or_num; simpl; lra.
  - unfold or_num; simpl; lra.
  - destruct (ai_fixedDelayMinutes d) as [v|] eqn:E.
    + rewrite ensureRealistic_some. simpl.
      pose proof (capOrHour_range v) as [Hlo Hhi].
      rewrite or_num_id; [lra|]. intros Hz. rewrite Hz in Hlo. lra.
    + simpl. lra.
Qed.

(** C4, as the claim states it, fails: the service answers 10 minutes;
    clamping into [30, 300] gives 30, the delay applied is 60. *)
Lemma C4_counterexample :
  ~ (appliedDelay (analyzeIncidentImpact (Fixture.answer 10))
     == Spec.clamp 30 300 10)%Q.
Proof. vm_compute. discriminate. Qed.

(** C4, amended: for a numeric delay [v] in the service's answer, the
    delay applied is 300 when [v > 300], 60 when [v < 30], and [v]
    otherwise; it always lies in [30, 300]. *)
Theorem C4_applied_delay (d : AiData) (v : Q) :
  ai_fixedDelayMinutes d = Some v ->
  appliedDelay (analyzeIncidentImpact (Answered d)) = Spec.capOrHour v /\
  (30 <= appliedDelay (analyzeIncidentImpact (Answered d)) <= 300)%Q.
Proof.
  intros Hv. split; [|apply appliedDelay_range].
  unfold appliedDelay. simpl. rewrite Hv, ensureRealistic_some. simpl.
  pose proof (capOrHour_range v) as [Hlo _].
  apply or_num_id. intros Hz. rewrite Hz in Hlo. lra.
Qed.

Lemma C4_applied_delay_witness :
  appliedDelay (analyzeIncidentImpact (Fixture.answer 10)) = Spec.capOrHour 10 /\
  (30 <= appliedDelay (analyzeIncidentImpact (Fixture.answer 10)) <= 300)%Q.
Proof. apply (C4_applied_delay _ 10). reflexivity. Defined.

(** ** The incident state machine *)

(** C6: resolve on a stored run whose flag is false answers 400 and
    leaves the stored run as it was; and after a resolve that succeeded,
    the next resolve answers 400. *)
Theorem C6_resolve_without_incident (e e' : Env) (idle busy : option Run) :
  (isIncidentActive <$> idle = Some false ->
   resolveIncident e idle = Status 400 "No active incident to resolve" /\
   stored idle (resolveIncident e idle) = idle) /\
  (forall o1 : Run,
     resolveIncident e busy = Json o1 ->
     resolveIncident e' (stored busy (resolveIncident e busy))
       = Status 400 "No active incident to resolve").
Proof.
  split.
  - destruct idle as [o|]; [|discriminate].
    simpl. intros [= Hflag]. rewrite Hflag. simpl. auto.
  - intros o1 Hok. rewrite Hok. simpl.
    destruct busy as [o|]; [|discriminate]. simpl in Hok.
    destruct (negb (isIncidentActive o)); [discriminate|].
    destruct (findDepot _); [|discriminate].
    injection Hok as <-. reflexivity.
Qed.

Lemma C6_resolve_without_incident_witness :
  (resolveIncident Fixture.env Fixture.created
     = Status 400 "No active incident to resolve" /\
   stored Fixture.created (resolveIncident Fixture.env Fixture.created)
     = Fixture.created) /\
  resolveIncident Fixture.env
    (stored Fixture.active (resolveIncident Fixture.env Fixture.active))
    = Status 400 "No active incident to resolve".
Proof.
  destruct (C6_resolve_without_incident Fixture.env Fixture.env
              Fixture.created Fixture.active) as [Hidle Hbusy].
  split.
  - apply Hidle. vm_compute. reflexivity.
  - destruct (resolveIncident Fixture.env Fixture.active) as [o1|code msg] eqn:E.
    + apply (Hbusy o1). reflexivity.
    + vm_compute in E. discriminate E.
Defined.

(** C2, at a failing input: the stored run already has an active
    incident; a second reroute request is answered with the document, not
    with an error, and the baseline kept for comparison is overwritten by
    the incident routes (the duration recorded as original goes from 82
    to 142 minutes). *)
Lemma C2_second_simulate_accepted :
  isIncidentActive <$> Fixture.active = Some true /\
  exists o2 : Run,
    rerouteOptimization Fixture.env Fixture.active (Fixture.accident 0) = Json o2 /\
    originalRoutes o2 = routes <$> Fixture.active /\
    (totalDuration <$> Fixture.created = Some (82 # 1)) /\
    ((Fixture.active ≫= incidentAnalysis) ≫= originalDuration = Some (82 # 1)) /\
    (incidentAnalysis o2 ≫= originalDuration = Some (142 # 1)).
Proof.
  split; [vm_compute; reflexivity|].
  eexists. split; [vm_compute; reflexivity|].
  repeat split; vm_compute; reflexivity.
Qed.

(** A reroute request on a stored run with a depot is never answered with
    an error: there is no test of the incident flag on this path. *)
Lemma reroute_always_accepted (e : Env) (o : Run) (req : RerouteReq) (depot : Location) :
  findDepot (populate_locations e (locations o)) = Some depot ->
  exists o2 : Run,
    rerouteOptimization e (Some o) req = Json o2 /\
    isIncidentActive o2 = true /\
    originalRoutes o2 = Some (routes o) /\
    incidentLocation o2 = finalIncidentLocation o req.
Proof.
  intros Hd. unfold rerouteOptimization. rewrite Hd.
  eexists. split; [reflexivity|]. simpl. auto.
Qed.

(** ** The incident point *)

(** C7, as the claim states it, fails: two routes, no point supplied, and
    affected-route index 1. The point used is the midpoint of the first
    route's first leg, (1, 0), not that of route 1, (0, 2). *)
Lemma C7_counterexample :
  exists (o1 : Run) (used claimed : Point),
    rerouteOptimization Fixture.env Fixture.created (Fixture.accident 1) = Json o1 /\
    incidentLocation o1 = Some used /\
    (Fixture.created ≫= (fun o => Spec.affectedMidpoint (routes o) 1)) = Some claimed /\
    Spec.samePoint used {| pt_latitude := CNum 1; pt_longitude := CNum 0 |} /\
    Spec.samePoint claimed {| pt_latitude := CNum 0; pt_longitude := CNum 2 |} /\
    ~ Spec.samePoint used claimed.
Proof.
  eexists. eexists. eexists.
  split; [vm_compute; reflexivity|].
  split; [vm_compute; reflexivity|].
  split; [vm_compute; reflexivity|].
  split; [vm_compute; auto|].
  split; [vm_compute; auto|].
  vm_compute. intros [H _]. discriminate H.
Qed.

(** C7, amended: without a supplied point, the incident point is the
    midpoint between the first two stops (the depot and the first stop)
    of the run's first route, whatever the affected-route index is; for
    numeric coordinates that is the arithmetic mean of the latitudes and
    of the longitudes. *)
Theorem C7_incident_point (e : Env) (o : Run) (req : RerouteReq)
    (depot : Location) (firstRoute : Route) (others : list Route)
    (d s : Stop) (more : list Stop) (lat0 lon0 lat1 lon1 : Q) :
  rr_incidentLocation req = None ->
  findDepot (populate_locations e (locations o)) = Some depot ->
  routes o = firstRoute :: others ->
  stops firstRoute = d :: s :: more ->
  latitude d = CNum lat0 -> longitude d = CNum lon0 ->
  latitude s = CNum lat1 -> longitude s = CNum lon1 ->
  exists o1 : Run,
    rerouteOptimization e (Some o) req = Json o1 /\
    incidentLocation o1 =
      Some {| pt_latitude := CNum ((lat0 + lat1) / 2);
              pt_longitude := CNum ((lon0 + lon1) / 2) |} /\
    incidentLocation o1 = Spec.affectedMidpoint (routes o) 0.
Proof.
  intros Hnone Hd Hr Hs Hlat0 Hlon0 Hlat1 Hlon1.
  destruct (reroute_always_accepted e o req depot Hd) as (o1 & Hresp & _ & _ & Hloc).
  exists o1. split; [exact Hresp|].
  rewrite Hloc. unfold finalIncidentLocation. rewrite Hnone.
  unfold Spec.affectedMidpoint, Spec.midpointOf, midpointFallback.
  rewrite Hr. simpl. rewrite Hs, Hlat0, Hlon0, Hlat1, Hlon1. simpl. auto.
Qed.

Lemma C7_incident_point_witness :
  exists o1 : Run,
    rerouteOptimization Fixture.env (Some Fixture.createdRun) (Fixture.accident 1)
      = Json o1 /\
    incidentLocation o1 =
      Some {| pt_latitude := CNum ((0 + 2) / 2);
              pt_longitude := CNum ((0 + 0) / 2) |} /\
    incidentLocation o1 = Spec.affectedMidpoint (routes Fixture.createdRun) 0.
Proof.
  eapply (C7_incident_point Fixture.env Fixture.createdRun (Fixture.accident 1)
            Fixture.D);
    reflexivity.
Defined.

(** ** The fixed delay *)

Section Delay.
Variable geometryService : list Stop -> option Point -> option Coordinates.
Variables (distanceMx durationMx : list (list Q)) (realRoadData : bool).
Variables (locs : list Location) (depot : Location).
Variable trafficMultiplier : Q.
Variable departure : DepartureTime.
Variable incidentLoc : option Point.

Let close (delay : Q) :=
  closeRoute geometryService distanceMx durationMx realRoadData locs depot
    trafficMultiplier departure incidentLoc delay.

Let loop (delay : Q) :=
  slotsLoop geometryService distanceMx durationMx realRoadData locs depot
    trafficMultiplier departure incidentLoc delay.

Lemma closeRoute_delay (delay : Q) (vs : VehicleSlot) (st : Fill) (rs : list Route) :
  (0 < delay)%Q ->
  close delay vs st (Spec.delayFirst delay rs)
    = Spec.delayFirst delay (close 0 vs st rs).
Proof.
  intros Hpos. unfold close, closeRoute.
  destruct (1 <? List.length (f_stops st))%nat; [|reflexivity].
  destruct (annotate _ _ _ _ _ _ _ _ _ _ _) as [[annotated cd] ct].
  destruct (Qlt_le_dec 0 delay) as [_|Hle]; [|lra].
  destruct (Qlt_le_dec 0 0) as [Hlt|_]; [lra|].
  destruct rs as [|r rest]; reflexivity.
Qed.

Lemma slotsLoop_delay (delay : Q) (slots : list VehicleSlot) :
  (0 < delay)%Q ->
  forall (rs : list Route) (assigned : gset string),
    loop delay slots (Spec.delayFirst delay rs) assigned
      = Spec.delayFirst delay (loop 0 slots rs assigned).
Proof.
  intros Hpos. unfold loop.
  induction slots as [|vs rest IH]; intros rs assigned; simpl; [reflexivity|].
  fold (close delay) (close 0).
  rewrite (closeRoute_delay delay vs _ rs Hpos).
  destruct (decide _); [reflexivity|]. apply IH.
Qed.

End Delay.

Lemma delayFirst_stops (delay : Q) (rs : list Route) :
  map stops (Spec.delayFirst delay rs) = map stops rs.
Proof. destruct rs; reflexivity. Qed.

Lemma delayFirst_distance (delay : Q) (rs : list Route) :
  map distance (Spec.delayFirst delay rs) = map distance rs.
Proof. destruct rs; reflexivity. Qed.

Lemma delayFirst_durations (delay : Q) (rs : list Route) :
  map duration (Spec.delayFirst delay rs) =
  match map duration rs with
  | [] => []
  | first :: others => (first + delay)%Q :: others
  end.
Proof. destruct rs; reflexivity. Qed.

Lemma run_delay (e : Env) (vs : list Vehicle) (locs : list Location)
    (depot : Location) (mult : Q) (dep : DepartureTime) (il : option Point)
    (delay : Q) :
  (0 < delay)%Q ->
  runORToolsOptimization e vs locs depot mult dep il delay
    = Spec.delayFirst delay (runORToolsOptimization e vs locs depot mult dep il 0).
Proof.
  intros Hpos. unfold runORToolsOptimization.
  rewrite <- (slotsLoop_delay _ _ _ _ _ _ _ _ _ delay _ Hpos []). reflexivity.
Qed.

(** C10: with a positive fixed delay the builder returns the route set of
    the zero-delay run with the delay added to the duration field of the
    first route; the stop lists (with every stop's cumulativeDistance,
    distanceFromPrev, arrivalTime and eta), the distances and the
    durations of the other routes are those of the zero-delay run. *)
Theorem C10_delay_frame (e : Env) (vs : list Vehicle) (locs : list Location)
    (depot : Location) (mult : Q) (dep : DepartureTime) (il : option Point)
    (delay : Q) :
  (0 < delay)%Q ->
  let delayed := runORToolsOptimization e vs locs depot mult dep il delay in
  let plain := runORToolsOptimization e vs locs depot mult dep il 0 in
  delayed = Spec.delayFirst delay plain /\
  map stops delayed = map stops plain /\
  map distance delayed = map distance plain /\
  map totalCapacity delayed = map totalCapacity plain /\
  map duration delayed =
    match map duration plain with
    | [] => []
    | first :: others => (first + delay)%Q :: others
    end.
Proof.
  intros Hpos delayed plain.
  assert (E : delayed = Spec.delayFirst delay plain) by (apply run_delay; exact Hpos).
  rewrite E. split; [reflexivity|].
  split; [apply delayFirst_stops|].
  split; [apply delayFirst_distance|].
  split; [destruct plain; reflexivity|].
  apply delayFirst_durations.
Qed.

Lemma C10_delay_frame_witness :
  let delayed :=
    runORToolsOptimization Fixture.env [Fixture.V] [Fixture.D; Fixture.A; Fixture.B]
      Fixture.D 1 default_departure None 60 in
  let plain :=
    runORToolsOptimization Fixture.env [Fixture.V] [Fixture.D; Fixture.A; Fixture.B]
      Fixture.D 1 default_departure None 0 in
  delayed = Spec.delayFirst 60 plain /\
  map stops delayed = map stops plain /\
  map distance delayed = map distance plain /\
  map totalCapacity delayed = map totalCapacity plain /\
  map duration delayed =
    match map duration plain with
    | [] => []
    | first :: others => (first + 60)%Q :: others
    end.
Proof.
  apply (C10_delay_frame Fixture.env [Fixture.V] [Fixture.D; Fixture.A; Fixture.B]
           Fixture.D 1 default_departure None 60).
  reflexivity.
Defined.

Lemma or_num_zero (x : Q) : (or_num x 0 == x)%Q.
Proof.
  unfold or_num. destruct (Qeq_bool x 0) eqn:E; [|reflexivity].
  apply Qeq_bool_eq in E. symmetry. exact E.
Qed.

Lemma foldl_sum {A : Type} (f : A -> Q) (l : list A) :
  forall acc : Q,
    (foldl (fun a r => a + or_num (f r) 0) acc l == acc + Spec.total (map f l))%Q.
Proof.
  induction l as [|x l IH]; intros acc; simpl.
  - lra.
  - rewrite IH. pose proof (or_num_zero (f x)). lra.
Qed.

Lemma sumDuration_total (rs : list Route) :
  (sumDuration rs == Spec.total (map duration rs))%Q.
Proof. unfold sumDuration. rewrite foldl_sum. lra. Qed.

Lemma sumDistance_total (rs : list Route) :
  (sumDistance rs == Spec.total (map distance rs))%Q.
Proof. unfold sumDistance. rewrite foldl_sum. lra. Qed.

Lemma total_delayFirst (delay : Q) (rs : list Route) :
  rs <> [] ->
  (Spec.total (map duration (Spec.delayFirst delay rs))
   == Spec.total (map duration rs) + delay)%Q.
Proof.
  destruct rs as [|r rest]; [congruence|]. intros _. simpl. lra.
Qed.

(** C3: a simulate-incident request whose route set is not empty returns
    the routes of the undelayed build with the delay added to the
    duration of the first route and of no other; the total duration is
    the sum of the undelayed durations plus the delay. *)
Theorem C3_delay_on_first_route (e : Env) (o : Run) (req : RerouteReq)
    (depot : Location) :
  let delay := appliedDelay (analyzeIncidentImpact (gemini e)) in
  let undelayed :=
    runORToolsOptimization e
      (populate_vehicles e (vehicles o)) (populate_locations e (locations o))
      depot 1 (default default_departure (departureTime o))
      (finalIncidentLocation o req) 0 in
  findDepot (populate_locations e (locations o)) = Some depot ->
  undelayed <> [] ->
  exists o1 : Run,
    rerouteOptimization e (Some o) req = Json o1 /\
    routes o1 = Spec.delayFirst delay undelayed /\
    map duration (routes o1) =
      match map duration undelayed with
      | [] => []
      | first :: others => (first + delay)%Q :: others
      end /\
    (totalDuration o1 == Spec.total (map duration undelayed) + delay)%Q.
Proof.
  intros delay undelayed Hd Hne.
  assert (Hpos : (0 < delay)%Q).
  { pose proof (appliedDelay_range (gemini e)). unfold delay. lra. }
  unfold rerouteOptimization. rewrite Hd.
  eexists. split; [reflexivity|]. simpl.
  fold delay. rewrite (run_delay _ _ _ _ _ _ _ delay Hpos). fold undelayed.
  split; [reflexivity|].
  split; [apply delayFirst_durations|].
  rewrite sumDuration_total. apply total_delayFirst. exact Hne.
Qed.

Lemma C3_delay_on_first_route_witness :
  exists o1 : Run,
    rerouteOptimization Fixture.env (Some Fixture.createdRun) (Fixture.accident 0)
      = Json o1 /\
    routes o1 =
      Spec.delayFirst (appliedDelay (analyzeIncidentImpact (gemini Fixture.env)))
        (runORToolsOptimization Fixture.env [Fixture.V]
           [Fixture.D; Fixture.A; Fixture.B] Fixture.D 1 default_departure
           (finalIncidentLocation Fixture.createdRun (Fixture.accident 0)) 0) /\
    map duration (routes o1) = [(35 + 60)%Q; 47%Q] /\
    (totalDuration o1 == (35 + (47 + 0)) + 60)%Q.
Proof.
  apply (C3_delay_on_first_route Fixture.env Fixture.createdRun (Fixture.accident 0)
           Fixture.D).
  - reflexivity.
  - vm_compute. discriminate.
Defined.

(** ** Capacity *)

Lemma total_app (l1 l2 : list Q) :
  (Spec.total (l1 ++ l2) == Spec.total l1 + Spec.total l2)%Q.
Proof.
  induction l1 as [|x l1 IH]; simpl; [lra|]. rewrite IH. lra.
Qed.

Lemma fits_snoc (cap : Q) (ds : list Q) (x : Q) :
  Spec.fits cap ds ->
  (x <= cap - Spec.total ds)%Q ->
  Spec.fits cap (ds ++ [x]).
Proof.
  intros Hfits Hx k y Hk.
  destruct (decide (k < List.length ds)%nat) as [Hlt|Hge].
  - rewrite lookup_app_l in Hk by exact Hlt.
    rewrite take_app_le by lia. apply Hfits. exact Hk.
  - rewrite lookup_app_r in Hk by lia.
    destruct (k - List.length ds)%nat eqn:E; [|destruct n; discriminate].
    simpl in Hk. injection Hk as <-.
    assert (k = List.length ds) as -> by lia.
    rewrite take_app_length. exact Hx.
Qed.

Section Capacity.
Variable geometryService : list Stop -> option Point -> option Coordinates.
Variables (distanceMx durationMx : list (list Q)) (realRoadData : bool).
Variables (locs : list Location) (depot : Location).
Variable trafficMultiplier : Q.
Variable departure : DepartureTime.
Variable incidentLoc : option Point.
Variable fixedDelayMinutes : Q.

Lemma consider_eligible (assigned : gset string) (remaining : Q) (cur : nat)
    (acc : Best) (loc : Location) :
  loc ∈ nonDepot locs depot ->
  (forall d b i, acc = Some (d, b, i) -> eligible locs depot assigned remaining b i) ->
  forall d b i,
    consider distanceMx locs assigned remaining cur acc loc = Some (d, b, i) ->
    eligible locs depot assigned remaining b i.
Proof.
  intros Hin Hacc d b i. unfold consider, toId.
  destruct (decide (loc_id loc ∈ assigned)) as [|Hfree]; [apply Hacc|].
  destruct (Qlt_le_dec remaining (or_num (loc_demand loc) 0)) as [|Hfit];
    [apply Hacc|].
  destruct (locationIndexMap locs !! loc_id loc) as [idx|] eqn:Hidx; [|apply Hacc].
  destruct acc as [[[bestD best0] idx0]|].
  - destruct (Qlt_le_dec _ bestD); [|apply Hacc].
    intros [= _ <- <-]. repeat split; assumption.
  - intros [= _ <- <-]. repeat split; assumption.
Qed.

Lemma findNearest_eligible (assigned : gset string) (remaining : Q) (cur : nat)
    (d : Q) (b : Location) (i : nat) :
  findNearest distanceMx locs depot assigned remaining cur = Some (d, b, i) ->
  eligible locs depot assigned remaining b i.
Proof.
  unfold findNearest.
  assert (Hgen : forall (l : list Location) (acc : Best),
             (forall x, x ∈ l -> x ∈ nonDepot locs depot) ->
             (forall d b i, acc = Some (d, b, i) -> eligible locs depot assigned remaining b i) ->
             forall d b i,
               foldl (consider distanceMx locs assigned remaining cur) acc l
                 = Some (d, b, i) ->
               eligible locs depot assigned remaining b i).
  { induction l as [|x l IH]; intros acc Hsub Hacc d0 b0 i0; simpl.
    - apply Hacc.
    - apply IH.
      + intros y Hy. apply Hsub. right. exact Hy.
      + apply consider_eligible; [apply Hsub; left|exact Hacc]. }
  apply Hgen; [auto|discriminate].
Qed.

Lemma startFill_inv (vs : VehicleSlot) (assigned : gset string) :
  fillInv depot vs (startFill locs depot vs assigned).
Proof.
  exists (depotStop depot 0 (Some 0%Z) (Some "8:00 AM")), [].
  simpl. repeat split; try reflexivity.
  - constructor.
  - lra.
  - intros k x Hk. destruct k; discriminate.
  - congruence.
Qed.

Lemma fill_inv (vs : VehicleSlot) (fuel : nat) :
  forall st : Fill,
    fillInv depot vs st -> fillInv depot vs (fill distanceMx locs depot fuel st).
Proof.
  induction fuel as [|fuel IH]; intros st Hinv; simpl; [exact Hinv|].
  destruct (findNearest _ _ _ _ _ _) as [[[d best] idx]|] eqn:Hbest; [|exact Hinv].
  apply findNearest_eligible in Hbest as (Hin & _ & Hfit & _).
  apply IH.
  destruct Hinv as (first & visits & Hstops & Hfirst & Hids & Hrem & Hfits & _).
  exists first, (visits ++ [visitStop best (f_order st)]). simpl.
  split; [rewrite Hstops; reflexivity|].
  split; [exact Hfirst|].
  split.
  { apply Forall_app. split; [exact Hids|]. constructor; [|constructor].
    simpl. apply list_elem_of_filter in Hin as [Hne _]. exact Hne. }
  rewrite map_app. simpl.
  split; [rewrite total_app, Hrem; simpl; lra|].
  split; [apply fits_snoc; [exact Hfits|rewrite <- Hrem; exact Hfit]|].
  intros _. lra.
Qed.

Lemma annotate_fields (len : nat) (rest : list Stop) :
  forall (i : nat) (prev : option Stop) (cd ct : Q),
    let out :=
      fst (fst (annotate distanceMx durationMx locs trafficMultiplier departure
                  len i prev cd ct rest)) in
    map locationId out = map locationId rest /\
    map demand out = map demand rest.
Proof.
  induction rest as [|s rest IH]; intros i prev cd ct; simpl; [auto|].
  match goal with
  | |- context [annotate _ _ _ _ _ len (S i) ?p ?a ?b rest] =>
      specialize (IH (S i) p a b);
      destruct (annotate distanceMx durationMx locs trafficMultiplier departure
                  len (S i) p a b rest) as [[out cd'] ct']
  end.
  simpl in *. destruct IH as [-> ->]. auto.
Qed.

Lemma filter_demands (l l' : list Stop) :
  map locationId l = map locationId l' ->
  map demand l = map demand l' ->
  map demand (filter (fun s => locationId s ≠ loc_id depot) l)
    = map demand (filter (fun s => locationId s ≠ loc_id depot) l').
Proof.
  revert l'. induction l as [|x l IH]; intros [|y l']; simpl; try discriminate.
  - reflexivity.
  - intros [= Hid Hids] [= Hdem Hdems].
    rewrite !filter_cons. rewrite Hid.
    destruct (decide (locationId y ≠ loc_id depot)); simpl;
      rewrite (IH l' Hids Hdems); congruence.
Qed.

Lemma filter_keeps (l : list Stop) :
  Forall (fun s => locationId s ≠ loc_id depot) l ->
  filter (fun s => locationId s ≠ loc_id depot) l = l.
Proof.
  induction 1 as [|x l Hx _ IH]; [reflexivity|].
  rewrite filter_cons. destruct (decide _); [|contradiction]. rewrite IH. reflexivity.
Qed.

Lemma closeRoute_within (vs : VehicleSlot) (st : Fill) (routes : list Route)
    (r : Route) :
  fillInv depot vs st ->
  r ∈ closeRoute geometryService distanceMx durationMx realRoadData locs depot
        trafficMultiplier departure incidentLoc fixedDelayMinutes vs st routes ->
  r ∈ routes \/
  (vehicle r = vs_id vs /\ vehicleName r = vs_name vs /\
   Spec.withinCapacity depot (capacity vs) r).
Proof.
  intros (first & visits & Hstops & Hfirst & Hids & Hrem & Hfits & Hpos).
  unfold closeRoute.
  destruct (1 <? List.length (f_stops st))%nat eqn:Hlen; [|auto].
  pose proof (annotate_fields
                (List.length (f_stops st ++ [depotStop depot (f_order st) None None]))
                (f_stops st ++ [depotStop depot (f_order st) None None])
                0 None 0 0) as Hann.
  destruct (annotate _ _ _ _ _ _ _ _ _ _ _) as [[annotated cd] ct].
  simpl in Hann. destruct Hann as [Hann_id Hann_dem].
  intros Hin. apply elem_of_app in Hin as [Hin|Hin]; [auto|right].
  apply list_elem_of_singleton in Hin. subst r. simpl.
  split; [reflexivity|]. split; [reflexivity|].
  assert (Hds : Spec.demands depot
                  {| vehicle := vs_id vs; vehicleName := vs_name vs;
                     stops := annotated; distance := cd;
                     duration :=
                       if (if Qlt_le_dec 0 fixedDelayMinutes then true else false)
                          && (List.length routes =? 0)%nat
                       then (inject_Z (round ct) + fixedDelayMinutes)%Q
                       else inject_Z (round ct);
                     totalCapacity := (capacity vs - f_remaining st)%Q;
                     geometry := geometryService annotated incidentLoc;
                     usingRealRoadData := realRoadData |}
                = map demand visits).
  { unfold Spec.demands, Spec.nonDepotStops. simpl.
    rewrite (filter_demands _ _ Hann_id Hann_dem).
    rewrite Hstops. simpl.
    rewrite filter_cons. destruct (decide _) as [Hne|_]; [contradiction|].
    rewrite filter_app, (filter_keeps _ Hids).
    rewrite filter_cons. simpl. destruct (decide _) as [Hne|_]; [contradiction|].
    rewrite filter_nil, app_nil_r. reflexivity. }
  assert (Hne : visits <> []).
  { rewrite Hstops in Hlen. destruct visits; [discriminate|congruence]. }
  specialize (Hpos Hne).
  unfold Spec.withinCapacity. rewrite Hds. simpl.
  split; [lra|]. split; [lra|exact Hfits].
Qed.

Lemma slotsLoop_within (slots : list VehicleSlot) :
  forall (routes : list Route) (assigned : gset string) (r : Route),
    r ∈ slotsLoop geometryService distanceMx durationMx realRoadData locs depot
          trafficMultiplier departure incidentLoc fixedDelayMinutes
          slots routes assigned ->
    r ∈ routes \/
    exists vs : VehicleSlot,
      vs ∈ slots /\ vehicle r = vs_id vs /\ vehicleName r = vs_name vs /\
      Spec.withinCapacity depot (capacity vs) r.
Proof.
  induction slots as [|vs rest IH]; intros routes assigned r; simpl; [auto|].
  assert (Hclose : forall r0,
             r0 ∈ closeRoute geometryService distanceMx durationMx realRoadData
                    locs depot trafficMultiplier departure incidentLoc
                    fixedDelayMinutes vs
                    (fill distanceMx locs depot (List.length (nonDepot locs depot))
                       (startFill locs depot vs assigned)) routes ->
             r0 ∈ routes \/
             exists vs0 : VehicleSlot,
               vs0 ∈ vs :: rest /\ vehicle r0 = vs_id vs0 /\
               vehicleName r0 = vs_name vs0 /\
               Spec.withinCapacity depot (capacity vs0) r0).
  { intros r0 Hr0.
    apply closeRoute_within in Hr0 as [Hold|Hnew];
      [auto| |apply fill_inv, startFill_inv].
    right. exists vs. split; [left|exact Hnew]. }
  destruct (decide _); [apply Hclose|].
  intros Hin. apply IH in Hin as [Hin|(vs0 & Hvs0 & Hrest)].
  - apply Hclose. exact Hin.
  - right. exists vs0. split; [right; exact Hvs0|exact Hrest].
Qed.

End Capacity.

(** *** The fuel of the [while] loop is enough *)

Lemma filter_shrinks (assigned : gset string) (b : Location) (l : list Location) :
  b ∈ l -> loc_id b ∉ assigned ->
  (List.length (filter (fun x => loc_id x ∉ {[loc_id b]} ∪ assigned) l)
   < List.length (filter (fun x => loc_id x ∉ assigned) l))%nat.
Proof.
  intros Hin Hfree.
  assert (Hle : forall l0 : list Location,
             (List.length (filter (fun x => loc_id x ∉ {[loc_id b]} ∪ assigned) l0)
              <= List.length (filter (fun x => loc_id x ∉ assigned) l0))%nat).
  { induction l0 as [|x l0 IH]; [reflexivity|].
    rewrite !filter_cons.
    destruct (decide (loc_id x ∉ {[loc_id b]} ∪ assigned)) as [Hx|Hx];
      destruct (decide (loc_id x ∉ assigned)) as [Hy|Hy]; simpl; try lia.
    exfalso. apply Hx. set_solver. }
  induction l as [|x l IH]; [apply elem_of_nil in Hin; contradiction|].
  rewrite !filter_cons.
  apply elem_of_cons in Hin as [<-|Hin].
  - destruct (decide (loc_id b ∉ {[loc_id b]} ∪ assigned)) as [Hx|_];
      [exfalso; apply Hx; set_solver|].
    destruct (decide (loc_id b ∉ assigned)); [|contradiction].
    simpl. specialize (Hle l). lia.
  - specialize (IH Hin).
    destruct (decide (loc_id x ∉ {[loc_id b]} ∪ assigned)) as [Hx|Hx];
      destruct (decide (loc_id x ∉ assigned)) as [Hy|Hy]; simpl; try lia.
    exfalso. apply Hx. set_solver.
Qed.

(** With as many passes as [nonDepot] has entries, the loop has ended
    because the search found nothing, not because the passes ran out. *)
Lemma fill_complete (distanceMx : list (list Q)) (locs : list Location)
    (depot : Location) (fuel : nat) :
  forall st : Fill,
    (List.length (unassigned locs depot (f_assigned st)) <= fuel)%nat ->
    let final := fill distanceMx locs depot fuel st in
    findNearest distanceMx locs depot
      (f_assigned final) (f_remaining final) (f_current final) = None.
Proof.
  induction fuel as [|fuel IH]; intros st Hfuel; simpl.
  - destruct (findNearest _ _ _ _ _ _) as [[[d b] i]|] eqn:Hbest; [|reflexivity].
    apply findNearest_eligible in Hbest as (Hin & Hfree & _).
    pose proof (filter_shrinks (f_assigned st) b _ Hin Hfree) as Hlt.
    unfold unassigned in Hfuel. lia.
  - destruct (findNearest distanceMx locs depot (f_assigned st) (f_remaining st)
                (f_current st)) as [[[d b] i]|] eqn:Hbest; [|exact Hbest].
    apply IH. simpl.
    apply findNearest_eligible in Hbest as (Hin & Hfree & _).
    pose proof (filter_shrinks (f_assigned st) b _ Hin Hfree) as Hlt.
    unfold unassigned in *. unfold toId. lia.
Qed.

Lemma fill_enough (distanceMx : list (list Q)) (locs : list Location)
    (depot : Location) (vs : VehicleSlot) (assigned : gset string) :
  let final :=
    fill distanceMx locs depot (List.length (nonDepot locs depot))
      (startFill locs depot vs assigned) in
  findNearest distanceMx locs depot
    (f_assigned final) (f_remaining final) (f_current final) = None.
Proof.
  apply fill_complete. simpl. unfold unassigned. apply length_filter.
Qed.

Lemma expandVehicles_elem (vehicles : list Vehicle) (vs : VehicleSlot) :
  vs ∈ expandVehicles vehicles ->
  exists v : Vehicle,
    v ∈ vehicles /\ vs_id vs = veh_id v /\ vs_name vs = veh_name v /\
    capacity vs = or_num (veh_capacity v) 0.
Proof.
  unfold expandVehicles. rewrite list_elem_of_In, in_flat_map.
  intros (v & Hv & Hin). exists v.
  apply list_elem_of_In in Hv, Hin.
  apply elem_of_replicate_inv in Hin. subst vs. simpl. auto.
Qed.



(** ** Timing of the stops *)

(** The decimal rendering of [toString] and [padStart] is the one of the
    clock: checked for every hour and every minute. *)
Lemma below_cases (P : Z -> Prop) (n : nat) :
  (forall k : nat, In k (seq 0 n) -> P (Z.of_nat k)) ->
  forall z : Z, 0 <= z < Z.of_nat n -> P z.
Proof.
  intros H z Hz. rewrite <- (Z2Nat.id z) by lia.
  apply H. apply in_seq. lia.
Qed.

Lemma hourText_toString (h : Z) :
  1 <= h <= 12 -> toString h = Spec.hourText h.
Proof.
  intros Hh. apply (below_cases (fun z => toString z = Spec.hourText z) 13); [|lia].
  intros k Hk. apply String.eqb_eq. revert k Hk. apply forallb_forall.
  vm_compute. reflexivity.
Qed.

Lemma twoDigits_padStart2 (m : Z) :
  0 <= m < 60 -> padStart2 (toString m) = Spec.twoDigits m.
Proof.
  intros Hm.
  apply (below_cases (fun z => padStart2 (toString z) = Spec.twoDigits z) 60);
    [|lia].
  intros k Hk. apply String.eqb_eq. revert k Hk. apply forallb_forall.
  vm_compute. reflexivity.
Qed.

Lemma formatEta_clock12 (dep : DepartureTime) (cumulativeTime : Q) :
  (0 <= startHour dep * 60 + startMinute dep + round cumulativeTime)%Z ->
  formatEta dep cumulativeTime
    = Spec.clock12 (startHour dep * 60 + startMinute dep + round cumulativeTime).
Proof.
  intros Hnn. unfold formatEta, Spec.clock12, rem, floordiv.
  set (m := (startHour dep * 60 + startMinute dep + round cumulativeTime)%Z) in *.
  assert (Hh : Z.rem (m / 60) 24 = (m mod 1440) / 60).
  { rewrite Z.rem_mod_nonneg by (try apply Z.div_pos; lia).
    Z.to_euclidean_division_equations. lia. }
  assert (Hm : Z.rem m 60 = (m mod 1440) mod 60).
  { rewrite Z.rem_mod_nonneg by lia.
    Z.to_euclidean_division_equations. lia. }
  rewrite Hh, Hm.
  set (h := (m mod 1440) / 60).
  assert (Hrange : 0 <= h < 24) by (unfold h; Z.to_euclidean_division_equations; lia).
  assert (Hd : (if h >? 12 then h - 12 else if h =? 0 then 12 else h)
               = (if h mod 12 =? 0 then 12 else h mod 12)).
  { destruct (Z.gtb_spec h 12), (Z.eqb_spec h 0), (Z.eqb_spec (h mod 12) 0);
      Z.to_euclidean_division_equations; lia. }
  assert (Ha : (if h >=? 12 then "PM" else "AM") = (if h <? 12 then "AM" else "PM")).
  { destruct (Z.geb_spec h 12), (Z.ltb_spec h 12); (reflexivity || lia). }
  rewrite Hd, Ha.
  rewrite hourText_toString, twoDigits_padStart2; [reflexivity| |].
  - Z.to_euclidean_division_equations; lia.
  - destruct (Z.eqb_spec (h mod 12) 0); Z.to_euclidean_division_equations; lia.
Qed.

Lemma round_nonneg (x : Q) : (0 <= x)%Q -> (0 <= round x)%Z.
Proof.
  intros Hx. unfold round.
  change 0%Z with (Qfloor 0). apply Qfloor_resp_le. lra.
Qed.

Lemma at2_nonneg (m : list (list Q)) (i j : nat) :
  Forall (Forall (fun x => (0 <= x)%Q)) m -> (0 <= at2 m i j)%Q.
Proof.
  intros Hm. unfold at2.
  destruct (m !! i) as [row|] eqn:Hrow; [|lra].
  destruct (row !! j) as [x|] eqn:Hx; simpl; [|lra].
  apply (Forall_lookup_1 _ _ _ _ Hm) in Hrow.
  apply (Forall_lookup_1 _ _ _ _ Hrow Hx).
Qed.

Lemma adjusted_nonneg (durationMx : list (list Q)) (mult : Q) :
  Forall (Forall (fun x => (0 <= x)%Q)) durationMx -> (0 <= mult)%Q ->
  Forall (Forall (fun x => (0 <= x)%Q)) (adjustedDurationMatrix durationMx mult).
Proof.
  intros Hm Hmult. unfold adjustedDurationMatrix.
  apply Forall_forall. intros row Hrow.
  apply list_elem_of_In, in_map_iff in Hrow as (row0 & <- & Hrow0).
  apply Forall_forall. intros x Hx.
  apply list_elem_of_In, in_map_iff in Hx as (x0 & <- & Hx0).
  apply list_elem_of_In in Hrow0, Hx0.
  rewrite Forall_forall in Hm. specialize (Hm _ Hrow0).
  rewrite Forall_forall in Hm. specialize (Hm _ Hx0).
  apply Qmult_le_0_compat; assumption.
Qed.

Section Timing.
Variables (distanceMx durationMx : list (list Q)).
Variable locs : list Location.
Variable trafficMultiplier : Q.
Variable departure : DepartureTime.

Let adjusted := adjustedDurationMatrix durationMx trafficMultiplier.
Let cm (ids : list string) (k : nat) := Spec.cumulativeMinutes adjusted locs ids k.

Lemma legTime_spec (l : list Stop) (i : nat) (p c : Stop) :
  l !! i = Some p -> l !! S i = Some c ->
  legTime durationMx locs trafficMultiplier (List.length l) (S i) p c
    = Spec.durationFromPrev adjusted locs (map locationId l) (S i).
Proof.
  intros Hp Hc. unfold legTime, Spec.durationFromPrev.
  change (map locationId l) with (locationId <$> l).
  rewrite length_fmap, !list_lookup_fmap.
  replace (S i - 1)%nat with i by lia. rewrite Hp, Hc.
  apply lookup_lt_Some in Hc.
  destruct (Nat.ltb_spec (S i) (List.length l - 1)),
           (Nat.eqb_spec (S i) (List.length l - 1)); try lia; reflexivity.
Qed.

Lemma cumulativeMinutes_step (ids : list string) (i : nat) :
  cm ids (S i) = (cm ids i + Spec.durationFromPrev adjusted locs ids (S i))%Q.
Proof.
  unfold cm, Spec.cumulativeMinutes.
  rewrite seq_S, foldl_app. reflexivity.
Qed.

Lemma cumulativeMinutes_nonneg (ids : list string) (i : nat) :
  Forall (Forall (fun x => (0 <= x)%Q)) durationMx ->
  (0 <= trafficMultiplier)%Q ->
  (0 <= cm ids i)%Q.
Proof.
  intros Hm Hmult.
  induction i as [|i IH]; [unfold cm, Spec.cumulativeMinutes; simpl; lra|].
  rewrite cumulativeMinutes_step.
  assert (0 <= Spec.durationFromPrev adjusted locs ids (S i))%Q; [|lra].
  unfold Spec.durationFromPrev.
  destruct (ids !! (S i - 1)%nat); [|lra].
  destruct (ids !! S i); [|lra].
  pose proof (at2_nonneg adjusted (Spec.position locs s) (Spec.position locs s0)
                (adjusted_nonneg _ _ Hm Hmult)) as Hnn.
  unfold SERVICE_TIME_MINUTES.
  destruct (_ =? _)%nat; lra.
Qed.

(** The loop over the stops: stop [i] gets the rounded cumulative time
    of the specification and the clock string for it. *)
Lemma annotate_times (l : list Stop) :
  forall (rest pre : list Stop) (i : nat) (prev : option Stop) (cd ct : Q),
    l = pre ++ rest ->
    i = List.length pre ->
    prev = last pre ->
    ct = cm (map locationId l) (i - 1) ->
    forall (j : nat) (s : Stop),
      fst (fst (annotate distanceMx durationMx locs trafficMultiplier departure
                  (List.length l) i prev cd ct rest)) !! j = Some s ->
      arrivalTime s = Some (round (cm (map locationId l) (i + j))) /\
      eta s = Some (formatEta departure (cm (map locationId l) (i + j))).
Proof.
  induction rest as [|s0 rest IH]; intros pre i prev cd ct Hl Hi Hprev Hct j s;
    simpl; [discriminate|].
  match goal with
  | |- context [annotate _ _ _ _ _ _ (S i) (Some s0) ?a ?b rest] =>
      set (cd' := a); set (ct' := b)
  end.
  assert (Hct' : ct' = cm (map locationId l) i).
  { unfold ct'. destruct pre as [|x pre0] using rev_ind.
    - simpl in Hprev, Hi. subst prev i. exact Hct.
    - rewrite last_snoc in Hprev. subst prev.
      rewrite length_app in Hi. simpl in Hi.
      assert (Hi' : i = S (List.length pre0)) by lia.
      rewrite Hi' in *. replace (S (List.length pre0) - 1)%nat
        with (List.length pre0) in Hct by lia.
      rewrite cumulativeMinutes_step, <- Hct.
      rewrite <- legTime_spec with (p := x) (c := s0); [reflexivity| |].
      + rewrite Hl, <- app_assoc. apply list_lookup_middle. reflexivity.
      + rewrite Hl. replace (S (List.length pre0)) with (List.length (pre0 ++ [x]))
          by (rewrite length_app; simpl; lia).
        apply list_lookup_middle. reflexivity. }
  specialize (IH (pre ++ [s0]) (S i) (Some s0) cd' ct').
  destruct (annotate distanceMx durationMx locs trafficMultiplier departure
              (List.length l) (S i) (Some s0) cd' ct' rest) as [[out cdo] cto].
  simpl in *. destruct j as [|j]; simpl.
  - intros [= <-]. simpl. rewrite Nat.add_0_r, Hct'. auto.
  - intros Hj. replace (i + S j)%nat with (S i + j)%nat by lia.
    apply IH; try assumption.
    + rewrite <- app_assoc. exact Hl.
    + rewrite length_app. simpl. lia.
    + rewrite last_snoc. reflexivity.
    + rewrite Nat.sub_0_r. exact Hct'.
Qed.

Lemma annotate_first (len : nat) (cd ct : Q) (rest : list Stop) (s : Stop) :
  fst (fst (annotate distanceMx durationMx locs trafficMultiplier departure
              len 0 None cd ct rest)) !! 0%nat = Some s ->
  cumulativeDistance s = toFixed2 cd /\ distanceFromPrev s = toFixed2 0.
Proof.
  destruct rest as [|s0 rest]; simpl; [discriminate|].
  destruct (annotate _ _ _ _ _ _ _ _ _ _ _) as [[out cdo] cto]. simpl.
  intros [= <-]. simpl. auto.
Qed.

End Timing.

Section TimedRoutes.
Variable geometryService : list Stop -> option Point -> option Coordinates.
Variables (distanceMx durationMx : list (list Q)) (realRoadData : bool).
Variables (locs : list Location) (depot : Location).
Variable trafficMultiplier : Q.
Variable departure : DepartureTime.
Variable incidentLoc : option Point.
Variable fixedDelayMinutes : Q.

Lemma closeRoute_timed (vs : VehicleSlot) (st : Fill) (routes : list Route)
    (r : Route) :
  r ∈ closeRoute geometryService distanceMx durationMx realRoadData locs depot
        trafficMultiplier departure incidentLoc fixedDelayMinutes vs st routes ->
  r ∈ routes \/ timed durationMx locs trafficMultiplier departure r.
Proof.
  unfold closeRoute.
  destruct (1 <? List.length (f_stops st))%nat; [|auto].
  set (raw := f_stops st ++ [depotStop depot (f_order st) None None]).
  pose proof (annotate_fields distanceMx durationMx locs trafficMultiplier
                departure (List.length raw) raw 0 None 0 0) as [Hids _].
  pose proof (annotate_times distanceMx durationMx locs trafficMultiplier
                departure raw raw [] 0 None 0 0 eq_refl eq_refl eq_refl eq_refl)
    as Htimes.
  pose proof (annotate_first distanceMx durationMx locs trafficMultiplier
                departure (List.length raw) 0 0 raw) as Hfirst.
  destruct (annotate _ _ _ _ _ _ _ _ _ _ _) as [[annotated cd] ct].
  simpl in Hids, Htimes, Hfirst.
  intros Hin. apply elem_of_app in Hin as [Hin|Hin]; [auto|right].
  apply list_elem_of_singleton in Hin. subst r.
  unfold timed. simpl. rewrite Hids. split.
  - intros s Hs. apply Hfirst. exact Hs.
  - exact Htimes.
Qed.

Lemma slotsLoop_routes (P : Route -> Prop) :
  (forall (vs : VehicleSlot) (st : Fill) (routes : list Route) (r : Route),
     r ∈ closeRoute geometryService distanceMx durationMx realRoadData locs
           depot trafficMultiplier departure incidentLoc fixedDelayMinutes
           vs st routes ->
     r ∈ routes \/ P r) ->
  forall (slots : list VehicleSlot) (routes : list Route)
         (assigned : gset string) (r : Route),
    r ∈ slotsLoop geometryService distanceMx durationMx realRoadData locs depot
          trafficMultiplier departure incidentLoc fixedDelayMinutes
          slots routes assigned ->
    r ∈ routes \/ P r.
Proof.
  intros Hclose.
  induction slots as [|vs rest IH]; intros routes assigned r; simpl; [auto|].
  destruct (decide _); [apply Hclose|].
  intros Hin. apply IH in Hin as [Hin|Hin]; [|auto].
  apply Hclose in Hin. exact Hin.
Qed.

End TimedRoutes.

(** ** The index of the locations *)

Lemma indexFrom_lookup (locs : list Location) :
  forall (idx : nat) (m : gmap string nat) (id : string) (i : nat),
    indexFrom idx locs m !! id = Some i ->
    (m !! id = Some i /\ forall loc, loc ∈ locs -> loc_id loc ≠ id) \/
    (exists loc : Location,
       (idx <= i)%nat /\ locs !! (i - idx)%nat = Some loc /\ loc_id loc = id /\
       forall (k : nat) (later : Location),
         (i - idx < k)%nat -> locs !! k = Some later -> loc_id later ≠ id).
Proof.
  induction locs as [|loc0 rest IH]; intros idx m id i; simpl.
  - intros H. left. split; [exact H|]. intros loc Hloc.
    apply elem_of_nil in Hloc. contradiction.
  - intros H. apply IH in H as [[Hm Hrest]|(loc & Hle & Hk & Hid & Hlater)].
    + unfold toId in Hm. destruct (decide (loc_id loc0 = id)) as [Heq|Hne].
      * rewrite Heq, lookup_insert_eq in Hm. injection Hm as <-.
        right. exists loc0. rewrite Nat.sub_diag.
        split; [lia|]. split; [reflexivity|]. split; [exact Heq|].
        intros k later Hk Hl. destruct k as [|k]; [lia|]. simpl in Hl.
        apply Hrest. eapply list_elem_of_lookup_2. exact Hl.
      * rewrite lookup_insert_ne in Hm by exact Hne.
        left. split; [exact Hm|]. intros loc Hloc.
        apply elem_of_cons in Hloc as [->|Hloc]; [exact Hne|auto].
    + right. exists loc. split; [lia|].
      replace (i - idx)%nat with (S (i - S idx)) by lia. simpl.
      split; [exact Hk|]. split; [exact Hid|].
      intros k later Hlt Hl. destruct k as [|k]; [lia|]. simpl in Hl.
      apply (Hlater k later); [lia|exact Hl].
Qed.

Lemma indexFrom_is_Some (locs : list Location) :
  forall (idx : nat) (m : gmap string nat) (id : string),
    is_Some (m !! id) \/ (exists loc, loc ∈ locs /\ loc_id loc = id) ->
    is_Some (indexFrom idx locs m !! id).
Proof.
  induction locs as [|loc0 rest IH]; intros idx m id; simpl.
  - intros [H|(loc & Hloc & _)]; [exact H|].
    apply elem_of_nil in Hloc. contradiction.
  - intros H. apply IH. unfold toId.
    destruct (decide (loc_id loc0 = id)) as [Heq|Hne].
    + left. rewrite Heq, lookup_insert_eq. eauto.
    + rewrite lookup_insert_ne by exact Hne.
      destruct H as [H|(loc & Hloc & Hid)]; [left; exact H|].
      apply elem_of_cons in Hloc as [->|Hloc]; [contradiction|].
      right. exists loc. auto.
Qed.

Lemma indexMap_lookup (locs : list Location) (id : string) :
  ((exists loc, loc ∈ locs /\ loc_id loc = id) ->
   exists (i : nat) (loc : Location),
     locationIndexMap locs !! id = Some i /\
     locs !! i = Some loc /\ loc_id loc = id /\
     forall (k : nat) (later : Location),
       (i < k)%nat -> locs !! k = Some later -> loc_id later ≠ id) /\
  ((forall loc, loc ∈ locs -> loc_id loc ≠ id) ->
   locationIndexMap locs !! id = None).
Proof.
  unfold locationIndexMap, buildIndexMap. split.
  - intros Hin.
    destruct (indexFrom_is_Some locs 0 ∅ id (or_intror Hin)) as [i Hi].
    destruct (indexFrom_lookup locs 0 ∅ id i Hi)
      as [[Hm _]|(loc & _ & Hk & Hid & Hlater)].
    + rewrite lookup_empty in Hm. discriminate.
    + rewrite Nat.sub_0_r in Hk, Hlater. exists i, loc. auto.
  - intros Hnone.
    destruct (indexFrom 0 locs ∅ !! id) as [i|] eqn:Hi; [|reflexivity].
    destruct (indexFrom_lookup locs 0 ∅ id i Hi)
      as [[Hm _]|(loc & _ & Hk & Hid & _)].
    + rewrite lookup_empty in Hm. discriminate.
    + apply list_elem_of_lookup_2 in Hk. destruct (Hnone loc Hk Hid).
Qed.

(** ** Timing of the stops on the numbers of the machine *)

Lemma round_nearestUp (x : Q) : Spec.nearestUp x (round x).
Proof.
  unfold Spec.nearestUp, round.
  pose proof (Qfloor_le (x + (1 # 2))) as Hle.
  pose proof (Qlt_floor (x + (1 # 2))) as Hlt.
  rewrite inject_Z_plus in Hlt. change (inject_Z 1) with 1%Q in Hlt.
  split; lra.
Qed.

Lemma listed_position (locs : list Location) (s : Stop) :
  Spec.listed locs s ->
  (Spec.position locs (locationId s) < List.length locs)%nat.
Proof.
  intros (loc & Hloc & Hid).
  destruct (proj1 (indexMap_lookup locs (locationId s)))
    as (i & x & Hi & Hx & _); [exists loc; auto|].
  unfold Spec.position. unfold locationIndexMap in Hi. rewrite Hi. simpl.
  apply lookup_lt_Some in Hx. exact Hx.
Qed.

Section MachineTiming.
Variable ar : Arith.
Variables (distanceMx durationMx : list (list Q)).
Variable locs : list Location.
Variable trafficMultiplier : Q.
Variable departure : DepartureTime.

Lemma annotateWith_ids (len : nat) (rest : list Stop) :
  forall (i : nat) (prev : option Stop) (cd ct : Q),
    map locationId
      (fst (fst (annotateWith ar distanceMx durationMx locs trafficMultiplier
                   departure len i prev cd ct rest)))
    = map locationId rest.
Proof.
  induction rest as [|s rest IH]; intros i prev cd ct; simpl; [reflexivity|].
  match goal with
  | |- context [annotateWith _ _ _ _ _ _ len (S i) ?p ?a ?b rest] =>
      specialize (IH (S i) p a b);
      destruct (annotateWith ar distanceMx durationMx locs trafficMultiplier
                  departure len (S i) p a b rest) as [[out cd'] ct']
  end.
  simpl in *. rewrite IH. reflexivity.
Qed.

(** An entry of the adjusted matrix is the entry of the duration matrix
    times the multiplier. *)
Lemma at2_adjustedWith (i j : nat) :
  Spec.square (List.length locs) durationMx ->
  (i < List.length locs)%nat -> (j < List.length locs)%nat ->
  at2 (adjustedWith ar durationMx trafficMultiplier) i j
  = m_mul ar (at2 durationMx i j) trafficMultiplier.
Proof.
  intros [Hrows Hcols] Hi Hj. unfold at2, adjustedWith.
  destruct (lookup_lt_is_Some_2 durationMx i) as [row Hrow]; [lia|].
  pose proof (Forall_lookup_1 _ _ _ _ Hcols Hrow) as Hlen. simpl in Hlen.
  destruct (lookup_lt_is_Some_2 row j) as [x Hx]; [lia|].
  change (map (map (fun duration => m_mul ar duration trafficMultiplier)) durationMx)
    with (map (fun duration => m_mul ar duration trafficMultiplier) <$> durationMx).
  rewrite list_lookup_fmap, Hrow. simpl.
  change (map (fun duration => m_mul ar duration trafficMultiplier) row)
    with ((fun duration => m_mul ar duration trafficMultiplier) <$> row).
  rewrite list_lookup_fmap, Hx. reflexivity.
Qed.

Lemma legTimeWith_spec (l : list Stop) (i : nat) (p c : Stop) :
  Spec.square (List.length locs) durationMx ->
  Spec.listed locs p -> Spec.listed locs c ->
  l !! i = Some p -> l !! S i = Some c ->
  legTimeWith ar durationMx locs trafficMultiplier (List.length l) (S i) p c
    = Spec.legMinutes ar durationMx trafficMultiplier locs
        (map locationId l) (S i).
Proof.
  intros Hsquare Hlp Hlc Hp Hc.
  unfold legTimeWith, Spec.legMinutes, Spec.travelMinutes.
  change (map locationId l) with (locationId <$> l).
  rewrite length_fmap, !list_lookup_fmap.
  replace (S i - 1)%nat with i by lia. rewrite Hp, Hc.
  change (indexOf locs p) with (Spec.position locs (locationId p)).
  change (indexOf locs c) with (Spec.position locs (locationId c)).
  rewrite at2_adjustedWith by (exact Hsquare || apply listed_position; assumption).
  apply lookup_lt_Some in Hc. unfold SERVICE_TIME_MINUTES.
  destruct (Nat.ltb_spec (S i) (List.length l - 1)),
           (Nat.eqb_spec (S i) (List.length l - 1)); try lia; reflexivity.
Qed.

Lemma minutesAt_step (ids : list string) (i : nat) :
  Spec.minutesAt ar durationMx trafficMultiplier locs ids (S i)
  = m_add ar (Spec.minutesAt ar durationMx trafficMultiplier locs ids i)
      (Spec.legMinutes ar durationMx trafficMultiplier locs ids (S i)).
Proof.
  unfold Spec.minutesAt. rewrite seq_S, foldl_app. reflexivity.
Qed.

Lemma minutesAt_nonneg (ids : list string) (i : nat) :
  Spec.keepsSign ar ->
  Forall (Forall (fun x => (0 <= x)%Q)) durationMx -> (0 <= trafficMultiplier)%Q ->
  (0 <= Spec.minutesAt ar durationMx trafficMultiplier locs ids i)%Q.
Proof.
  intros Hsign Hm Hmult.
  induction i as [|i IH]; [unfold Spec.minutesAt; simpl; lra|].
  rewrite minutesAt_step. apply (proj1 Hsign); [exact IH|].
  unfold Spec.legMinutes, Spec.travelMinutes.
  destruct (ids !! (S i - 1)%nat) as [p|]; [|lra].
  destruct (ids !! S i) as [c|]; [|lra].
  assert (Hnn : (0 <= m_mul ar (at2 durationMx (Spec.position locs p)
                                  (Spec.position locs c)) trafficMultiplier)%Q).
  { apply (proj2 Hsign); [apply at2_nonneg; exact Hm|exact Hmult]. }
  destruct (_ =? _)%nat; [exact Hnn|].
  apply (proj1 Hsign); [exact Hnn|lra].
Qed.

(** The loop over the stops: stop [i] gets the rounded cumulative time
    and the clock string for it. *)
Lemma annotateWith_times (l : list Stop) :
  Spec.square (List.length locs) durationMx ->
  Forall (Spec.listed locs) l ->
  let cm := Spec.minutesAt ar durationMx trafficMultiplier locs
              (map locationId l) in
  forall (rest pre : list Stop) (i : nat) (prev : option Stop) (cd ct : Q),
    l = pre ++ rest ->
    i = List.length pre ->
    prev = last pre ->
    ct = cm (i - 1)%nat ->
    forall (j : nat) (s : Stop),
      fst (fst (annotateWith ar distanceMx durationMx locs trafficMultiplier
                  departure (List.length l) i prev cd ct rest)) !! j = Some s ->
      arrivalTime s = Some (round (cm (i + j)%nat)) /\
      eta s = Some (formatEta departure (cm (i + j)%nat)).
Proof.
  intros Hsquare Hlisted cm.
  induction rest as [|s0 rest IH]; intros pre i prev cd ct Hl Hi Hprev Hct j s;
    simpl; [discriminate|].
  match goal with
  | |- context [annotateWith _ _ _ _ _ _ _ (S i) (Some s0) ?a ?b rest] =>
      set (cd' := a); set (ct' := b)
  end.
  assert (Hct' : ct' = cm i).
  { unfold ct'. destruct pre as [|x pre0] using rev_ind.
    - simpl in Hprev, Hi. subst prev i. exact Hct.
    - rewrite last_snoc in Hprev. subst prev.
      rewrite length_app in Hi. simpl in Hi.
      assert (Hi' : i = S (List.length pre0)) by lia.
      rewrite Hi' in *. replace (S (List.length pre0) - 1)%nat
        with (List.length pre0) in Hct by lia.
      assert (Hx : l !! List.length pre0 = Some x).
      { rewrite Hl, <- app_assoc. apply list_lookup_middle. reflexivity. }
      assert (Hs0 : l !! S (List.length pre0) = Some s0).
      { rewrite Hl. replace (S (List.length pre0)) with (List.length (pre0 ++ [x]))
          by (rewrite length_app; simpl; lia).
        apply list_lookup_middle. reflexivity. }
      unfold cm. rewrite minutesAt_step. fold cm. rewrite <- Hct.
      rewrite <- legTimeWith_spec with (p := x) (c := s0);
        [reflexivity|exact Hsquare| | |exact Hx|exact Hs0].
      + apply (Forall_lookup_1 _ _ _ _ Hlisted Hx).
      + apply (Forall_lookup_1 _ _ _ _ Hlisted Hs0). }
  specialize (IH (pre ++ [s0]) (S i) (Some s0) cd' ct').
  destruct (annotateWith ar distanceMx durationMx locs trafficMultiplier departure
              (List.length l) (S i) (Some s0) cd' ct' rest) as [[out cdo] cto].
  simpl in *. destruct j as [|j]; simpl.
  - intros [= <-]. simpl. rewrite Nat.add_0_r, Hct'. auto.
  - intros Hj. replace (i + S j)%nat with (S i + j)%nat by lia.
    apply IH; try assumption.
    + rewrite <- app_assoc. exact Hl.
    + rewrite length_app. simpl. lia.
    + rewrite last_snoc. reflexivity.
    + rewrite Nat.sub_0_r. exact Hct'.
Qed.

Lemma annotateWith_first (len : nat) (cd ct : Q) (rest : list Stop) (s : Stop) :
  fst (fst (annotateWith ar distanceMx durationMx locs trafficMultiplier departure
              len 0 None cd ct rest)) !! 0%nat = Some s ->
  cumulativeDistance s = toFixed2 cd /\ distanceFromPrev s = toFixed2 0.
Proof.
  destruct rest as [|s0 rest]; simpl; [discriminate|].
  destruct (annotateWith _ _ _ _ _ _ _ _ _ _ _ _) as [[out cdo] cto]. simpl.
  intros [= <-]. simpl. auto.
Qed.

End MachineTiming.

(** The builder's timing loop is the loop of the machine for the
    operations that do not round, and the stops of every route of the
    builder come out of it. *)
Lemma annotate_exact (distanceMx durationMx : list (list Q))
    (locs : list Location) (mult : Q) (dep : DepartureTime) (len : nat)
    (rest : list Stop) :
  forall (i : nat) (prev : option Stop) (cd ct : Q),
    annotate distanceMx durationMx locs mult dep len i prev cd ct rest
    = annotateWith exact distanceMx durationMx locs mult dep len i prev cd ct rest.
Proof.
  induction rest as [|s rest IH]; intros i prev cd ct; simpl; [reflexivity|].
  rewrite IH. reflexivity.
Qed.

Lemma built_stops_are_timed (e : Env) (vehicles : list Vehicle)
    (locs : list Location) (depot : Location) (mult : Q) (dep : DepartureTime)
    (il : option Point) (delay : Q) (r : Route) :
  r ∈ runORToolsOptimization e vehicles locs depot mult dep il delay ->
  exists rtStops : list Stop,
    stops r
    = fst (fst (annotateWith exact (distanceMatrix (matrices e locs))
                  (durationMatrix (matrices e locs)) locs mult dep
                  (List.length rtStops) 0 None 0 0 rtStops)).
Proof.
  unfold runORToolsOptimization. intros Hin.
  apply (slotsLoop_routes _ _ _ _ _ _ _ _ _ _
           (fun r =>
              exists rtStops : list Stop,
                stops r
                = fst (fst (annotateWith exact (distanceMatrix (matrices e locs))
                              (durationMatrix (matrices e locs)) locs mult dep
                              (List.length rtStops) 0 None 0 0 rtStops)))) in Hin.
  - destruct Hin as [Hin|Hin]; [apply elem_of_nil in Hin; contradiction|exact Hin].
  - intros vs st routes r0. unfold closeRoute.
    destruct (1 <? List.length (f_stops st))%nat; [|auto].
    set (raw := f_stops st ++ [depotStop depot (f_order st) None None]).
    rewrite annotate_exact.
    destruct (annotateWith _ _ _ _ _ _ _ _ _ _ _ _) as [[annotated cd] ct] eqn:Han.
    intros H. apply elem_of_app in H as [H|H]; [auto|right].
    apply list_elem_of_singleton in H. subst r0. simpl.
    exists raw. rewrite Han. reflexivity.
Qed.


Lemma halfEven_nonneg (q : Q) : (0 <= q)%Q -> 0 <= Doubles.halfEven q.
Proof.
  intros Hq. unfold Doubles.halfEven.
  assert (0 <= Qfloor q).
  { change 0 with (Qfloor 0). apply Qfloor_resp_le. exact Hq. }
  destruct (_ ?= _)%Q; [destruct (Z.even _)| |]; lia.
Qed.

Lemma nearest_nonneg (a : Q) : (0 <= a)%Q -> (0 <= Doubles.nearest a)%Q.
Proof.
  intros Ha. unfold Doubles.nearest.
  set (s := Doubles.ilog2 a - 52).
  assert (Hp : (0 < Qpower 2 s)%Q) by (apply Qpower_0_lt; reflexivity).
  apply Qmult_le_0_compat; [|lra].
  change 0%Q with (inject_Z 0). rewrite <- Zle_Qle.
  apply halfEven_nonneg. apply Qle_shift_div_l; [exact Hp|lra].
Qed.

Lemma fl_nonneg (x : Q) : (0 <= x)%Q -> (0 <= Doubles.fl x)%Q.
Proof.
  intros Hx. unfold Doubles.fl.
  destruct x as [[|p|p] d]; simpl.
  - lra.
  - apply nearest_nonneg. exact Hx.
  - unfold Qle in Hx. simpl in Hx. lia.
Qed.

Lemma binary64_keepsSign : Spec.keepsSign Doubles.binary64.
Proof.
  split; intros x y Hx Hy; simpl; apply fl_nonneg.
  - lra.
  - apply Qmult_le_0_compat; assumption.
Qed.


(** The sample of the doubles: 122 seconds, the service time and 28
    seconds come to 17.5 minutes without rounding, and to a little less
    on the doubles, so that the arrival at the last stop is 17, not
    18. *)
Example arrival_on_the_doubles :
  map arrivalTime (Doubles.timedOn Doubles.binary64 Doubles.minutesOf)
  = [Some 0; Some 17; Some 17] /\
  map eta (Doubles.timedOn Doubles.binary64 Doubles.minutesOf)
  = [Some "8:00 AM"; Some "8:17 AM"; Some "8:17 AM"] /\
  map arrivalTime (Doubles.timedOn exact Doubles.sixtieths)
  = [Some 0; Some 17; Some 18].
Proof. vm_compute. auto. Qed.

(** Ten minutes before midnight: the ETAs wrap to the next day. *)
Example eta_wraps_at_midnight :
  let late := {| startHour := 23; startMinute := 50 |} in
  map (formatEta late) [0; 9; 10; 30; 735]%Q
  = ["11:50 PM"; "11:59 PM"; "12:00 AM"; "12:20 AM"; "12:05 PM"].
Proof. reflexivity. Qed.

Example round_and_toFixed :
  round (5 # 2) = 3 /\ round (249 # 100) = 2 /\
  (toFixed2 (12345 # 1000) == 1235 # 100)%Q.
Proof. repeat split. Qed.

Example firstBuilt_times :
  map (fun s => (locationId s, arrivalTime s, eta s)) (stops Fixture.firstBuilt)
  = [("d", Some 0, Some "8:00 AM"); ("a", Some 25, Some "8:25 AM");
     ("d", Some 35, Some "8:35 AM")].
Proof. vm_compute. reflexivity. Qed.

(** ** The fallback matrix *)

Lemma calculateDistance_numbers (M : MathLib) (lat1 lon1 lat2 lon2 : Q) :
  calculateDistance M (CNum lat1) (CNum lon1) (CNum lat2) (CNum lon2)
    = (Spec.haversine M lat1 lon1 lat2 lon2, []).
Proof. reflexivity. Qed.

Lemma calculateDistance_invalid (M : MathLib) (lat1 lon1 lat2 lon2 : coord) :
  notNumber lat1 || notNumber lon1 || notNumber lat2 || notNumber lon2 = true ->
  calculateDistance M lat1 lon1 lat2 lon2
    = (0%Q, [InvalidCoordinates lat1 lon1 lat2 lon2]).
Proof. intros H. unfold calculateDistance. rewrite H. reflexivity. Qed.

Lemma located_or_not (l : Location) :
  Spec.located l \/ notNumber (loc_latitude l) || notNumber (loc_longitude l) = true.
Proof.
  unfold Spec.located.
  destruct (loc_latitude l) as [lat| |], (loc_longitude l) as [lon| |]; simpl; eauto.
Qed.

Lemma fallback_cells (M : MathLib) (locs : list Location) (i j : nat)
    (li lj : Location) :
  locs !! i = Some li -> locs !! j = Some lj ->
  let cell := fallbackCell M i j li lj in
  let out := calculateFallbackMatrix M locs in
  Spec.entry (distanceMatrix (fst out)) i j = Some (fst (fst cell)) /\
  Spec.entry (durationMatrix (fst out)) i j = Some (snd (fst cell)) /\
  (forall w : Warning, w ∈ snd cell -> w ∈ snd out).
Proof.
  intros Hi Hj cell out. unfold out, calculateFallbackMatrix, Spec.entry. simpl.
  set (cells := imap _ locs).
  assert (Hrow : cells !! i
                 = Some (imap (fun j0 lj0 => fallbackCell M i j0 li lj0) locs)).
  { unfold cells. rewrite list_lookup_imap, Hi. reflexivity. }
  assert (Hcell : imap (fun j0 lj0 => fallbackCell M i j0 li lj0) locs !! j
                  = Some cell).
  { rewrite list_lookup_imap, Hj. reflexivity. }
  change (map (map (fun c : Q * Q * list Warning => fst (fst c))) cells)
    with ((map (fun c : Q * Q * list Warning => fst (fst c))) <$> cells).
  change (map (map (fun c : Q * Q * list Warning => snd (fst c))) cells)
    with ((map (fun c : Q * Q * list Warning => snd (fst c))) <$> cells).
  rewrite !list_lookup_fmap, Hrow. simpl.
  change (map ?f ?l !! j) with ((f <$> l) !! j).
  rewrite !list_lookup_fmap, Hcell. simpl.
  split; [reflexivity|]. split; [reflexivity|].
  intros w Hw. apply list_elem_of_In, in_concat.
  exists (concat (map snd (imap (fun j0 lj0 => fallbackCell M i j0 li lj0) locs))).
  split.
  - apply in_map_iff. eexists. split; [reflexivity|].
    apply list_elem_of_In. eapply list_elem_of_lookup_2. exact Hrow.
  - apply in_concat. exists (snd cell). split; [|apply list_elem_of_In; exact Hw].
    apply in_map. apply list_elem_of_In. eapply list_elem_of_lookup_2. exact Hcell.
Qed.

(** C9: the fallback matrices have an entry for every ordered pair of
    locations, and the computation has no failing outcome; the diagonal
    is zero; off the diagonal, with numeric coordinates, the distance is
    the haversine distance (radius 6371 km) times the road factor 1.4 and
    the duration is that distance at 60 km/h in minutes; a pair with a
    coordinate that is not a number or is NaN gets distance and duration
    zero and a warning in the log. *)
Theorem C9_fallback_matrix (M : MathLib) (locs : list Location) (i j : nat)
    (li lj : Location) :
  locs !! i = Some li -> locs !! j = Some lj ->
  let out := calculateFallbackMatrix M locs in
  exists dist dur : Q,
    Spec.entry (distanceMatrix (fst out)) i j = Some dist /\
    Spec.entry (durationMatrix (fst out)) i j = Some dur /\
    md_success (fst out) = false /\
    (i = j -> dist = 0%Q /\ dur = 0%Q) /\
    (i <> j ->
     forall lat1 lon1 lat2 lon2 : Q,
       loc_latitude li = CNum lat1 -> loc_longitude li = CNum lon1 ->
       loc_latitude lj = CNum lat2 -> loc_longitude lj = CNum lon2 ->
       dist = (Spec.haversine M lat1 lon1 lat2 lon2 * (14 # 10))%Q /\
       dur = (dist / 60 * 60)%Q) /\
    (i <> j ->
     ~ (Spec.located li /\ Spec.located lj) ->
     (dist == 0)%Q /\ (dur == 0)%Q /\
     InvalidCoordinates (loc_latitude li) (loc_longitude li)
                        (loc_latitude lj) (loc_longitude lj) ∈ snd out).
Proof.
  intros Hi Hj out.
  destruct (fallback_cells M locs i j li lj Hi Hj) as (Hd & Ht & Hw).
  fold out in Hd, Ht, Hw.
  eexists. eexists. split; [exact Hd|]. split; [exact Ht|].
  split; [reflexivity|].
  unfold fallbackCell in *.
  split; [|split].
  - intros ->. rewrite Nat.eqb_refl. simpl. auto.
  - intros Hne lat1 lon1 lat2 lon2 H1 H2 H3 H4.
    destruct (Nat.eqb_spec i j); [contradiction|].
    rewrite H1, H2, H3, H4, calculateDistance_numbers. simpl. auto.
  - intros Hne Hbad.
    destruct (Nat.eqb_spec i j); [contradiction|].
    assert (Hinv : notNumber (loc_latitude li) || notNumber (loc_longitude li)
                   || notNumber (loc_latitude lj) || notNumber (loc_longitude lj)
                   = true).
    { destruct (located_or_not li) as [Hli|Hli].
      - destruct (located_or_not lj) as [Hlj|Hlj]; [tauto|].
        rewrite <- orb_assoc, Hlj. apply orb_true_r.
      - rewrite Hli. reflexivity. }
    rewrite (calculateDistance_invalid _ _ _ _ _ Hinv) in *. simpl in *.
    split; [reflexivity|]. split; [reflexivity|].
    apply Hw. left.
Qed.

Lemma C9_fallback_matrix_witness :
  let out :=
    calculateFallbackMatrix Fixture.rationalMath [Fixture.D; Fixture.A; Fixture.B] in
  exists dist dur : Q,
    Spec.entry (distanceMatrix (fst out)) 0 1 = Some dist /\
    Spec.entry (durationMatrix (fst out)) 0 1 = Some dur /\
    dist = (Spec.haversine Fixture.rationalMath 0 0 2 0 * (14 # 10))%Q /\
    dur = (dist / 60 * 60)%Q.
Proof.
  intros out.
  destruct (C9_fallback_matrix Fixture.rationalMath
              [Fixture.D; Fixture.A; Fixture.B] 0 1 Fixture.D Fixture.A
              eq_refl eq_refl)
    as (dist & dur & Hd & Ht & _ & _ & Hvalid & _).
  exists dist, dur. split; [exact Hd|]. split; [exact Ht|].
  apply Hvalid; [lia|reflexivity..].
Defined.

(** A location whose latitude is NaN: its pairs get zero and a warning. *)
Example fallback_with_nan :
  let lost :=
    {| loc_id := "x"; loc_name := "Lost"; loc_latitude := CNaN;
       loc_longitude := CNum 1; loc_demand := 1; isDepot := false |} in
  let out := calculateFallbackMatrix Fixture.rationalMath [Fixture.D; lost] in
  Spec.entry (distanceMatrix (fst out)) 0 1 = Some (0 * (14 # 10))%Q /\
  snd out = [InvalidCoordinates (CNum 0) (CNum 0) CNaN (CNum 1);
             InvalidCoordinates CNaN (CNum 1) (CNum 0) (CNum 0)].
Proof. split; reflexivity. Qed.

(** ** Resolving an incident *)

Section Geometry.
Variables geo geo' : list Stop -> option Point -> option Coordinates.
Variables (distanceMx durationMx : list (list Q)) (real real' : bool).
Variables (locs : list Location) (depot : Location).
Variable trafficMultiplier : Q.
Variable departure : DepartureTime.
Variables il il' : option Point.
Variable fixedDelayMinutes : Q.

(** Neither the directions service nor the incident point changes a
    route beyond its geometry. *)
Lemma closeRoute_plain (vs : VehicleSlot) (st : Fill) (rs rs' : list Route) :
  map Spec.plain rs = map Spec.plain rs' ->
  map Spec.plain
    (closeRoute geo distanceMx durationMx real locs depot trafficMultiplier
       departure il fixedDelayMinutes vs st rs)
  = map Spec.plain
      (closeRoute geo' distanceMx durationMx real' locs depot trafficMultiplier
         departure il' fixedDelayMinutes vs st rs').
Proof.
  intros Hrs. unfold closeRoute.
  destruct (1 <? List.length (f_stops st))%nat; [|exact Hrs].
  destruct (annotate _ _ _ _ _ _ _ _ _ _ _) as [[annotated cd] ct].
  assert (Hlen : List.length rs = List.length rs').
  { apply (f_equal (@List.length Route)) in Hrs.
    rewrite !length_map in Hrs. exact Hrs. }
  rewrite !map_app, Hrs, Hlen. reflexivity.
Qed.

Lemma slotsLoop_plain (slots : list VehicleSlot) :
  forall (rs rs' : list Route) (assigned : gset string),
    map Spec.plain rs = map Spec.plain rs' ->
    map Spec.plain
      (slotsLoop geo distanceMx durationMx real locs depot trafficMultiplier
         departure il fixedDelayMinutes slots rs assigned)
    = map Spec.plain
        (slotsLoop geo' distanceMx durationMx real' locs depot trafficMultiplier
           departure il' fixedDelayMinutes slots rs' assigned).
Proof.
  induction slots as [|vs rest IH]; intros rs rs' assigned Hrs; simpl; [exact Hrs|].
  destruct (decide _).
  - apply closeRoute_plain. exact Hrs.
  - apply IH. apply closeRoute_plain. exact Hrs.
Qed.

End Geometry.

Lemma foldl_plain (f : Route -> Q) (rs : list Route) :
  (forall r, f (Spec.plain r) = f r) ->
  forall (rs' : list Route) (acc : Q),
    map Spec.plain rs = map Spec.plain rs' ->
    foldl (fun a r => (a + or_num (f r) 0)%Q) acc rs
    = foldl (fun a r => (a + or_num (f r) 0)%Q) acc rs'.
Proof.
  intros Hf. induction rs as [|r rs IH]; intros [|r' rs'] acc H;
    try discriminate H; [reflexivity|].
  assert (Hr : Spec.plain r = Spec.plain r')
    by (apply (f_equal (hd (Spec.plain r))) in H; exact H).
  assert (Hrs : map Spec.plain rs = map Spec.plain rs')
    by (apply (f_equal (@tl Route)) in H; exact H).
  cbn [foldl]. rewrite <- (Hf r), Hr, (Hf r'). apply IH. exact Hrs.
Qed.

Lemma sumDistance_plain (rs rs' : list Route) :
  map Spec.plain rs = map Spec.plain rs' -> sumDistance rs = sumDistance rs'.
Proof. apply (foldl_plain distance). reflexivity. Qed.

Lemma sumDuration_plain (rs rs' : list Route) :
  map Spec.plain rs = map Spec.plain rs' -> sumDuration rs = sumDuration rs'.
Proof. apply (foldl_plain duration). reflexivity. Qed.

(** Two builds with the same matrices and arguments have the same totals,
    whatever the directions service answered. *)
Lemma run_totals (e e' : Env) (vs : list Vehicle) (locs : list Location)
    (depot : Location) (mult : Q) (dep : DepartureTime) (il il' : option Point)
    (delay : Q) :
  matrices e' locs = matrices e locs ->
  let rs := runORToolsOptimization e vs locs depot mult dep il delay in
  let rs' := runORToolsOptimization e' vs locs depot mult dep il' delay in
  sumDistance rs' = sumDistance rs /\ sumDuration rs' = sumDuration rs.
Proof.
  intros Hm rs rs'.
  assert (H : map Spec.plain rs' = map Spec.plain rs).
  { unfold rs, rs', runORToolsOptimization. rewrite Hm.
    apply slotsLoop_plain. reflexivity. }
  split; [apply sumDistance_plain|apply sumDuration_plain]; exact H.
Qed.

(** What creation leaves in the document. *)
Lemma createOptimization_inv (e : Env) (req : CreateReq) (o : Run) :
  createOptimization e req = Json o ->
  exists (depot : Location) (mult : Q),
    let vs := Vehicle_find e (vehicles o) in
    let locs := Location_find e (locations o) in
    let dep := default default_departure (cr_departureTime req) in
    let rs := runORToolsOptimization e vs locs depot mult dep None 0 in
    findDepot locs = Some depot /\
    departureTime o = Some dep /\
    isIncidentActive o = false /\
    routes o = rs /\
    totalDistance o = sumDistance rs /\
    totalDuration o = sumDuration rs /\
    (given (cr_incidentType req)
       && bool_decide (is_Some (cr_affectedRouteIndex req)) = false ->
     mult = 1%Q).
Proof.
  unfold createOptimization.
  destruct (cr_name req) as [nm|]; [|discriminate].
  destruct (blank nm); [discriminate|].
  destruct (cr_vehicleIds req) as [[|v0 vids]|]; try discriminate.
  destruct (cr_locationIds req) as [[|l0 lids]|]; try discriminate.
  destruct (100 <? _)%nat; [discriminate|].
  destruct (20 <? _)%nat; [discriminate|].
  destruct (Vehicle_find e (v0 :: vids)) as [|veh vehs] eqn:Hvs; [discriminate|].
  destruct (Location_find e (l0 :: lids)) as [|loc locs] eqn:Hlocs; [discriminate|].
  destruct (findDepot (loc :: locs)) as [depot|] eqn:Hdepot; [|discriminate].
  set (cond := given (cr_incidentType req)
               && bool_decide (is_Some (cr_affectedRouteIndex req))).
  destruct (runORToolsOptimization _ _ _ _ _ _ _ _) as [|r rs] eqn:Hrun;
    [discriminate|].
  intros [= <-]. simpl. rewrite Hvs, Hlocs.
  eexists depot, _. rewrite Hrun.
  split; [exact Hdepot|]. do 5 (split; [reflexivity|]).
  intros Hcond. rewrite Hcond. reflexivity.
Qed.

(** A run created on the legacy path, with an incident at creation, is
    not restored either: the baseline was built with the durations
    scaled by 1.5 (total 108 minutes), the resolve rebuilds with no
    multiplier (total 82 minutes). *)
Lemma legacy_baseline_not_restored :
  exists o0 o1 o2 : Run,
    createOptimization Fixture.env Fixture.incidentCreate = Json o0 /\
    rerouteOptimization Fixture.env (Some o0) (Fixture.accident 0) = Json o1 /\
    isIncidentActive o1 = true /\
    originalRoutes o1 = Some (routes o0) /\
    resolveIncident Fixture.env (Some o1) = Json o2 /\
    (totalDuration o0 == 108)%Q /\
    (totalDuration o2 == 82)%Q /\
    ~ (totalDuration o2 == totalDuration o0)%Q.
Proof.
  eexists. eexists. eexists.
  split; [vm_compute; reflexivity|].
  split; [vm_compute; reflexivity|].
  split; [reflexivity|].
  split; [reflexivity|].
  split; [vm_compute; reflexivity|].
  split; [vm_compute; reflexivity|].
  split; [vm_compute; reflexivity|].
  vm_compute. discriminate.
Qed.

(** Where the round trip does hold: a run created without an incident at
    creation, then put into the incident-active state, and then resolved
    while the matrix service answers as at creation and [populate] reads
    at resolution the very lists that [find] read at creation, has the
    totals it had before the incident. The second condition is what the
    store does not give: the two reads differ in their order. *)
Lemma round_trip_when_reads_agree (e0 e1 e2 : Env) (req0 : CreateReq) (req1 : RerouteReq)
    (o0 o1 o2 : Run) :
  createOptimization e0 req0 = Json o0 ->
  given (cr_incidentType req0)
    && bool_decide (is_Some (cr_affectedRouteIndex req0)) = false ->
  rerouteOptimization e1 (Some o0) req1 = Json o1 ->
  resolveIncident e2 (Some o1) = Json o2 ->
  populate_vehicles e2 (vehicles o0) = Vehicle_find e0 (vehicles o0) ->
  populate_locations e2 (locations o0) = Location_find e0 (locations o0) ->
  matrices e2 (Location_find e0 (locations o0))
    = matrices e0 (Location_find e0 (locations o0)) ->
  isIncidentActive o1 = true /\
  isIncidentActive o2 = false /\
  totalDistance o2 = totalDistance o0 /\
  totalDuration o2 = totalDuration o0.
Proof.
  intros Hcreate Hplain Hreroute Hresolve Hvs Hlocs Hmx.
  apply createOptimization_inv in Hcreate
    as (depot & mult & Hdepot & Hdep & _ & _ & Hdist & Hdur & Hmult).
  specialize (Hmult Hplain). subst mult.
  unfold rerouteOptimization in Hreroute.
  destruct (findDepot (populate_locations e1 (locations o0))); [|discriminate].
  injection Hreroute as <-.
  unfold resolveIncident in Hresolve. simpl in Hresolve.
  rewrite Hvs, Hlocs, Hdepot, Hdep in Hresolve. simpl in Hresolve.
  injection Hresolve as <-. simpl.
  split; [reflexivity|]. split; [reflexivity|].
  rewrite Hdist, Hdur.
  apply (run_totals e0 e2). exact Hmx.
Qed.

(** C1, at a failing input: one store and one matrix service for every
    request, a create request without an incident that names the large
    vehicle first. Creation reads the vehicles with [find], in the
    order of the collection, and builds two routes (26 km, 82 minutes);
    the simulate request keeps these routes as the original ones; the
    resolve request does not put them back: it reads the vehicles with
    [populate], in the order of the stored ids, builds again, and
    answers with one route (17 km, 64 minutes). *)
Theorem C1_resolve_does_not_restore :
  Vehicle_find Shelf.env ["v2"; "v1"] = [Shelf.small; Shelf.large] /\
  populate_vehicles Shelf.env ["v2"; "v1"] = [Shelf.large; Shelf.small] /\
  cr_incidentType Shelf.largeFirst = None /\
  createOptimization Shelf.env Shelf.largeFirst = Json Shelf.createdRun /\
  rerouteOptimization Shelf.env (Some Shelf.createdRun) (Fixture.accident 0)
    = Json Shelf.activeRun /\
  isIncidentActive Shelf.activeRun = true /\
  originalRoutes Shelf.activeRun = Some (routes Shelf.createdRun) /\
  resolveIncident Shelf.env (Some Shelf.activeRun) = Json Shelf.resolvedRun /\
  isIncidentActive Shelf.resolvedRun = false /\
  (totalDistance Shelf.createdRun == 26)%Q /\
  (totalDuration Shelf.createdRun == 82)%Q /\
  (totalDistance Shelf.resolvedRun == 17)%Q /\
  (totalDuration Shelf.resolvedRun == 64)%Q /\
  List.length (routes Shelf.createdRun) = 2%nat /\
  List.length (routes Shelf.resolvedRun) = 1%nat.
Proof.
  split; [reflexivity|]. split; [reflexivity|]. split; [reflexivity|].
  split; [vm_compute; reflexivity|]. split; [vm_compute; reflexivity|].
  split; [reflexivity|]. split; [vm_compute; reflexivity|].
  split; [vm_compute; reflexivity|]. split; [reflexivity|].
  repeat split; vm_compute; reflexivity.
Qed.

(** * Further properties of the controller, the services and the page *)

Import Shape.

(** ** The shape of the routes *)

Lemma nonDepot_elem (locs : list Location) (depot : Location) (loc : Location) :
  loc ∈ nonDepot locs depot <-> loc_id loc ≠ loc_id depot /\ loc ∈ locs.
Proof. unfold nonDepot, depotId, toId. rewrite list_elem_of_filter. reflexivity. Qed.

Lemma visitStop_of (best : Location) (ord : nat) :
  stopOf best (visitStop best ord).
Proof. repeat split. Qed.

Lemma depotStop_of (depot : Location) (ord : nat) (a : option Z) (e : option string) :
  stopOf depot (depotStop depot ord a e).
Proof. repeat split. Qed.

Lemma stopOf_same (loc : Location) (a b : Stop) :
  sameVisit a b -> stopOf loc b -> stopOf loc a.
Proof.
  intros (H1 & H2 & H3 & H4 & H5 & _) (G1 & G2 & G3 & G4 & G5).
  repeat split; congruence.
Qed.

Section ShapeOfFill.
Variables (distanceMx : list (list Q)) (locs : list Location) (depot : Location).

Lemma startFill_shape (vs : VehicleSlot) (assigned : gset string) :
  fillShape locs depot assigned (startFill locs depot vs assigned).
Proof.
  exists []. simpl.
  split; [reflexivity|]. split; [reflexivity|].
  split; [constructor|].
  split; [intros k s Hk; destruct k; discriminate|].
  split; [constructor|].
  split.
  - intros id. split; [auto|].
    intros [H|H]; [exact H|]. apply elem_of_nil in H. contradiction.
  - intros id H. apply elem_of_nil in H. contradiction.
Qed.

Lemma fill_shape (assigned0 : gset string) (fuel : nat) :
  forall st : Fill,
    fillShape locs depot assigned0 st ->
    fillShape locs depot assigned0 (fill distanceMx locs depot fuel st).
Proof.
  induction fuel as [|fuel IH]; intros st Hst; simpl; [exact Hst|].
  destruct (findNearest _ _ _ _ _ _) as [[[d best] idx]|] eqn:Hbest; [|exact Hst].
  apply findNearest_eligible in Hbest as (Hin & Hfree & _ & _).
  apply nonDepot_elem in Hin as [Hne Hin].
  apply IH.
  destruct Hst as (visits & Hstops & Hord & Hcust & Hnum & Hnd & Hset & Hnew).
  exists (visits ++ [visitStop best (f_order st)]). simpl.
  split; [rewrite Hstops; reflexivity|].
  split; [rewrite length_app; simpl; lia|].
  split.
  { apply Forall_app. split; [exact Hcust|]. constructor; [|constructor].
    exists best. split; [exact Hin|]. split; [exact Hne|]. apply visitStop_of. }
  split.
  { intros k s Hk. apply lookup_app_Some in Hk as [Hk|[Hlen Hk]]; [auto|].
    destruct (k - List.length visits)%nat eqn:E; [|destruct n; discriminate].
    simpl in Hk. injection Hk as <-. simpl. lia. }
  assert (Hfresh : loc_id best ∉ map locationId visits).
  { intros Hv. apply Hfree. apply Hset. right. exact Hv. }
  rewrite map_app. simpl. unfold toId.
  split.
  { apply NoDup_app. split; [exact Hnd|]. split.
    - intros x Hx Hx'. apply list_elem_of_singleton in Hx'. subst x. contradiction.
    - apply NoDup_singleton. }
  split.
  { intros id. rewrite elem_of_union, elem_of_singleton, Hset, elem_of_app,
      list_elem_of_singleton. tauto. }
  intros id Hid. apply elem_of_app in Hid as [Hid|Hid]; [auto|].
  apply list_elem_of_singleton in Hid. subst id.
  intros H0. apply Hfree. apply Hset. left. exact H0.
Qed.

End ShapeOfFill.

Lemma filter_ids (depot : Location) (l l' : list Stop) :
  map locationId l = map locationId l' ->
  map locationId (filter (fun s => locationId s ≠ loc_id depot) l)
    = map locationId (filter (fun s => locationId s ≠ loc_id depot) l').
Proof.
  revert l'. induction l as [|x l IH]; intros [|y l'] H; try discriminate H.
  - reflexivity.
  - injection H as Hid Hids. rewrite !filter_cons, Hid.
    destruct (decide (locationId y ≠ loc_id depot)); simpl;
      rewrite (IH l' Hids); congruence.
Qed.

Lemma customerStop_not_depot (locs : list Location) (depot : Location) (s : Stop) :
  customerStop locs depot s -> locationId s ≠ loc_id depot.
Proof. intros (loc & _ & Hne & Hid & _). congruence. Qed.

Section ShapeOfRoutes.
Variable geometryService : list Stop -> option Point -> option Coordinates.
Variables (distanceMx durationMx : list (list Q)) (realRoadData : bool).
Variables (locs : list Location) (depot : Location).
Variable trafficMultiplier : Q.
Variable departure : DepartureTime.
Variable incidentLoc : option Point.
Variable fixedDelayMinutes : Q.

Lemma annotate_same (len : nat) (rest : list Stop) :
  forall (i : nat) (prev : option Stop) (cd ct : Q),
    Forall2 sameVisit
      (fst (fst (annotate distanceMx durationMx locs trafficMultiplier departure
                   len i prev cd ct rest)))
      rest.
Proof.
  induction rest as [|s rest IH]; intros i prev cd ct; simpl; [constructor|].
  match goal with
  | |- context [annotate _ _ _ _ _ len (S i) ?p ?a ?b rest] =>
      specialize (IH (S i) p a b);
      destruct (annotate distanceMx durationMx locs trafficMultiplier departure
                  len (S i) p a b rest) as [[out cd'] ct']
  end.
  simpl in *. constructor; [|exact IH]. repeat split.
Qed.

(** What closing a route does with the state that the [while] loop left:
    nothing if no customer was visited, otherwise one more route, made
    of the visits of that state. *)
Lemma closeRoute_cases (vs : VehicleSlot) (assigned0 : gset string) (st : Fill)
    (routes : list Route) :
  fillShape locs depot assigned0 st ->
  let routes' :=
    closeRoute geometryService distanceMx durationMx realRoadData locs depot
      trafficMultiplier departure incidentLoc fixedDelayMinutes vs st routes in
  (routes' = routes /\ (forall id : string, id ∈ f_assigned st <-> id ∈ assigned0)) \/
  (exists r : Route,
     routes' = routes ++ [r] /\
     wellShaped locs depot r /\
     vehicle r = vs_id vs /\ vehicleName r = vs_name vs /\
     totalCapacity r = (capacity vs - f_remaining st)%Q /\
     NoDup (customerIds depot r) /\
     (forall id : string,
        id ∈ f_assigned st <-> id ∈ assigned0 \/ id ∈ customerIds depot r) /\
     (forall id : string, id ∈ customerIds depot r -> id ∉ assigned0)).
Proof.
  intros (visits & Hstops & Hord & Hcust & Hnum & Hnd & Hset & Hnew) routes'.
  unfold routes', closeRoute. rewrite Hstops.
  destruct visits as [|v0 visits0]; simpl List.length.
  { left. split; [reflexivity|]. intros id. rewrite Hset. simpl.
    split; [intros [H|H]; [exact H|apply elem_of_nil in H; contradiction]|auto]. }
  set (visits := v0 :: visits0) in *.
  change (1 <? S (S (List.length visits0)))%nat with true. cbv iota.
  set (raw := (depotStop depot 0 (Some 0) (Some "8:00 AM") :: visits)
                ++ [depotStop depot (f_order st) None None]).
  pose proof (annotate_same (List.length raw) raw 0 None 0 0) as Hsame.
  destruct (annotate _ _ _ _ _ _ _ _ _ _ _) as [[annotated cd] ct].
  simpl in Hsame. right. eexists. split; [reflexivity|]. simpl.
  assert (Hraw : raw = depotStop depot 0 (Some 0) (Some "8:00 AM")
                         :: visits ++ [depotStop depot (f_order st) None None])
    by reflexivity.
  pose proof Hsame as Hsame0.
  rewrite Hraw in Hsame.
  apply Forall2_cons_inv_r in Hsame as (first & tl & Hfirst & Htl & ->).
  apply Forall2_app_inv_r in Htl as (visits' & fin & Hvisits & Hfin & ->).
  apply Forall2_cons_inv_r in Hfin as (final & nil' & Hfinal & Hnil & ->).
  apply Forall2_nil_inv_r in Hnil as ->.
  assert (Hcust' : Forall (customerStop locs depot) visits').
  { apply Forall_forall. intros s' Hs'.
    apply list_elem_of_lookup_1 in Hs' as [k Hk].
    destruct (Forall2_lookup_l _ _ _ _ _ Hvisits Hk) as (s & Hs & Hss).
    apply list_elem_of_lookup_2 in Hs.
    rewrite Forall_forall in Hcust. destruct (Hcust s Hs) as (loc & H1 & H2 & H3).
    exists loc. split; [exact H1|]. split; [exact H2|].
    eapply stopOf_same; eassumption. }
  assert (Hids : map locationId visits' = map locationId visits).
  { clear -Hvisits. induction Hvisits as [|a b l k Hab _ IH]; [reflexivity|].
    simpl. rewrite IH. destruct Hab as [-> _]. reflexivity. }
  assert (Hcids : customerIds depot
                    {| vehicle := vs_id vs; vehicleName := vs_name vs;
                       stops := first :: visits' ++ [final]; distance := cd;
                       duration :=
                         if (if Qlt_le_dec 0 fixedDelayMinutes then true else false)
                            && (List.length routes =? 0)%nat
                         then (inject_Z (round ct) + fixedDelayMinutes)%Q
                         else inject_Z (round ct);
                       totalCapacity := (capacity vs - f_remaining st)%Q;
                       geometry := geometryService (first :: visits' ++ [final])
                                     incidentLoc;
                       usingRealRoadData := realRoadData |}
                  = map locationId visits).
  { unfold customerIds, Spec.nonDepotStops. simpl.
    rewrite filter_cons. destruct Hfirst as [Hf _]. simpl in Hf.
    destruct (decide (locationId first ≠ loc_id depot)) as [Hne|_];
      [congruence|].
    rewrite filter_app, filter_cons. destruct Hfinal as [Hl _]. simpl in Hl.
    destruct (decide (locationId final ≠ loc_id depot)) as [Hne|_];
      [congruence|].
    rewrite filter_nil, app_nil_r.
    rewrite (filter_keeps depot visits'); [exact Hids|].
    eapply Forall_impl; [exact Hcust'|].
    intros s. apply customerStop_not_depot. }
  split.
  { exists first, visits', final.
    split; [reflexivity|].
    split; [intros ->; apply Forall2_nil_inv_l in Hvisits; discriminate|].
    split; [eapply stopOf_same; [exact Hfirst|apply depotStop_of]|].
    split; [eapply stopOf_same; [exact Hfinal|apply depotStop_of]|].
    split; [exact Hcust'|].
    intros i s' Hi.
    destruct (Forall2_lookup_l _ _ _ _ _ Hsame0 Hi) as (s & Hs & Hss).
    destruct Hss as (_ & _ & _ & _ & _ & ->).
    rewrite Hraw in Hs. destruct i as [|i]; simpl in Hs.
    - injection Hs as <-. reflexivity.
    - change ((visits ++ [depotStop depot (f_order st) None None]) !! i = Some s)
        in Hs.
      apply lookup_app_Some in Hs as [Hs|[Hlen Hs]]; [apply Hnum; exact Hs|].
      destruct (i - List.length visits)%nat eqn:E; [|destruct n; discriminate].
      simpl in Hs. injection Hs as <-. simpl. lia. }
  split; [reflexivity|]. split; [reflexivity|]. split; [reflexivity|].
  rewrite Hcids. split; [exact Hnd|]. split; [exact Hset|exact Hnew].
Qed.

End ShapeOfRoutes.

(** ** The nearest-neighbour search *)

Section Nearest.
Variables (distanceMx : list (list Q)) (locs : list Location) (depot : Location).
Variables (assigned : gset string) (remaining : Q) (cur : nat).

Lemma consider_nearest (seen : list Location) (acc : Best) (loc : Location) :
  nearestOf distanceMx locs assigned remaining cur seen acc ->
  nearestOf distanceMx locs assigned remaining cur (seen ++ [loc])
    (consider distanceMx locs assigned remaining cur acc loc).
Proof.
  intros Hacc.
  assert (Hskip : (forall j, ~ candidate locs assigned remaining loc j) ->
                  nearestOf distanceMx locs assigned remaining cur (seen ++ [loc]) acc).
  { intros Hno. destruct acc as [[[d b] i]|]; simpl in *.
    - destruct Hacc as (before & after & -> & Hb & Hd & Hlt & Hle).
      exists before, (after ++ [loc]).
      split; [rewrite <- app_assoc; reflexivity|].
      split; [exact Hb|]. split; [exact Hd|]. split; [exact Hlt|].
      intros x j Hx Hc. apply elem_of_app in Hx as [Hx|Hx]; [eauto|].
      apply list_elem_of_singleton in Hx. subst x. destruct (Hno j Hc).
    - intros x j Hx Hc. apply elem_of_app in Hx as [Hx|Hx]; [eapply Hacc; eauto|].
      apply list_elem_of_singleton in Hx. subst x. destruct (Hno j Hc). }
  unfold consider, toId.
  destruct (decide (loc_id loc ∈ assigned)) as [Hin|Hfree].
  { apply Hskip. intros j (Hf & _). contradiction. }
  destruct (Qlt_le_dec remaining (or_num (loc_demand loc) 0)) as [Hbig|Hfit].
  { apply Hskip. intros j (_ & Hle & _). exact (Qlt_not_le _ _ Hbig Hle). }
  destruct (locationIndexMap locs !! loc_id loc) as [j|] eqn:Hj.
  2:{ apply Hskip. intros j (_ & _ & Hsome). congruence. }
  assert (Hc : candidate locs assigned remaining loc j) by (repeat split; assumption).
  destruct acc as [[[d b] i]|]; simpl in Hacc.
  - destruct Hacc as (before & after & -> & Hb & Hd & Hlt & Hle).
    destruct (Qlt_le_dec (at2 distanceMx cur j) d) as [Hnear|Hfar]; simpl.
    + exists (before ++ b :: after), []. split; [reflexivity|].
      split; [exact Hc|]. split; [reflexivity|]. split.
      * intros x k Hx Hxc. apply elem_of_app in Hx as [Hx|Hx].
        { specialize (Hlt x k Hx Hxc). lra. }
        apply elem_of_cons in Hx as [->|Hx].
        { destruct Hb as (_ & _ & Hbi), Hxc as (_ & _ & Hbk).
          assert (k = i) by congruence. subst k. rewrite <- Hd. exact Hnear. }
        specialize (Hle x k Hx Hxc). lra.
      * intros x k Hx. apply elem_of_nil in Hx. contradiction.
    + exists before, (after ++ [loc]).
      split; [rewrite <- app_assoc; reflexivity|].
      split; [exact Hb|]. split; [exact Hd|]. split; [exact Hlt|].
      intros x k Hx Hxc. apply elem_of_app in Hx as [Hx|Hx]; [eauto|].
      apply list_elem_of_singleton in Hx. subst x.
      destruct Hxc as (_ & _ & Hk). assert (k = j) by congruence. subst k. exact Hfar.
  - simpl. exists seen, []. split; [reflexivity|].
    split; [exact Hc|]. split; [reflexivity|]. split.
    + intros x k Hx Hxc. destruct (Hacc x k Hx Hxc).
    + intros x k Hx. apply elem_of_nil in Hx. contradiction.
Qed.

Lemma foldl_consider_nearest (l : list Location) :
  forall (seen : list Location) (acc : Best),
    nearestOf distanceMx locs assigned remaining cur seen acc ->
    nearestOf distanceMx locs assigned remaining cur (seen ++ l)
      (foldl (consider distanceMx locs assigned remaining cur) acc l).
Proof.
  induction l as [|x l IH]; intros seen acc Hacc; simpl.
  - rewrite app_nil_r. exact Hacc.
  - replace (seen ++ x :: l) with ((seen ++ [x]) ++ l)
      by (rewrite <- app_assoc; reflexivity).
    apply IH, consider_nearest, Hacc.
Qed.

End Nearest.

Lemma findNearest_nearestOf (distanceMx : list (list Q)) (locs : list Location)
    (depot : Location) (assigned : gset string) (remaining : Q) (cur : nat) :
  nearestOf distanceMx locs assigned remaining cur (nonDepot locs depot)
    (findNearest distanceMx locs depot assigned remaining cur).
Proof.
  unfold findNearest.
  apply (foldl_consider_nearest distanceMx locs assigned remaining cur
           (nonDepot locs depot) [] None).
  intros x j Hx. apply elem_of_nil in Hx. contradiction.
Qed.

(** ** The loop over the vehicle slots *)

Lemma visitedIds_app (depot : Location) (rs1 rs2 : list Route) :
  visitedIds depot (rs1 ++ rs2) = visitedIds depot rs1 ++ visitedIds depot rs2.
Proof. unfold visitedIds. rewrite map_app, concat_app. reflexivity. Qed.

Lemma visitedIds_single (depot : Location) (r : Route) :
  visitedIds depot [r] = customerIds depot r.
Proof. unfold visitedIds. simpl. apply app_nil_r. Qed.

Lemma fill_maximal (distanceMx : list (list Q)) (locs : list Location)
    (depot : Location) (vs : VehicleSlot) (assigned : gset string)
    (loc : Location) :
  let final :=
    fill distanceMx locs depot (List.length (nonDepot locs depot))
      (startFill locs depot vs assigned) in
  loc ∈ locs -> loc_id loc ≠ loc_id depot ->
  loc_id loc ∉ f_assigned final ->
  (f_remaining final < or_num (loc_demand loc) 0)%Q.
Proof.
  intros final Hin Hne Hfree.
  pose proof (fill_enough distanceMx locs depot vs assigned) as Hnone.
  fold final in Hnone. simpl in Hnone.
  pose proof (findNearest_nearestOf distanceMx locs depot (f_assigned final)
                (f_remaining final) (f_current final)) as Hspec.
  rewrite Hnone in Hspec. simpl in Hspec.
  destruct (proj1 (indexMap_lookup locs (loc_id loc)))
    as (j & _ & Hj & _); [eauto|].
  apply Qnot_le_lt. intros Hfit.
  apply (Hspec loc j); [apply nonDepot_elem; auto|].
  repeat split; assumption.
Qed.

Section SlotsLoop.
Variable geometryService : list Stop -> option Point -> option Coordinates.
Variables (distanceMx durationMx : list (list Q)) (realRoadData : bool).
Variables (locs : list Location) (depot : Location).
Variable trafficMultiplier : Q.
Variable departure : DepartureTime.
Variable incidentLoc : option Point.
Variable fixedDelayMinutes : Q.

Let loop :=
  slotsLoop geometryService distanceMx durationMx realRoadData locs depot
    trafficMultiplier departure incidentLoc fixedDelayMinutes.

Lemma slotsLoop_inv (slots : list VehicleSlot) :
  forall (routes : list Route) (assigned : gset string),
    NoDup (visitedIds depot routes) ->
    (forall id : string, id ∈ assigned <-> id ∈ visitedIds depot routes) ->
    exists (new : list Route) (used : list VehicleSlot),
      loop slots routes assigned = routes ++ new /\
      Forall (wellShaped locs depot) new /\
      NoDup (visitedIds depot (routes ++ new)) /\
      used `sublist_of` slots /\
      Forall2 (servedBy locs depot (loop slots routes assigned)) used new.
Proof.
  induction slots as [|vs rest IH]; intros routes assigned Hnd Hset.
  { exists [], []. simpl. rewrite app_nil_r.
    repeat split; try constructor; assumption. }
  unfold loop. simpl. fold loop.
  set (st := fill distanceMx locs depot (List.length (nonDepot locs depot))
               (startFill locs depot vs assigned)).
  pose proof (closeRoute_cases geometryService distanceMx durationMx realRoadData
                locs depot trafficMultiplier departure incidentLoc
                fixedDelayMinutes vs assigned st routes
                (fill_shape distanceMx locs depot assigned _ _
                   (startFill_shape locs depot vs assigned))) as Hclose.
  simpl in Hclose.
  destruct Hclose as [[Heq Hsame]|(r & Heq & Hshape & Hv & Hn & Hcap & Hndr & Hgrow & Hnew)];
    rewrite Heq.
  - (* no customer for this slot *)
    destruct (decide _).
    + exists [], []. rewrite app_nil_r.
      repeat split; try constructor; try assumption. apply sublist_nil_l.
    + destruct (IH routes (f_assigned st)) as (new & used & Hout & Hws & Hnd' & Hsub & Hserved).
      * exact Hnd.
      * intros id. rewrite Hsame. apply Hset.
      * exists new, used. repeat split; try assumption.
        apply sublist_cons. exact Hsub.
  - (* one more route *)
    assert (Hnd1 : NoDup (visitedIds depot (routes ++ [r]))).
    { rewrite visitedIds_app, visitedIds_single. apply NoDup_app.
      split; [exact Hnd|]. split; [|exact Hndr].
      intros id Hid Hid'. apply (Hnew id Hid'). apply Hset. exact Hid. }
    assert (Hset1 : forall id : string,
               id ∈ f_assigned st <-> id ∈ visitedIds depot (routes ++ [r])).
    { intros id. rewrite Hgrow, visitedIds_app, visitedIds_single, elem_of_app, Hset.
      reflexivity. }
    assert (Hserved1 : forall final : list Route,
               (forall id, id ∈ visitedIds depot (routes ++ [r]) ->
                           id ∈ visitedIds depot final) ->
               servedBy locs depot final vs r).
    { intros final Hmono. split; [exact Hv|]. split; [exact Hn|].
      intros loc (Hin & Hne & Hnot). unfold tooBigFor. rewrite Hcap.
      assert (Hrem : (f_remaining st < or_num (loc_demand loc) 0)%Q).
      { apply fill_maximal; try assumption.
        intros Hass. apply Hnot, Hmono, Hset1, Hass. }
      lra. }
    destruct (decide _).
    + exists [r], [vs]. split; [reflexivity|].
      split; [constructor; [exact Hshape|constructor]|].
      split; [exact Hnd1|].
      split; [apply sublist_skip, sublist_nil_l|].
      constructor; [|constructor]. apply Hserved1. auto.
    + destruct (IH (routes ++ [r]) (f_assigned st) Hnd1 Hset1)
        as (new & used & Hout & Hws & Hnd' & Hsub & Hserved).
      exists (r :: new), (vs :: used).
      split; [rewrite Hout, <- app_assoc; reflexivity|].
      split; [constructor; assumption|].
      split; [rewrite <- app_assoc in Hnd'; exact Hnd'|].
      split; [apply sublist_skip; exact Hsub|].
      constructor; [|exact Hserved].
      apply Hserved1. intros id Hid. rewrite Hout, visitedIds_app.
      apply elem_of_app. left. exact Hid.
Qed.

End SlotsLoop.

Lemma run_inv (e : Env) (vehicles : list Vehicle) (locs : list Location)
    (depot : Location) (mult : Q) (dep : DepartureTime) (il : option Point)
    (delay : Q) :
  let rs := runORToolsOptimization e vehicles locs depot mult dep il delay in
  exists used : list VehicleSlot,
    Forall (wellShaped locs depot) rs /\
    NoDup (visitedIds depot rs) /\
    used `sublist_of` expandVehicles vehicles /\
    Forall2 (servedBy locs depot rs) used rs.
Proof.
  intros rs. unfold rs, runORToolsOptimization.
  destruct (slotsLoop_inv (getRouteGeometry e) (distanceMatrix (matrices e locs))
              (durationMatrix (matrices e locs)) (realData e locs) locs depot
              mult dep il delay (expandVehicles vehicles) [] ∅)
    as (new & used & Hout & Hws & Hnd & Hsub & Hserved).
  - constructor.
  - intros id. split; intros H; [apply elem_of_empty in H|apply elem_of_nil in H];
      contradiction.
  - simpl in Hout. rewrite Hout in *. simpl in *. exists used. auto.
Qed.

(** ** Distances and totals of a route *)

Section Distances.
Variables (distanceMx durationMx : list (list Q)).
Variable locs : list Location.
Variable trafficMultiplier : Q.
Variable departure : DepartureTime.

Let adjusted := adjustedDurationMatrix durationMx trafficMultiplier.
Let km (ids : list string) (k : nat) := cumulativeKm distanceMx locs ids k.
Let cm (ids : list string) (k : nat) := Spec.cumulativeMinutes adjusted locs ids k.

Lemma legDistance_spec (l : list Stop) (i : nat) (p c : Stop) :
  l !! i = Some p -> l !! S i = Some c ->
  legDistance distanceMx locs p c = legKm distanceMx locs (map locationId l) (S i).
Proof.
  intros Hp Hc. unfold legDistance, legKm.
  change (map locationId l) with (locationId <$> l).
  rewrite !list_lookup_fmap.
  replace (S i - 1)%nat with i by lia. rewrite Hp, Hc. reflexivity.
Qed.

Lemma cumulativeKm_step (ids : list string) (i : nat) :
  km ids (S i) = (km ids i + legKm distanceMx locs ids (S i))%Q.
Proof.
  unfold km, cumulativeKm. rewrite seq_S, foldl_app. reflexivity.
Qed.

Lemma cumulativeKm_nonneg (ids : list string) (i : nat) :
  Forall (Forall (fun x => (0 <= x)%Q)) distanceMx ->
  (0 <= legKm distanceMx locs ids i)%Q /\ (0 <= km ids i)%Q.
Proof.
  intros Hm.
  assert (Hleg : forall k, (0 <= legKm distanceMx locs ids k)%Q).
  { intros k. unfold legKm.
    destruct (ids !! (k - 1)%nat); [|lra]. destruct (ids !! k); [|lra].
    apply at2_nonneg. exact Hm. }
  split; [apply Hleg|].
  induction i as [|i IH]; [unfold km, cumulativeKm; simpl; lra|].
  rewrite cumulativeKm_step. specialize (Hleg (S i)). lra.
Qed.

(** The loop over the stops, for the distances and for what is left in
    the two accumulators at its end. *)
Lemma annotate_dists (l : list Stop) :
  forall (rest pre : list Stop) (i : nat) (prev : option Stop) (cd ct : Q),
    l = pre ++ rest ->
    i = List.length pre ->
    prev = last pre ->
    cd = km (map locationId l) (i - 1) ->
    ct = cm (map locationId l) (i - 1) ->
    let out :=
      annotate distanceMx durationMx locs trafficMultiplier departure
        (List.length l) i prev cd ct rest in
    (forall (j : nat) (s : Stop),
       fst (fst out) !! j = Some s ->
       cumulativeDistance s = toFixed2 (km (map locationId l) (i + j))) /\
    snd (fst out) = km (map locationId l) (i + List.length rest - 1) /\
    snd out = cm (map locationId l) (i + List.length rest - 1).
Proof.
  induction rest as [|s0 rest IH]; intros pre i prev cd ct Hl Hi Hprev Hcd Hct;
    simpl.
  { rewrite Nat.add_0_r. split; [discriminate|]. auto. }
  match goal with
  | |- context [annotate _ _ _ _ _ _ (S i) (Some s0) ?a ?b rest] =>
      set (cd' := a); set (ct' := b)
  end.
  assert (Hboth : cd' = km (map locationId l) i /\ ct' = cm (map locationId l) i).
  { unfold cd', ct'. destruct pre as [|x pre0] using rev_ind.
    - simpl in Hprev, Hi. subst prev i. auto.
    - rewrite last_snoc in Hprev. subst prev.
      rewrite length_app in Hi. simpl in Hi.
      assert (Hi' : i = S (List.length pre0)) by lia.
      rewrite Hi' in *.
      replace (S (List.length pre0) - 1)%nat with (List.length pre0) in Hcd, Hct
        by lia.
      assert (Hx : l !! List.length pre0 = Some x).
      { rewrite Hl, <- app_assoc. apply list_lookup_middle. reflexivity. }
      assert (Hs0 : l !! S (List.length pre0) = Some s0).
      { rewrite Hl. replace (S (List.length pre0)) with (List.length (pre0 ++ [x]))
          by (rewrite length_app; simpl; lia).
        apply list_lookup_middle. reflexivity. }
      split.
      + rewrite cumulativeKm_step, <- Hcd.
        rewrite <- (legDistance_spec l _ x s0 Hx Hs0). reflexivity.
      + unfold cm, adjusted in *.
        rewrite (cumulativeMinutes_step durationMx locs trafficMultiplier), <- Hct.
        rewrite <- (legTime_spec durationMx locs trafficMultiplier l _ x s0 Hx Hs0).
        reflexivity. }
  destruct Hboth as [Hcd' Hct'].
  specialize (IH (pre ++ [s0]) (S i) (Some s0) cd' ct').
  destruct (annotate distanceMx durationMx locs trafficMultiplier departure
              (List.length l) (S i) (Some s0) cd' ct' rest) as [[out cdo] cto].
  simpl in *.
  destruct IH as (IHs & IHcd & IHct).
  - rewrite <- app_assoc. exact Hl.
  - rewrite length_app. simpl. lia.
  - rewrite last_snoc. reflexivity.
  - rewrite Nat.sub_0_r. exact Hcd'.
  - rewrite Nat.sub_0_r. exact Hct'.
  - split; [|split].
    + intros j s. destruct j as [|j]; simpl.
      * intros [= <-]. simpl. rewrite Nat.add_0_r, Hcd'. reflexivity.
      * intros Hj. replace (i + S j)%nat with (S (i + j)) by lia.
        apply IHs. exact Hj.
    + replace (i + S (List.length rest) - 1)%nat with (i + List.length rest)%nat
        by lia.
      destruct rest as [|s1 rest1].
      * simpl in *. rewrite Nat.add_0_r. rewrite IHcd. f_equal. lia.
      * rewrite IHcd. f_equal. simpl. lia.
    + replace (i + S (List.length rest) - 1)%nat with (i + List.length rest)%nat
        by lia.
      destruct rest as [|s1 rest1].
      * simpl in *. rewrite Nat.add_0_r. rewrite IHct. f_equal. lia.
      * rewrite IHct. f_equal. simpl. lia.
Qed.

End Distances.

Section MeasuredRoutes.
Variable geometryService : list Stop -> option Point -> option Coordinates.
Variables (distanceMx durationMx : list (list Q)) (realRoadData : bool).
Variables (locs : list Location) (depot : Location).
Variable trafficMultiplier : Q.
Variable departure : DepartureTime.
Variable incidentLoc : option Point.
Variable fixedDelayMinutes : Q.

Lemma closeRoute_measured (vs : VehicleSlot) (st : Fill) (routes : list Route)
    (r : Route) :
  r ∈ closeRoute geometryService distanceMx durationMx realRoadData locs depot
        trafficMultiplier departure incidentLoc fixedDelayMinutes vs st routes ->
  r ∈ routes \/
  (measured distanceMx durationMx locs trafficMultiplier fixedDelayMinutes r /\
   timed durationMx locs trafficMultiplier departure r /\
   usingRealRoadData r = realRoadData /\
   geometry r = geometryService (stops r) incidentLoc).
Proof.
  intros Hin.
  destruct (closeRoute_timed _ _ _ _ _ _ _ _ _ _ _ _ _ _ Hin) as [Hold|Htimed];
    [auto|].
  revert Hin. unfold closeRoute.
  destruct (1 <? List.length (f_stops st))%nat; [|auto].
  set (raw := f_stops st ++ [depotStop depot (f_order st) None None]).
  pose proof (annotate_fields distanceMx durationMx locs trafficMultiplier
                departure (List.length raw) raw 0 None 0 0) as [Hids _].
  pose proof (annotate_same distanceMx durationMx locs trafficMultiplier
                departure (List.length raw) raw 0 None 0 0) as Hsame.
  pose proof (annotate_dists distanceMx durationMx locs trafficMultiplier
                departure raw raw [] 0 None 0 0 eq_refl eq_refl eq_refl
                eq_refl eq_refl) as (Hkm & Hcd & Hct).
  destruct (annotate _ _ _ _ _ _ _ _ _ _ _) as [[annotated cd] ct].
  simpl in Hids, Hsame, Hkm, Hcd, Hct.
  apply Forall2_length in Hsame.
  intros Hin. apply elem_of_app in Hin as [Hin|Hin]; [auto|right].
  apply list_elem_of_singleton in Hin. subst r.
  split; [|split; [exact Htimed|split; reflexivity]].
  unfold measured. simpl. rewrite Hids, Hsame.
  split; [exact Hcd|]. split; [exact Hkm|].
  rewrite <- Hct.
  destruct (Qlt_le_dec 0 fixedDelayMinutes) as [Hpos|_]; [|left; reflexivity].
  destruct (List.length routes =? 0)%nat; simpl; [right|left]; auto.
Qed.

End MeasuredRoutes.

Lemma run_measured (e : Env) (vehicles : list Vehicle) (locs : list Location)
    (depot : Location) (mult : Q) (dep : DepartureTime) (il : option Point)
    (delay : Q) (r : Route) :
  r ∈ runORToolsOptimization e vehicles locs depot mult dep il delay ->
  measured (distanceMatrix (matrices e locs)) (durationMatrix (matrices e locs))
    locs mult delay r /\
  timed (durationMatrix (matrices e locs)) locs mult dep r /\
  usingRealRoadData r = realData e locs /\
  geometry r = getRouteGeometry e (stops r) il.
Proof.
  unfold runORToolsOptimization. intros Hin.
  apply (slotsLoop_routes _ _ _ _ _ _ _ _ _ _
           (fun r =>
              measured (distanceMatrix (matrices e locs))
                (durationMatrix (matrices e locs)) locs mult delay r /\
              timed (durationMatrix (matrices e locs)) locs mult dep r /\
              usingRealRoadData r = realData e locs /\
              geometry r = getRouteGeometry e (stops r) il)) in Hin.
  - destruct Hin as [Hin|Hin]; [apply elem_of_nil in Hin; contradiction|exact Hin].
  - intros vs st routes r0. apply closeRoute_measured.
Qed.

Lemma toFixed2_mono (x y : Q) :
  (0 <= x)%Q -> (x <= y)%Q -> (toFixed2 x <= toFixed2 y)%Q.
Proof.
  intros Hx Hxy. unfold toFixed2.
  destruct (Qlt_le_dec x 0) as [Hneg|_]; [lra|].
  destruct (Qlt_le_dec y 0) as [Hneg|_]; [lra|].
  assert (H : (Qfloor (x * 100 + (1 # 2)) <= Qfloor (y * 100 + (1 # 2)))%Z)
    by (apply Qfloor_resp_le; lra).
  rewrite Zle_Qle in H.
  unfold Qdiv. apply Qmult_le_compat_r; [exact H|]. unfold Qinv; simpl. lra.
Qed.

Lemma round_mono (x y : Q) : (x <= y)%Q -> (round x <= round y)%Z.
Proof. intros H. unfold round. apply Qfloor_resp_le. lra. Qed.

(** ** What does not depend on the times *)

Section Skeleton.
Variables geo geo' : list Stop -> option Point -> option Coordinates.
Variables (distanceMx durationMx durationMx' : list (list Q)) (real real' : bool).
Variables (locs : list Location) (depot : Location).
Variables mult mult' : Q.
Variables dep dep' : DepartureTime.
Variables il il' : option Point.
Variables delay delay' : Q.

Lemma annotate_place (len : nat) (rest : list Stop) :
  forall (i : nat) (prev : option Stop) (cd ct ct' : Q),
    let out := annotate distanceMx durationMx locs mult dep len i prev cd ct rest in
    let out' :=
      annotate distanceMx durationMx' locs mult' dep' len i prev cd ct' rest in
    map place (fst (fst out)) = map place (fst (fst out')) /\
    snd (fst out) = snd (fst out').
Proof.
  induction rest as [|s rest IH]; intros i prev cd ct ct'; simpl; [auto|].
  match goal with
  | |- context [annotate distanceMx durationMx locs mult dep len (S i) ?p ?a ?b rest] =>
      match goal with
      | |- context [annotate distanceMx durationMx' locs mult' dep' len (S i) p a ?b' rest] =>
          specialize (IH (S i) p a b b');
          destruct (annotate distanceMx durationMx locs mult dep len (S i) p a b rest)
            as [[out cdo] cto];
          destruct (annotate distanceMx durationMx' locs mult' dep' len (S i) p a b' rest)
            as [[out' cdo'] cto']
      end
  end.
  simpl in *. destruct IH as [-> ->]. auto.
Qed.

Lemma closeRoute_skeleton (vs : VehicleSlot) (st : Fill) (rs rs' : list Route) :
  map skeleton rs = map skeleton rs' ->
  map skeleton
    (closeRoute geo distanceMx durationMx real locs depot mult dep il delay vs st rs)
  = map skeleton
      (closeRoute geo' distanceMx durationMx' real' locs depot mult' dep' il' delay'
         vs st rs').
Proof.
  intros Hrs. unfold closeRoute.
  destruct (1 <? List.length (f_stops st))%nat; [|exact Hrs].
  pose proof (annotate_place
                (List.length (f_stops st ++ [depotStop depot (f_order st) None None]))
                (f_stops st ++ [depotStop depot (f_order st) None None])
                0 None 0 0 0) as [Hplace Hcd].
  destruct (annotate distanceMx durationMx _ _ _ _ _ _ _ _ _) as [[annotated cd] ct].
  destruct (annotate distanceMx durationMx' _ _ _ _ _ _ _ _ _) as [[annotated' cd'] ct'].
  simpl in Hplace, Hcd. rewrite !map_app, Hrs. simpl.
  unfold skeleton at 2 4. simpl. rewrite Hplace, Hcd. reflexivity.
Qed.

Lemma slotsLoop_skeleton (slots : list VehicleSlot) :
  forall (rs rs' : list Route) (assigned : gset string),
    map skeleton rs = map skeleton rs' ->
    map skeleton
      (slotsLoop geo distanceMx durationMx real locs depot mult dep il delay
         slots rs assigned)
    = map skeleton
        (slotsLoop geo' distanceMx durationMx' real' locs depot mult' dep' il' delay'
           slots rs' assigned).
Proof.
  induction slots as [|vs rest IH]; intros rs rs' assigned Hrs; simpl; [exact Hrs|].
  destruct (decide _).
  - apply closeRoute_skeleton. exact Hrs.
  - apply IH. apply closeRoute_skeleton. exact Hrs.
Qed.

End Skeleton.

(** ** A request that no vehicle can serve *)

Section NoFit.
Variable geometryService : list Stop -> option Point -> option Coordinates.
Variables (distanceMx durationMx : list (list Q)) (realRoadData : bool).
Variables (locs : list Location) (depot : Location).
Variable trafficMultiplier : Q.
Variable departure : DepartureTime.
Variable incidentLoc : option Point.
Variable fixedDelayMinutes : Q.

Lemma slotsLoop_no_fit (slots : list VehicleSlot) :
  (forall (vs : VehicleSlot) (loc : Location),
     vs ∈ slots -> loc ∈ nonDepot locs depot ->
     (capacity vs < or_num (loc_demand loc) 0)%Q) ->
  forall (routes : list Route) (assigned : gset string),
    slotsLoop geometryService distanceMx durationMx realRoadData locs depot
      trafficMultiplier departure incidentLoc fixedDelayMinutes
      slots routes assigned = routes.
Proof.
  induction slots as [|vs rest IH]; intros Hbig routes assigned; simpl;
    [reflexivity|].
  assert (Hnone : findNearest distanceMx locs depot assigned (capacity vs)
                    (depotIndex locs depot) = None).
  { pose proof (findNearest_nearestOf distanceMx locs depot assigned (capacity vs)
                  (depotIndex locs depot)) as Hspec.
    destruct (findNearest _ _ _ _ _ _) as [[[d b] i]|]; [|reflexivity].
    destruct Hspec as (before & after & Hlist & (_ & Hfit & _) & _).
    assert (Hb : b ∈ nonDepot locs depot).
    { rewrite Hlist. apply elem_of_app. right. left. }
    specialize (Hbig vs b (list_elem_of_here _ _) Hb). lra. }
  assert (Hfill : fill distanceMx locs depot (List.length (nonDepot locs depot))
                    (startFill locs depot vs assigned)
                  = startFill locs depot vs assigned).
  { destruct (List.length (nonDepot locs depot)); simpl; [reflexivity|].
    rewrite Hnone. reflexivity. }
  rewrite Hfill. unfold closeRoute. simpl.
  destruct (decide _); [reflexivity|].
  apply IH. intros vs0 loc Hvs0. apply Hbig. right. exact Hvs0.
Qed.

End NoFit.

(** * Further properties of the route builder *)

Lemma entry_at2 (n : nat) (m : list (list Q)) (i j : nat) :
  Spec.square n m -> (i < n)%nat -> (j < n)%nat ->
  Spec.entry m i j = Some (at2 m i j).
Proof.
  intros [Hrows Hcols] Hi Hj. unfold Spec.entry, at2.
  destruct (lookup_lt_is_Some_2 m i) as [row Hrow]; [lia|].
  rewrite Hrow. simpl.
  pose proof (Forall_lookup_1 _ _ _ _ Hcols Hrow) as Hlen. simpl in Hlen.
  destruct (lookup_lt_is_Some_2 row j) as [x Hx]; [lia|].
  rewrite Hx. reflexivity.
Qed.

Lemma candidate_index (locs : list Location) (assigned : gset string)
    (remaining : Q) (loc : Location) (j : nat) :
  candidate locs assigned remaining loc j -> (j < List.length locs)%nat.
Proof.
  intros (_ & _ & Hj). unfold locationIndexMap, buildIndexMap in Hj.
  destruct (indexFrom_lookup locs 0 ∅ (loc_id loc) j Hj)
    as [[Hm _]|(x & _ & Hx & _)].
  - rewrite lookup_empty in Hm. discriminate.
  - rewrite Nat.sub_0_r in Hx. apply lookup_lt_Some in Hx. exact Hx.
Qed.

(** X1: the search for the next stop (lines 389-408), on a distance matrix
    that has a row and a column for every location and from a current
    position among them. It returns nothing exactly when no unassigned
    location of [nonDepot] fits into the remaining capacity; otherwise
    it returns a location that fits, with the entry of the matrix for
    the current position and that location, strictly nearer than every
    fitting location before it in the list and at least as near as every
    fitting location after it: the nearest, and among equally near ones
    the first. *)
Theorem nearest_search_first_wins (distanceMx : list (list Q))
    (locs : list Location) (depot : Location) (assigned : gset string)
    (remaining : Q) (cur : nat) :
  Spec.square (List.length locs) distanceMx ->
  (cur < List.length locs)%nat ->
  nearestOf distanceMx locs assigned remaining cur (nonDepot locs depot)
    (findNearest distanceMx locs depot assigned remaining cur) /\
  (forall (d : Q) (best : Location) (bestIndex : nat),
     findNearest distanceMx locs depot assigned remaining cur
       = Some (d, best, bestIndex) ->
     Spec.entry distanceMx cur bestIndex = Some d).
Proof.
  intros Hsquare Hcur.
  pose proof (findNearest_nearestOf distanceMx locs depot assigned remaining cur)
    as Hnear.
  split; [exact Hnear|].
  intros d best bestIndex Hfound. rewrite Hfound in Hnear.
  destruct Hnear as (before & after & _ & Hcand & -> & _).
  apply (entry_at2 (List.length locs)); [exact Hsquare|exact Hcur|].
  eapply candidate_index. exact Hcand.
Qed.

Lemma nearest_search_first_wins_witness :
  Spec.entry (distanceMatrix Fixture.roads) 0
    (snd (default (0%Q, Fixture.D, 0%nat)
            (findNearest (distanceMatrix Fixture.roads)
               [Fixture.D; Fixture.A; Fixture.B] Fixture.D ∅ 10 0)))
  = Some 5%Q.
Proof.
  destruct (nearest_search_first_wins (distanceMatrix Fixture.roads)
              [Fixture.D; Fixture.A; Fixture.B] Fixture.D ∅ 10 0)
    as [_ Hentry].
  - split; [reflexivity|repeat constructor].
  - simpl. lia.
  - exact (Hentry 5%Q Fixture.A 1%nat eq_refl).
Defined.

(** X2: the index map (lines 341-346) sends the id of every location of the
    list to a position where a location with that id stands, the last
    such position if the id occurs more than once; an id that is not in
    the list has no index. *)
Theorem index_map_last_position (locs : list Location) (id : string) :
  ((exists loc, loc ∈ locs /\ loc_id loc = id) ->
   exists (i : nat) (loc : Location),
     locationIndexMap locs !! id = Some i /\
     locs !! i = Some loc /\ loc_id loc = id /\
     forall (k : nat) (later : Location),
       (i < k)%nat -> locs !! k = Some later -> loc_id later ≠ id) /\
  ((forall loc, loc ∈ locs -> loc_id loc ≠ id) ->
   locationIndexMap locs !! id = None).
Proof. apply indexMap_lookup. Qed.

Lemma index_map_last_position_witness :
  (exists (i : nat) (loc : Location),
     locationIndexMap Sample.locs4 !! "b" = Some i /\
     Sample.locs4 !! i = Some loc /\ loc_id loc = "b" /\
     forall (k : nat) (later : Location),
       (i < k)%nat -> Sample.locs4 !! k = Some later -> loc_id later ≠ "b") /\
  locationIndexMap Sample.locs4 !! "z" = None.
Proof.
  split.
  - apply (index_map_last_position Sample.locs4 "b").
    exists Fixture.B. split; [|reflexivity].
    right. right. left.
  - apply (index_map_last_position Sample.locs4 "z").
    intros loc Hloc. unfold Sample.locs4 in Hloc.
    repeat (apply elem_of_cons in Hloc as [->|Hloc]; [discriminate|]).
    apply elem_of_nil in Hloc. contradiction.
Defined.

(** X3: every route of the builder starts at the depot, visits at least one
    location of the request other than the depot, and ends at the depot;
    each stop carries the id, name, coordinates and demand of its
    location, and the stops are numbered 0, 1, 2, ... in order. *)
Theorem route_shape (e : Env) (vehicles : list Vehicle) (locs : list Location)
    (depot : Location) (mult : Q) (dep : DepartureTime) (il : option Point)
    (delay : Q) (r : Route) :
  r ∈ runORToolsOptimization e vehicles locs depot mult dep il delay ->
  wellShaped locs depot r.
Proof.
  intros Hin.
  destruct (run_inv e vehicles locs depot mult dep il delay) as (used & Hws & _).
  rewrite Forall_forall in Hws. apply Hws. exact Hin.
Qed.

Lemma route_shape_witness :
  wellShaped Sample.locs4 Fixture.D Sample.firstBuilt4.
Proof.
  apply (route_shape Sample.env4 [Fixture.V] Sample.locs4 Fixture.D 1
           default_departure None 0).
  vm_compute. constructor.
Defined.

(** X4: no location is visited twice: the customer ids of all routes of one
    build, taken together, have no repetition. *)
Theorem customers_visited_once (e : Env) (vehicles : list Vehicle)
    (locs : list Location) (depot : Location) (mult : Q) (dep : DepartureTime)
    (il : option Point) (delay : Q) :
  NoDup (visitedIds depot
           (runORToolsOptimization e vehicles locs depot mult dep il delay)).
Proof.
  destruct (run_inv e vehicles locs depot mult dep il delay) as (used & _ & Hnd & _).
  exact Hnd.
Qed.

Lemma servedBy_vehicles (locs : list Location) (depot : Location)
    (final : list Route) (used : list VehicleSlot) (rs : list Route) :
  Forall2 (servedBy locs depot final) used rs ->
  map vehicle rs = map vs_id used.
Proof.
  induction 1 as [|vs r used rs (Hv & _) _ IH]; [reflexivity|].
  simpl. rewrite Hv, IH. reflexivity.
Qed.

(** X5: the routes follow the vehicle slots: the vehicles of the routes, in
    order, are a subsequence of the expanded vehicle slots, so there is
    at most one route per slot. *)
Theorem routes_follow_slots (e : Env) (vehicles : list Vehicle)
    (locs : list Location) (depot : Location) (mult : Q) (dep : DepartureTime)
    (il : option Point) (delay : Q) :
  let rs := runORToolsOptimization e vehicles locs depot mult dep il delay in
  map vehicle rs `sublist_of` map vs_id (expandVehicles vehicles) /\
  (List.length rs <= List.length (expandVehicles vehicles))%nat.
Proof.
  intros rs.
  destruct (run_inv e vehicles locs depot mult dep il delay)
    as (used & _ & _ & Hsub & Hserved).
  fold rs in Hserved.
  assert (H : map vehicle rs `sublist_of` map vs_id (expandVehicles vehicles)).
  { rewrite (servedBy_vehicles _ _ _ _ _ Hserved).
    change (map vs_id used) with (vs_id <$> used).
    change (map vs_id (expandVehicles vehicles))
      with (vs_id <$> expandVehicles vehicles).
    apply fmap_sublist. exact Hsub. }
  split; [exact H|].
  apply sublist_length in H. rewrite !length_map in H. exact H.
Qed.



(** In the sample with the oversize customer, that customer is the one
    left out: the two routes visit a and b. *)
Example oversize_customer_left_out :
  visitedIds Fixture.D Sample.built4 = ["a"; "b"].
Proof. vm_compute. reflexivity. Qed.

Lemma no_fit_no_route_run (e : Env) (vehicles : list Vehicle)
    (locs : list Location) (depot : Location) (mult : Q) (dep : DepartureTime)
    (il : option Point) (delay : Q) :
  (forall (v : Vehicle) (loc : Location),
     v ∈ vehicles -> loc ∈ locs -> loc_id loc ≠ loc_id depot ->
     (or_num (veh_capacity v) 0 < or_num (loc_demand loc) 0)%Q) ->
  runORToolsOptimization e vehicles locs depot mult dep il delay = [].
Proof.
  intros Hbig. unfold runORToolsOptimization. apply slotsLoop_no_fit.
  intros vs loc Hvs Hloc.
  apply expandVehicles_elem in Hvs as (v & Hv & _ & _ & ->).
  apply nonDepot_elem in Hloc as [Hne Hin]. apply (Hbig v loc); assumption.
Qed.

(** X7: if the demand of every customer exceeds the capacity of every
    vehicle, the builder returns no route at all. *)
Theorem no_fit_no_route (e : Env) (vehicles : list Vehicle)
    (locs : list Location) (depot : Location) (mult : Q) (dep : DepartureTime)
    (il : option Point) (delay : Q) :
  (forall (v : Vehicle) (loc : Location),
     v ∈ vehicles -> loc ∈ locs -> loc_id loc ≠ loc_id depot ->
     (or_num (veh_capacity v) 0 < or_num (loc_demand loc) 0)%Q) ->
  runORToolsOptimization e vehicles locs depot mult dep il delay = [].
Proof. apply no_fit_no_route_run. Qed.

Lemma no_fit_no_route_witness :
  runORToolsOptimization Sample.env4 [Fixture.V] [Fixture.D; Sample.C] Fixture.D
    1 default_departure None 0 = [].
Proof.
  apply no_fit_no_route. intros v loc Hv Hloc Hne.
  apply list_elem_of_singleton in Hv. subst v.
  apply elem_of_cons in Hloc as [->|Hloc]; [destruct Hne; reflexivity|].
  apply list_elem_of_singleton in Hloc. subst loc. reflexivity.
Defined.

(** X8: where the builder adds no delay, the duration of a route is the
    arrival time of its last stop, and the cumulative distance shown at
    the last stop is the distance of the route rounded to two
    decimals. *)
Theorem route_totals_match_last_stop (e : Env) (vehicles : list Vehicle)
    (locs : list Location) (depot : Location) (mult : Q) (dep : DepartureTime)
    (il : option Point) (delay : Q) (r : Route) :
  (delay <= 0)%Q ->
  r ∈ runORToolsOptimization e vehicles locs depot mult dep il delay ->
  exists (final : Stop) (minutes : Z),
    last (stops r) = Some final /\
    arrivalTime final = Some minutes /\
    duration r = inject_Z minutes /\
    cumulativeDistance final = toFixed2 (distance r).
Proof.
  intros Hdelay Hin.
  pose proof (route_shape_of_run := run_inv e vehicles locs depot mult dep il delay).
  destruct route_shape_of_run as (used & Hws & _).
  rewrite Forall_forall in Hws.
  destruct (Hws r Hin) as (first & visits & final0 & Hstops & _).
  destruct (run_measured e vehicles locs depot mult dep il delay r Hin)
    as ((Hdist & Hkm & Hdur) & (_ & Htimes) & _).
  assert (Hlast : last (stops r) = Some final0).
  { rewrite Hstops. change (first :: visits ++ [final0])
      with ((first :: visits) ++ [final0]). apply last_snoc. }
  assert (Hidx : stops r !! (List.length (stops r) - 1)%nat = Some final0).
  { rewrite <- Hlast, last_lookup. f_equal. lia. }
  destruct (Htimes _ _ Hidx) as [Harr _].
  exists final0, (round (Spec.cumulativeMinutes
                           (adjustedDurationMatrix
                              (durationMatrix (matrices e locs)) mult)
                           locs (map locationId (stops r))
                           (List.length (stops r) - 1))).
  split; [exact Hlast|]. split; [exact Harr|].
  split.
  - destruct Hdur as [Hd|[Hpos _]]; [exact Hd|lra].
  - rewrite (Hkm _ _ Hidx), Hdist. reflexivity.
Qed.

Lemma route_totals_match_last_stop_witness :
  exists (final : Stop) (minutes : Z),
    last (stops Fixture.firstBuilt) = Some final /\
    arrivalTime final = Some minutes /\
    duration Fixture.firstBuilt = inject_Z minutes /\
    cumulativeDistance final = toFixed2 (distance Fixture.firstBuilt).
Proof.
  apply (route_totals_match_last_stop Fixture.env [Fixture.V]
           [Fixture.D; Fixture.A; Fixture.B] Fixture.D 1 default_departure None 0).
  - discriminate.
  - vm_compute. constructor.
Defined.

(** X9: with matrices and a multiplier that are not negative, the arrival
    times and the cumulative distances do not decrease from one stop of
    a route to the next. *)
Theorem times_and_distances_grow (e : Env) (vehicles : list Vehicle)
    (locs : list Location) (depot : Location) (mult : Q) (dep : DepartureTime)
    (il : option Point) (delay : Q) (r : Route) (i : nat) (a b : Stop) :
  Forall (Forall (fun x => (0 <= x)%Q)) (distanceMatrix (matrices e locs)) ->
  Forall (Forall (fun x => (0 <= x)%Q)) (durationMatrix (matrices e locs)) ->
  (0 <= mult)%Q ->
  r ∈ runORToolsOptimization e vehicles locs depot mult dep il delay ->
  stops r !! i = Some a -> stops r !! S i = Some b ->
  exists ta tb : Z,
    arrivalTime a = Some ta /\ arrivalTime b = Some tb /\ (ta <= tb)%Z /\
    (0 <= ta)%Z /\
    (cumulativeDistance a <= cumulativeDistance b)%Q.
Proof.
  intros Hdist Hdur Hmult Hin Ha Hb.
  destruct (run_measured e vehicles locs depot mult dep il delay r Hin)
    as ((_ & Hkm & _) & (_ & Htimes) & _).
  destruct (Htimes _ _ Ha) as [Hta _]. destruct (Htimes _ _ Hb) as [Htb _].
  eexists. eexists. split; [exact Hta|]. split; [exact Htb|].
  set (ids := map locationId (stops r)) in *.
  pose proof (cumulativeMinutes_nonneg (durationMatrix (matrices e locs)) locs
                mult ids i Hdur Hmult) as Hnn.
  pose proof (cumulativeMinutes_nonneg (durationMatrix (matrices e locs)) locs
                mult ids (S i) Hdur Hmult) as Hnn'.
  rewrite (cumulativeMinutes_step (durationMatrix (matrices e locs)) locs mult) in Hnn' |- *.
  split.
  - apply round_mono.
    assert (0 <= Spec.durationFromPrev
                   (adjustedDurationMatrix (durationMatrix (matrices e locs)) mult)
                   locs ids (S i))%Q; [|lra].
    unfold Spec.durationFromPrev.
    destruct (ids !! (S i - 1)%nat); [|lra]. destruct (ids !! S i); [|lra].
    pose proof (at2_nonneg _ (Spec.position locs s) (Spec.position locs s0)
                  (adjusted_nonneg _ _ Hdur Hmult)).
    unfold SERVICE_TIME_MINUTES. destruct (_ =? _)%nat; lra.
  - split; [apply round_nonneg; exact Hnn|].
    rewrite (Hkm _ _ Ha), (Hkm _ _ Hb).
    destruct (cumulativeKm_nonneg (distanceMatrix (matrices e locs)) locs ids i Hdist)
      as [_ Hk].
    destruct (cumulativeKm_nonneg (distanceMatrix (matrices e locs)) locs ids (S i)
                Hdist) as [Hleg _].
    apply toFixed2_mono; [exact Hk|].
    rewrite (cumulativeKm_step (distanceMatrix (matrices e locs)) locs). lra.
Qed.

Lemma times_and_distances_grow_witness :
  exists ta tb : Z,
    arrivalTime Sample.stop0 = Some ta /\ arrivalTime Sample.stop1 = Some tb /\
    (ta <= tb)%Z /\ (0 <= ta)%Z /\
    (cumulativeDistance Sample.stop0 <= cumulativeDistance Sample.stop1)%Q.
Proof.
  apply (times_and_distances_grow Fixture.env [Fixture.V]
           [Fixture.D; Fixture.A; Fixture.B] Fixture.D 1 default_departure None 0
           Fixture.firstBuilt 0).
  - repeat (constructor; try (unfold Qle; simpl; lia)).
  - repeat (constructor; try (unfold Qle; simpl; lia)).
  - discriminate.
  - vm_compute. constructor.
  - reflexivity.
  - reflexivity.
Defined.

Lemma visit_order_run (e e' : Env) (vehicles : list Vehicle)
    (locs : list Location) (depot : Location) (mult mult' : Q)
    (dep dep' : DepartureTime) (il il' : option Point) (delay delay' : Q) :
  distanceMatrix (matrices e' locs) = distanceMatrix (matrices e locs) ->
  map skeleton (runORToolsOptimization e' vehicles locs depot mult' dep' il' delay')
  = map skeleton (runORToolsOptimization e vehicles locs depot mult dep il delay).
Proof.
  intros Hd. unfold runORToolsOptimization. rewrite Hd.
  apply slotsLoop_skeleton. reflexivity.
Qed.

(** X10: the order of the visits depends on the distance matrix only: two
    builds for the same vehicles, locations and depot whose distance
    matrices agree give the same vehicles, stops (with ids, numbers,
    demands and distances), route distances and used capacities, whatever
    the durations, the traffic multiplier, the departure time, the
    incident point and the delay are. *)
Theorem visit_order_ignores_times (e e' : Env) (vehicles : list Vehicle)
    (locs : list Location) (depot : Location) (mult mult' : Q)
    (dep dep' : DepartureTime) (il il' : option Point) (delay delay' : Q) :
  distanceMatrix (matrices e' locs) = distanceMatrix (matrices e locs) ->
  map skeleton (runORToolsOptimization e' vehicles locs depot mult' dep' il' delay')
  = map skeleton (runORToolsOptimization e vehicles locs depot mult dep il delay).
Proof. apply visit_order_run. Qed.

Lemma visit_order_ignores_times_witness :
  map skeleton
    (runORToolsOptimization Sample.slowEnv [Fixture.V]
       [Fixture.D; Fixture.A; Fixture.B] Fixture.D (3 # 2) Sample.late None 60)
  = map skeleton
      (runORToolsOptimization Fixture.env [Fixture.V]
         [Fixture.D; Fixture.A; Fixture.B] Fixture.D 1 default_departure None 0).
Proof. apply visit_order_ignores_times. reflexivity. Defined.

(** * Further properties of the request handlers *)

(** What a creation that answers with a document has checked and
    built. *)
Lemma createOptimization_built (e : Env) (req : CreateReq) (o : Run) :
  createOptimization e req = Json o ->
  exists (nm : string) (depot : Location) (mult : Q),
    let vs := Vehicle_find e (vehicles o) in
    let locs := Location_find e (locations o) in
    let dep := default default_departure (cr_departureTime req) in
    cr_name req = Some nm /\ blank nm = false /\ name o = nm /\
    cr_vehicleIds req = Some (vehicles o) /\
    cr_locationIds req = Some (locations o) /\
    (1 <= List.length (vehicles o) <= 20)%nat /\
    (1 <= List.length (locations o) <= 100)%nat /\
    findDepot locs = Some depot /\
    routes o = runORToolsOptimization e vs locs depot mult dep None 0 /\
    routes o <> [] /\
    totalDistance o = sumDistance (routes o) /\
    totalDuration o = sumDuration (routes o) /\
    isIncidentActive o = false /\ originalRoutes o = None /\
    incidentLocation o = None.
Proof.
  unfold createOptimization.
  destruct (cr_name req) as [nm|]; [|discriminate].
  destruct (blank nm) eqn:Hblank; [discriminate|].
  destruct (cr_vehicleIds req) as [[|v0 vids]|]; try discriminate.
  destruct (cr_locationIds req) as [[|l0 lids]|]; try discriminate.
  destruct (Nat.ltb_spec 100 (List.length (l0 :: lids))); [discriminate|].
  destruct (Nat.ltb_spec 20 (List.length (v0 :: vids))); [discriminate|].
  destruct (Vehicle_find e (v0 :: vids)) as [|veh vehs] eqn:Hvs; [discriminate|].
  destruct (Location_find e (l0 :: lids)) as [|loc locs] eqn:Hlocs; [discriminate|].
  destruct (findDepot (loc :: locs)) as [depot|] eqn:Hdepot; [|discriminate].
  destruct (runORToolsOptimization _ _ _ _ _ _ _ _) as [|r rs] eqn:Hrun;
    [discriminate|].
  intros [= <-]. simpl. rewrite Hvs, Hlocs.
  exists nm, depot. eexists. rewrite Hrun.
  split; [reflexivity|]. split; [exact Hblank|]. split; [reflexivity|].
  split; [reflexivity|]. split; [reflexivity|].
  split; [simpl in *; lia|]. split; [simpl in *; lia|].
  split; [exact Hdepot|]. split; [reflexivity|]. split; [discriminate|].
  auto.
Qed.

Lemma findDepot_Some (locs : list Location) (depot : Location) :
  findDepot locs = Some depot -> depot ∈ locs /\ isDepot depot = true.
Proof.
  unfold findDepot. intros H. apply find_some in H as [Hin Hd].
  split; [apply list_elem_of_In; exact Hin|exact Hd].
Qed.

(** X11: a creation that answers with a document has passed every check (a
    name that is not blank, 1 to 20 vehicle ids, 1 to 100 location ids, a
    depot among the locations found); the document has at least one
    route, every route is a round trip from that depot over locations
    found, the totals are the sums over the routes, and no incident is
    active. *)
Theorem created_run_is_sound (e : Env) (req : CreateReq) (o : Run) :
  createOptimization e req = Json o ->
  exists depot : Location,
    let locs := Location_find e (locations o) in
    (exists nm, cr_name req = Some nm /\ blank nm = false /\ name o = nm) /\
    (1 <= List.length (vehicles o) <= 20)%nat /\
    (1 <= List.length (locations o) <= 100)%nat /\
    depot ∈ locs /\ isDepot depot = true /\
    routes o <> [] /\
    Forall (wellShaped locs depot) (routes o) /\
    NoDup (visitedIds depot (routes o)) /\
    (totalDistance o == Spec.total (map distance (routes o)))%Q /\
    (totalDuration o == Spec.total (map duration (routes o)))%Q /\
    isIncidentActive o = false /\ originalRoutes o = None /\
    incidentLocation o = None.
Proof.
  intros Hcreate.
  apply createOptimization_built in Hcreate
    as (nm & depot & mult & Hnm & Hblank & Hname & _ & _ & Hnv & Hnl & Hdepot
        & Hroutes & Hne & Hdist & Hdur & Hflag & Horig & Hloc).
  exists depot. simpl.
  apply findDepot_Some in Hdepot as [Hin Hd].
  split; [exists nm; auto|]. split; [exact Hnv|]. split; [exact Hnl|].
  split; [exact Hin|]. split; [exact Hd|]. split; [exact Hne|].
  destruct (run_inv e (Vehicle_find e (vehicles o)) (Location_find e (locations o))
              depot mult (default default_departure (cr_departureTime req)) None 0)
    as (used & Hws & Hnd & _).
  rewrite <- Hroutes in Hws, Hnd.
  split; [exact Hws|]. split; [exact Hnd|].
  split; [rewrite Hdist; apply sumDistance_total|].
  split; [rewrite Hdur; apply sumDuration_total|]. auto.
Qed.

Lemma created_run_is_sound_witness :
  exists depot : Location,
    let locs := Location_find Fixture.env (locations Fixture.createdRun) in
    (exists nm, cr_name Fixture.plainCreate = Some nm /\ blank nm = false /\
                name Fixture.createdRun = nm) /\
    (1 <= List.length (vehicles Fixture.createdRun) <= 20)%nat /\
    (1 <= List.length (locations Fixture.createdRun) <= 100)%nat /\
    depot ∈ locs /\ isDepot depot = true /\
    routes Fixture.createdRun <> [] /\
    Forall (wellShaped locs depot) (routes Fixture.createdRun) /\
    NoDup (visitedIds depot (routes Fixture.createdRun)) /\
    (totalDistance Fixture.createdRun
     == Spec.total (map distance (routes Fixture.createdRun)))%Q /\
    (totalDuration Fixture.createdRun
     == Spec.total (map duration (routes Fixture.createdRun)))%Q /\
    isIncidentActive Fixture.createdRun = false /\
    originalRoutes Fixture.createdRun = None /\
    incidentLocation Fixture.createdRun = None.
Proof.
  apply (created_run_is_sound Fixture.env Fixture.plainCreate).
  vm_compute. reflexivity.
Defined.

(** X12: if the demand of every customer found exceeds the capacity of every
    vehicle found, creation never answers with a document: a request
    that passes the checks is answered with status 500. *)
Theorem create_fails_when_nothing_fits (e : Env) (req : CreateReq)
    (vids lids : list string) :
  cr_vehicleIds req = Some vids -> cr_locationIds req = Some lids ->
  (forall (v : Vehicle) (loc depot : Location),
     v ∈ Vehicle_find e vids -> loc ∈ Location_find e lids ->
     findDepot (Location_find e lids) = Some depot ->
     loc_id loc ≠ loc_id depot ->
     (or_num (veh_capacity v) 0 < or_num (loc_demand loc) 0)%Q) ->
  (forall o : Run, createOptimization e req <> Json o) /\
  (forall nm : string,
     cr_name req = Some nm -> blank nm = false ->
     vids <> [] -> lids <> [] ->
     (List.length vids <= 20)%nat -> (List.length lids <= 100)%nat ->
     Vehicle_find e vids <> [] ->
     is_Some (findDepot (Location_find e lids)) ->
     createOptimization e req = Status 500 "OR-Tools optimization failed").
Proof.
  intros Hvids Hlids Hbig.
  assert (Hempty : forall depot mult dep,
             findDepot (Location_find e lids) = Some depot ->
             runORToolsOptimization e (Vehicle_find e vids) (Location_find e lids)
               depot mult dep None 0 = []).
  { intros depot mult dep Hdepot. apply no_fit_no_route_run.
    intros v loc Hv Hloc Hne. eapply Hbig; eassumption. }
  split.
  - intros o Hcreate.
    apply createOptimization_built in Hcreate
      as (nm & depot & mult & _ & _ & _ & Hv & Hl & _ & _ & Hdepot & Hroutes & Hne & _).
    rewrite Hvids in Hv. rewrite Hlids in Hl.
    injection Hv as Hv. injection Hl as Hl. rewrite <- Hv, <- Hl in *.
    apply Hne. rewrite Hroutes. apply Hempty. exact Hdepot.
  - intros nm Hnm Hblank Hv Hl Hnv Hnl Hfound [depot Hdepot].
    unfold createOptimization. rewrite Hnm, Hblank, Hvids, Hlids.
    destruct vids as [|v0 vids0]; [congruence|].
    destruct lids as [|l0 lids0]; [congruence|].
    destruct (Nat.ltb_spec 100 (List.length (l0 :: lids0))); [lia|].
    destruct (Nat.ltb_spec 20 (List.length (v0 :: vids0))); [lia|].
    destruct (Vehicle_find e (v0 :: vids0)) as [|veh vehs] eqn:Hvs; [congruence|].
    destruct (Location_find e (l0 :: lids0)) as [|loc locs] eqn:Hlocs;
      [discriminate|].
    rewrite Hdepot. rewrite (Hempty depot _ _ Hdepot). reflexivity.
Qed.

Lemma create_fails_when_nothing_fits_witness :
  createOptimization Sample.envC Fixture.plainCreate
    = Status 500 "OR-Tools optimization failed".
Proof.
  destruct (create_fails_when_nothing_fits Sample.envC Fixture.plainCreate
              ["v"] ["d"; "a"; "b"] eq_refl eq_refl) as [_ H].
  - intros v loc depot Hv Hloc Hdepot Hne.
    injection Hdepot as <-.
    apply list_elem_of_singleton in Hv. subst v.
    apply elem_of_cons in Hloc as [->|Hloc]; [destruct Hne; reflexivity|].
    apply list_elem_of_singleton in Hloc. subst loc. reflexivity.
  - apply (H "run"); try reflexivity; try discriminate; simpl; try lia.
    eexists. reflexivity.
Defined.

(** X14: a simulate request that supplies a point uses exactly that point when
    its latitude and longitude are both numbers other than zero; a point
    with a zero coordinate is set aside and the midpoint of
    the first route's first leg is used instead. *)
Theorem supplied_point_used_unless_zero (e : Env) (o : Run) (req : RerouteReq)
    (depot : Location) (p : Point) :
  findDepot (populate_locations e (locations o)) = Some depot ->
  rr_incidentLocation req = Some p ->
  exists o1 : Run,
    rerouteOptimization e (Some o) req = Json o1 /\
    (forall lat lon : Q,
       pt_latitude p = CNum lat -> pt_longitude p = CNum lon ->
       ~ (lat == 0)%Q -> ~ (lon == 0)%Q ->
       incidentLocation o1 = Some p) /\
    (forall x : Q,
       (x == 0)%Q -> pt_latitude p = CNum x \/ pt_longitude p = CNum x ->
       incidentLocation o1 = midpointFallback (routes o)).
Proof.
  intros Hd Hp.
  destruct (reroute_always_accepted e o req depot Hd) as (o1 & Hresp & _ & _ & Hloc).
  exists o1. split; [exact Hresp|].
  rewrite Hloc. unfold finalIncidentLocation. rewrite Hp.
  split.
  - intros lat lon Hlat Hlon Hnz1 Hnz2. rewrite Hlat, Hlon. simpl.
    destruct (Qeq_bool lat 0) eqn:E1; [apply Qeq_bool_eq in E1; contradiction|].
    destruct (Qeq_bool lon 0) eqn:E2; [apply Qeq_bool_eq in E2; contradiction|].
    simpl. destruct p as [plat plon]. simpl in *. subst. reflexivity.
  - intros x Hx [Hlat|Hlon].
    + rewrite Hlat. simpl. rewrite (Qeq_eq_bool _ _ Hx). reflexivity.
    + rewrite Hlon. simpl. rewrite (Qeq_eq_bool _ _ Hx).
      rewrite andb_false_r. reflexivity.
Qed.

Lemma supplied_point_used_unless_zero_witness :
  (exists o1 : Run,
     rerouteOptimization Fixture.env (Some Fixture.createdRun)
       (Sample.accidentAt 1 3) = Json o1 /\
     incidentLocation o1
       = Some {| pt_latitude := CNum 1; pt_longitude := CNum 3 |}) /\
  (exists o1 : Run,
     rerouteOptimization Fixture.env (Some Fixture.createdRun)
       (Sample.accidentAt 0 3) = Json o1 /\
     incidentLocation o1 = midpointFallback (routes Fixture.createdRun)).
Proof.
  split.
  - destruct (supplied_point_used_unless_zero Fixture.env Fixture.createdRun
                (Sample.accidentAt 1 3) Fixture.D
                {| pt_latitude := CNum 1; pt_longitude := CNum 3 |}
                eq_refl eq_refl) as (o1 & Hresp & Huse & _).
    exists o1. split; [exact Hresp|].
    apply (Huse 1%Q 3%Q); try reflexivity; discriminate.
  - destruct (supplied_point_used_unless_zero Fixture.env Fixture.createdRun
                (Sample.accidentAt 0 3) Fixture.D
                {| pt_latitude := CNum 0; pt_longitude := CNum 3 |}
                eq_refl eq_refl) as (o1 & Hresp & _ & Hzero).
    exists o1. split; [exact Hresp|].
    apply (Hzero 0%Q); [reflexivity|left; reflexivity].
Defined.

Lemma sumDistance_skeleton (rs rs' : list Route) :
  map skeleton rs = map skeleton rs' -> sumDistance rs = sumDistance rs'.
Proof.
  unfold sumDistance.
  assert (G : forall acc : Q,
             map skeleton rs = map skeleton rs' ->
             foldl (fun a r => (a + or_num (distance r) 0)%Q) acc rs
             = foldl (fun a r => (a + or_num (distance r) 0)%Q) acc rs').
  { revert rs'. induction rs as [|r rs IH]; intros [|r' rs'] acc H;
      try discriminate; [reflexivity|].
    pose proof (f_equal (hd (skeleton r)) H) as Hr.
    pose proof (f_equal (@tl _) H) as Hrs. simpl in Hr, Hrs.
    pose proof (f_equal (fun t => snd (fst t)) Hr) as Hd. simpl in Hd.
    simpl. rewrite Hd. apply IH. exact Hrs. }
  apply G.
Qed.

(** X15: what a simulate request builds depends on the run only through
    its vehicles, its locations and its departure time, and otherwise on
    what the store, the matrix service and the language model answer to
    this request: two requests for which the store and the matrix
    service answer alike give the same total distance and the same
    visits, whatever the routes, the totals and the incident state of
    the two runs and the incident points were; they give the same total
    duration if the language model answers the same delay. *)
Theorem reroute_reads_only_the_answers (e e' : Env) (o o' : Run)
    (req req' : RerouteReq) (o1 o1' : Run) :
  populate_vehicles e' (vehicles o') = populate_vehicles e (vehicles o) ->
  populate_locations e' (locations o') = populate_locations e (locations o) ->
  departureTime o' = departureTime o ->
  matrices e' (populate_locations e (locations o))
    = matrices e (populate_locations e (locations o)) ->
  rerouteOptimization e (Some o) req = Json o1 ->
  rerouteOptimization e' (Some o') req' = Json o1' ->
  totalDistance o1' = totalDistance o1 /\
  map skeleton (routes o1') = map skeleton (routes o1) /\
  (appliedDelay (analyzeIncidentImpact (gemini e'))
   = appliedDelay (analyzeIncidentImpact (gemini e)) ->
   totalDuration o1' = totalDuration o1).
Proof.
  intros Hv Hl Hdep Hmx H1 H1'.
  unfold rerouteOptimization in H1, H1'. rewrite Hv, Hl, Hdep in H1'.
  destruct (findDepot (populate_locations e (locations o))) as [depot|];
    [|discriminate].
  injection H1 as <-. injection H1' as <-. simpl.
  split; [|split].
  - apply sumDistance_skeleton.
    apply visit_order_run. rewrite Hmx. reflexivity.
  - apply visit_order_run. rewrite Hmx. reflexivity.
  - intros Hdelay. rewrite Hdelay.
    apply (run_totals e e'). exact Hmx.
Qed.

Lemma reroute_reads_only_the_answers_witness :
  totalDistance Sample.again = totalDistance Sample.activeRun /\
  map skeleton (routes Sample.again) = map skeleton (routes Sample.activeRun).
Proof.
  destruct (reroute_reads_only_the_answers Fixture.env (Sample.answering 120)
              Fixture.createdRun Sample.activeRun (Fixture.accident 0)
              (Sample.accidentAt 1 3) Sample.activeRun Sample.again)
    as (Hdist & Hvisits & _); try reflexivity; auto.
Defined.

(** The two simulate requests of the sample: the language model is not
    asked for the first (60 minutes) and answers 120 minutes to the
    second, so the total duration is 142 and then 202 minutes. *)
Example repeated_simulate_durations :
  (totalDuration Sample.activeRun == 142)%Q /\
  (totalDuration Sample.again == 202)%Q.
Proof. split; vm_compute; reflexivity. Qed.

Ltac not_a_complaint :=
  let Hin := fresh "Hin" in
  intros [= <- <-]; intros Hin;
  repeat (apply elem_of_cons in Hin as [Hin|Hin]; [discriminate Hin|]);
  apply elem_of_nil in Hin; exact Hin.

(** X13: a create request whose body fails a check is refused before anything
    is read: the answer is a 400 with one of the five messages of the
    checks, and it is the same whatever the store, the road services and
    the language model would answer. A body that passes the checks never
    gets one of these five messages. *)
Theorem create_checks_body_first (e : Env) (req : CreateReq) :
  (Body.accepted req = false ->
   (exists msg : string,
      msg ∈ Body.complaints /\ createOptimization e req = Status 400 msg) /\
   forall e' : Env, createOptimization e' req = createOptimization e req) /\
  (Body.accepted req = true ->
   forall (code : Z) (msg : string),
     createOptimization e req = Status code msg -> msg ∉ Body.complaints).
Proof.
  unfold Body.accepted, Body.sized, Body.complaints, createOptimization.
  split.
  - intros Hbad.
    destruct (cr_name req) as [nm|];
      [|split; [eexists; split; [|reflexivity]; repeat constructor|reflexivity]].
    destruct (blank nm);
      [split; [eexists; split; [|reflexivity]; repeat constructor|reflexivity]|].
    destruct (cr_vehicleIds req) as [[|v0 vids]|];
      try (split; [eexists; split; [|reflexivity]; repeat constructor|reflexivity]).
    destruct (cr_locationIds req) as [[|l0 lids]|];
      try (split; [eexists; split; [|reflexivity]; repeat constructor|reflexivity]).
    destruct (Nat.ltb_spec 100 (List.length (l0 :: lids)));
      [split; [eexists; split; [|reflexivity]; repeat constructor|reflexivity]|].
    destruct (Nat.ltb_spec 20 (List.length (v0 :: vids)));
      [split; [eexists; split; [|reflexivity]; repeat constructor|reflexivity]|].
    rewrite !(proj2 (Nat.leb_le _ _)) in Hbad by assumption.
    discriminate.
  - intros Hok code msg.
    destruct (cr_name req) as [nm|]; [|discriminate].
    destruct (blank nm); [discriminate|].
    destruct (cr_vehicleIds req) as [[|v0 vids]|]; try discriminate.
    destruct (cr_locationIds req) as [[|l0 lids]|];
      try (rewrite andb_false_r in Hok; discriminate).
    apply andb_prop in Hok as [Hv Hl].
    apply andb_prop in Hv as [_ Hv].
    apply Nat.leb_le in Hv, Hl.
    destruct (Nat.ltb_spec 100 (List.length (l0 :: lids))); [simpl in *; lia|].
    destruct (Nat.ltb_spec 20 (List.length (v0 :: vids))); [simpl in *; lia|].
    destruct (Vehicle_find e (v0 :: vids));
      [not_a_complaint|].
    destruct (Location_find e (l0 :: lids)) as [|loc locs];
      [not_a_complaint|].
    destruct (findDepot (loc :: locs));
      [|not_a_complaint].
    destruct (runORToolsOptimization _ _ _ _ _ _ _ _);
      [not_a_complaint|discriminate].
Qed.

(** White space of more than one byte is white space: a no-break space
    and a line separator are blank, a letter between them is not. *)
Example blank_beyond_ascii :
  blank (Sample.nbsp ++ Sample.lineSeparator)%string = true /\
  blank (Sample.nbsp ++ "a" ++ Sample.lineSeparator)%string = false /\
  createOptimization Fixture.env Sample.unnamed
  = Status 400 "Valid optimization name is required".
Proof. repeat split. Qed.

Lemma create_checks_body_first_witness :
  (exists msg : string,
     msg ∈ Body.complaints /\
     createOptimization Fixture.env Sample.unnamed = Status 400 msg) /\
  forall (code : Z) (msg : string),
    createOptimization Sample.envC Fixture.plainCreate = Status code msg ->
    msg ∉ Body.complaints.
Proof.
  split.
  - apply (create_checks_body_first Fixture.env Sample.unnamed). reflexivity.
  - apply (create_checks_body_first Sample.envC Fixture.plainCreate). reflexivity.
Defined.

(** ** The road services *)

Lemma at2_scaled (f : Q -> Q) (m : list (list Q)) (i j : nat) :
  (f 0 == 0)%Q ->
  (at2 (map (map f) m) i j == f (at2 m i j))%Q.
Proof.
  intros H0. unfold at2.
  change (map (map f) m) with (map f <$> m). rewrite list_lookup_fmap.
  destruct (m !! i) as [row|]; simpl; [|symmetry; exact H0].
  change (map f row) with (f <$> row). rewrite list_lookup_fmap.
  destruct (row !! j); simpl; [reflexivity|symmetry; exact H0].
Qed.

Lemma getRoadMatrix_Some (token : option string)
    (fetch : list (coord * coord) -> option Mapbox.MatrixAnswer)
    (locs : list Location) (md : MatrixData) :
  Mapbox.getRoadMatrix token fetch locs = Some md ->
  given token = true /\
  exists (response : Mapbox.MatrixAnswer) (distances durations : list (list Q)),
    fetch (map (fun loc => (loc_longitude loc, loc_latitude loc)) locs)
      = Some response /\
    Mapbox.ma_ok response = true /\
    Mapbox.ma_distances response = Some distances /\
    Mapbox.ma_durations response = Some durations /\
    md = {| distanceMatrix := map (map (fun dist => (dist / 1000)%Q)) distances;
            durationMatrix := map (map (fun dur => (dur / 60)%Q)) durations;
            md_success := true |}.
Proof.
  unfold Mapbox.getRoadMatrix.
  destruct (given token); simpl; [|discriminate].
  destruct (fetch _) as [response|] eqn:Hf; [|discriminate].
  destruct (Mapbox.ma_ok response) eqn:Hok; simpl; [|discriminate].
  destruct (Mapbox.ma_distances response) as [distances|] eqn:Hd; [|discriminate].
  destruct (Mapbox.ma_durations response) as [durations|] eqn:Ht; [|discriminate].
  intros [= <-]. split; [reflexivity|].
  exists response, distances, durations. auto 10.
Qed.

(** X18: when the matrix service is used, its answer is converted entry by
    entry: every distance is the service's distance divided by 1000
    (metres to kilometres), every duration the service's duration divided
    by 60 (seconds to minutes), the shape of the two matrices is kept,
    and the result is marked as real road data. This happens only with a
    token, an answer with an ok status and both fields in its body. *)
Theorem road_matrix_conversion (token : option string)
    (fetch : list (coord * coord) -> option Mapbox.MatrixAnswer)
    (locs : list Location) (md : MatrixData) :
  Mapbox.getRoadMatrix token fetch locs = Some md ->
  given token = true /\ md_success md = true /\
  exists (response : Mapbox.MatrixAnswer) (distances durations : list (list Q)),
    fetch (map (fun loc => (loc_longitude loc, loc_latitude loc)) locs)
      = Some response /\
    Mapbox.ma_ok response = true /\
    Mapbox.ma_distances response = Some distances /\
    Mapbox.ma_durations response = Some durations /\
    map (@List.length Q) (distanceMatrix md) = map (@List.length Q) distances /\
    map (@List.length Q) (durationMatrix md) = map (@List.length Q) durations /\
    (forall i j : nat,
       (at2 (distanceMatrix md) i j == at2 distances i j / 1000)%Q) /\
    (forall i j : nat,
       (at2 (durationMatrix md) i j == at2 durations i j / 60)%Q).
Proof.
  intros H.
  apply getRoadMatrix_Some in H
    as (Htoken & response & distances & durations & Hf & Hok & Hd & Ht & ->).
  split; [exact Htoken|]. split; [reflexivity|].
  exists response, distances, durations. simpl.
  split; [exact Hf|]. split; [exact Hok|]. split; [exact Hd|].
  split; [exact Ht|].
  split; [rewrite map_map; apply map_ext; intros row; apply length_map|].
  split; [rewrite map_map; apply map_ext; intros row; apply length_map|].
  split; intros i j.
  - apply (at2_scaled (fun dist => (dist / 1000)%Q)). reflexivity.
  - apply (at2_scaled (fun dur => (dur / 60)%Q)). reflexivity.
Qed.

Lemma road_matrix_conversion_witness :
  exists md : MatrixData,
    Mapbox.getRoadMatrix (Some "token") Sample.fetchMatrix [Fixture.D; Fixture.A]
      = Some md /\
    (at2 (distanceMatrix md) 0 1 == 5)%Q /\
    (at2 (durationMatrix md) 0 1 == 10)%Q.
Proof.
  eexists. split; [reflexivity|].
  destruct (road_matrix_conversion (Some "token") Sample.fetchMatrix
              [Fixture.D; Fixture.A] _ eq_refl)
    as (_ & _ & response & distances & durations & Hf & _ & Hd & Ht & _ & _
        & Hkm & Hmin).
  injection Hf as <-. injection Hd as <-. injection Ht as <-.
  split; [rewrite Hkm|rewrite Hmin]; reflexivity.
Defined.

(** X19: what the directions function sends. It sends no request without a
    token or for fewer than two stops, and at most two requests
    otherwise; every request carries the coordinates of the stops in
    order. Without an incident point it sends at most one request, with
    no exclusion. A second request is sent only when an incident point
    was given and the first answer had a failing status, and it carries
    no exclusion. A geometry that is returned is the first route of the
    last request's answer, which had an ok status. *)
Theorem directions_request_discipline (token : option string)
    (fetch : Mapbox.DirectionsRequest -> option Mapbox.DirectionsAnswer)
    (stops : list Stop) (il : option Point) :
  let g := fst (Mapbox.getRouteGeometry token fetch stops il) in
  let sent := snd (Mapbox.getRouteGeometry token fetch stops il) in
  (List.length sent <= 2)%nat /\
  Forall (fun request =>
            Mapbox.dr_coordinates request
            = map (fun stop => (longitude stop, latitude stop)) stops) sent /\
  (given token = false \/ (List.length stops < 2)%nat ->
   sent = [] /\ g = None) /\
  (il = None ->
   (List.length sent <= 1)%nat /\
   Forall (fun request => Mapbox.dr_exclude request = None) sent) /\
  (forall first second : Mapbox.DirectionsRequest,
     sent = [first; second] ->
     Mapbox.dr_exclude second = None /\ il <> None /\
     exists response : Mapbox.DirectionsAnswer,
       fetch first = Some response /\ Mapbox.da_ok response = false) /\
  (forall coordinates : Coordinates,
     g = Some coordinates ->
     exists (request : Mapbox.DirectionsRequest)
            (response : Mapbox.DirectionsAnswer),
       last sent = Some request /\ fetch request = Some response /\
       Mapbox.da_ok response = true /\
       Mapbox.firstRouteOf response = Some coordinates).
Proof.
  unfold Mapbox.getRouteGeometry.
  destruct (given token) eqn:Htoken; simpl.
  2:{ repeat split; auto; try discriminate. }
  destruct (Nat.ltb_spec (List.length stops) 2) as [Hlen|Hlen]; simpl.
  { repeat split; auto; try discriminate. }
  set (coordinates := map (fun stop => (longitude stop, latitude stop)) stops).
  set (exclude := match il with
                  | Some p =>
                      if truthy (pt_latitude p) && truthy (pt_longitude p)
                      then Some p else None
                  | None => None
                  end).
  set (request := {| Mapbox.dr_coordinates := coordinates;
                     Mapbox.dr_exclude := exclude |}).
  set (fallbackRequest := {| Mapbox.dr_coordinates := coordinates;
                             Mapbox.dr_exclude := None |}).
  assert (Hnone : il = None -> Mapbox.dr_exclude request = None).
  { intros ->. reflexivity. }
  destruct (fetch request) as [response|] eqn:Hfetch; simpl.
  2:{ split; [lia|]. split; [repeat constructor|].
      split; [intros [?|?]; [discriminate|lia]|].
      split; [intros Hil; split; [lia|repeat constructor; auto]|].
      split; [discriminate|discriminate]. }
  destruct (Mapbox.da_ok response) eqn:Hok; simpl.
  { split; [lia|]. split; [repeat constructor|].
    split; [intros [?|?]; [discriminate|lia]|].
    split; [intros Hil; split; [lia|repeat constructor; auto]|].
    split; [discriminate|].
    intros coords Hg. exists request, response. auto 10. }
  destruct il as [p|]; simpl.
  2:{ split; [lia|]. split; [repeat constructor|].
      split; [intros [?|?]; [discriminate|lia]|].
      split; [intros Hil; split; [lia|repeat constructor; auto]|].
      split; [discriminate|discriminate]. }
  assert (Hsecond : forall first second : Mapbox.DirectionsRequest,
            [request; fallbackRequest] = [first; second] ->
            Mapbox.dr_exclude second = None /\ Some p <> None /\
            exists response0 : Mapbox.DirectionsAnswer,
              fetch first = Some response0 /\ Mapbox.da_ok response0 = false).
  { intros first second [= <- <-]. split; [reflexivity|].
    split; [discriminate|]. exists response. auto. }
  destruct (fetch fallbackRequest) as [fallbackResponse|] eqn:Hfetch2; simpl.
  2:{ split; [lia|]. split; [repeat constructor|].
      split; [intros [?|?]; [discriminate|lia]|].
      split; [discriminate|]. split; [exact Hsecond|discriminate]. }
  destruct (Mapbox.da_ok fallbackResponse) eqn:Hok2; simpl.
  - split; [lia|]. split; [repeat constructor|].
    split; [intros [?|?]; [discriminate|lia]|].
    split; [discriminate|]. split; [exact Hsecond|].
    intros coords Hg. exists fallbackRequest, fallbackResponse. auto 10.
  - split; [lia|]. split; [repeat constructor|].
    split; [intros [?|?]; [discriminate|lia]|].
    split; [discriminate|]. split; [exact Hsecond|discriminate].
Qed.



(** X21: without a token neither service is asked: the build does not depend
    on what the services would answer, no directions request is sent,
    and every route is measured on the fallback matrices, carries no
    geometry and is not marked as real road data. *)
Theorem without_token_nothing_is_asked (token : option string)
    (fetchMatrix fetchMatrix' : list (coord * coord) -> option Mapbox.MatrixAnswer)
    (fetchDirections fetchDirections'
       : Mapbox.DirectionsRequest -> option Mapbox.DirectionsAnswer)
    (base : Env) (vehicles : list Vehicle) (locs : list Location)
    (depot : Location) (mult : Q) (dep : DepartureTime) (il : option Point)
    (delay : Q) :
  given token = false ->
  let e := Mapbox.withServices token fetchMatrix fetchDirections base in
  let e' := Mapbox.withServices token fetchMatrix' fetchDirections' base in
  runORToolsOptimization e' vehicles locs depot mult dep il delay
  = runORToolsOptimization e vehicles locs depot mult dep il delay /\
  matrices e locs = fst (calculateFallbackMatrix (Math base) locs) /\
  (forall stops : list Stop,
     snd (Mapbox.getRouteGeometry token fetchDirections stops il) = []) /\
  Forall (fun r => geometry r = None /\ usingRealRoadData r = false)
    (runORToolsOptimization e vehicles locs depot mult dep il delay).
Proof.
  intros Htoken e e'.
  assert (Hroad : forall f, Mapbox.getRoadMatrix token f locs = None).
  { intros f. unfold Mapbox.getRoadMatrix. rewrite Htoken. reflexivity. }
  assert (Hdir : forall f stops, Mapbox.getRouteGeometry token f stops il = (None, [])).
  { intros f stops. unfold Mapbox.getRouteGeometry. rewrite Htoken. reflexivity. }
  split.
  - unfold e, e'. destruct token as [[|c s]|]; [|discriminate|]; reflexivity.
  - split; [unfold matrices, e; simpl; rewrite Hroad; reflexivity|].
    split; [intros stops; rewrite Hdir; reflexivity|].
    apply Forall_forall. intros r Hin.
    apply run_measured in Hin as (_ & _ & Hflag & Hgeo).
    rewrite Hgeo, Hflag. unfold realData, e. simpl.
    rewrite Hroad, Hdir. auto.
Qed.

Lemma without_token_nothing_is_asked_witness :
  Forall (fun r => geometry r = None /\ usingRealRoadData r = false)
    (runORToolsOptimization Sample.unserved [Fixture.V]
       [Fixture.D; Fixture.A; Fixture.B] Fixture.D 1 default_departure None 0).
Proof.
  apply (without_token_nothing_is_asked None Sample.fetchMatrix Sample.fetchMatrix
           Sample.fetchDirections Sample.fetchDirections Fixture.env
           [Fixture.V] [Fixture.D; Fixture.A; Fixture.B] Fixture.D 1
           default_departure None 0 eq_refl).
Defined.

(** ** The straight-line polyline *)

(** X22: for a run that creation answered with, the polyline of every route
    index within range starts and ends at the depot's coordinates (as
    longitude, latitude), has at least one point between them, and
    carries the route's distance; every index past the last route is
    answered with 404 and "Route not found". *)
Theorem polyline_of_created_run (e : Env) (req : CreateReq) (o : Run) :
  createOptimization e req = Json o ->
  exists depot : Location,
    findDepot (Location_find e (locations o)) = Some depot /\
    forall i : nat,
      match routes o !! i with
      | Some r =>
          exists between : list (coord * coord),
            between <> [] /\
            Polyline.getRoutedPolyline (Some o) (Some i)
            = Polyline.PolylineJson
                ((loc_longitude depot, loc_latitude depot)
                   :: between ++ [(loc_longitude depot, loc_latitude depot)])
                (distance r) (round (duration r / 60))
      | None =>
          Polyline.getRoutedPolyline (Some o) (Some i)
          = Polyline.PolylineStatus 404 "Route not found"
      end.
Proof.
  intros Hcreate.
  apply createOptimization_built in Hcreate
    as (nm & depot & mult & _ & _ & _ & _ & _ & _ & _ & Hdepot & Hroutes & _).
  exists depot. split; [exact Hdepot|].
  intros i. unfold Polyline.getRoutedPolyline. simpl.
  destruct (routes o !! i) as [r|] eqn:Hr; [|reflexivity].
  destruct (run_inv e (Vehicle_find e (vehicles o)) (Location_find e (locations o))
              depot mult (default default_departure (cr_departureTime req)) None 0)
    as (used & Hws & _).
  rewrite <- Hroutes in Hws.
  apply (Forall_lookup_1 _ _ _ _ Hws) in Hr
    as (first & visits & final & Hstops & Hne & Hfirst & Hfinal & _).
  destruct Hfirst as (_ & _ & Hlat1 & Hlon1 & _).
  destruct Hfinal as (_ & _ & Hlat2 & Hlon2 & _).
  exists (map (fun stop => (longitude stop, latitude stop)) visits).
  split; [destruct visits; [contradiction|discriminate]|].
  rewrite Hstops. simpl. rewrite map_app. simpl.
  rewrite Hlat1, Hlon1, Hlat2, Hlon2. reflexivity.
Qed.

Lemma polyline_of_created_run_witness :
  exists between : list (coord * coord),
    between <> [] /\
    Polyline.getRoutedPolyline (Some Fixture.createdRun) (Some 0%nat)
    = Polyline.PolylineJson
        ((loc_longitude Fixture.D, loc_latitude Fixture.D)
           :: between ++ [(loc_longitude Fixture.D, loc_latitude Fixture.D)])
        (distance Fixture.firstBuilt) (round (duration Fixture.firstBuilt / 60)).
Proof.
  destruct (polyline_of_created_run Fixture.env Fixture.plainCreate
              Fixture.createdRun eq_refl) as (depot & Hdepot & Hline).
  injection Hdepot as <-.
  exact (Hline 0%nat).
Defined.

(** ** The page *)

(** X25: the point that the page proposes. When the first route has no
    geometry the page proposes the midpoint of the route's first two
    stops, and the server then uses exactly that midpoint whether it
    accepts the proposed point or falls back to its own computation.
    When the first route has a geometry with at least one point, the
    page proposes the point in the middle of that geometry (index: half
    the length, rounded down), with latitude and longitude swapped back
    from the [longitude, latitude] order of the geometry. *)
Theorem page_incident_point (o : Run) (req : RerouteReq) :
  Page.handleSimulateIncident (Some o) = Some req ->
  rr_incidentType req = Some "ACCIDENT" /\
  rr_affectedRouteIndex req = Some 0%Z /\
  (firstGeometry (routes o) = [] ->
   rr_incidentLocation req = midpointFallback (routes o) /\
   finalIncidentLocation o req = midpointFallback (routes o)) /\
  (forall (r : Route) (rs : list Route) (g : Coordinates),
     routes o = r :: rs -> geometry r = Some g -> g <> [] ->
     exists lon lat : Q,
       g !! (List.length g / 2)%nat = Some (lon, lat) /\
       rr_incidentLocation req
       = Some {| pt_latitude := CNum lat; pt_longitude := CNum lon |}).
Proof.
  unfold Page.handleSimulateIncident.
  destruct (isIncidentActive o); [discriminate|].
  intros [= <-]. simpl. split; [reflexivity|]. split; [reflexivity|].
  split.
  - intros Hgeo.
    assert (Hsame : Page.proposedPoint o = midpointFallback (routes o)).
    { unfold Page.proposedPoint, midpointFallback.
      destruct (routes o) as [|firstRoute rs]; [reflexivity|].
      simpl in Hgeo.
      destruct (geometry firstRoute) as [[|g0 g]|]; simpl in Hgeo;
        try discriminate; reflexivity. }
    split; [exact Hsame|].
    unfold finalIncidentLocation. simpl. rewrite Hsame.
    destruct (midpointFallback (routes o)) as [p|] eqn:Hp; [|reflexivity].
    destruct (truthy (pt_latitude p) && truthy (pt_longitude p));
      [destruct p|]; reflexivity.
  - intros r rs g Hroutes Hg Hne.
    unfold Page.proposedPoint. rewrite Hroutes, Hg.
    destruct g as [|g0 g]; [contradiction|].
    destruct (lookup_lt_is_Some_2 (g0 :: g) (List.length (g0 :: g) / 2)%nat)
      as [[lon lat] Hmid].
    { apply Nat.div_lt; simpl; lia. }
    exists lon, lat. rewrite Hmid. auto.
Qed.

Lemma page_incident_point_witness :
  (exists req : RerouteReq,
     Page.handleSimulateIncident (Some Fixture.createdRun) = Some req /\
     finalIncidentLocation Fixture.createdRun req
     = midpointFallback (routes Fixture.createdRun)) /\
  (exists req : RerouteReq,
     Page.handleSimulateIncident (Some Sample.drawn) = Some req /\
     rr_incidentLocation req
     = Some {| pt_latitude := CNum 1; pt_longitude := CNum 1 |}).
Proof.
  split.
  - eexists. split; [reflexivity|].
    apply (page_incident_point Fixture.createdRun _ eq_refl). reflexivity.
  - eexists. split; [reflexivity|].
    destruct (page_incident_point Sample.drawn _ eq_refl) as (_ & _ & _ & Hmid).
    destruct (Hmid _ _ Sample.line eq_refl eq_refl) as (lon & lat & Hat & Hloc);
      [discriminate|].
    injection Hat as <- <-. exact Hloc.
Defined.

(** ** What a simulate request records *)

(** X16: the flag [noAlternativeRoute] that a simulate request computes
    (lines 658-665) is not a path of the schema, so it is not saved and
    no answer carries it: in every document that creation, a simulate
    request or a resolve request answers with, the flag is absent, and
    the page, which renders its notice "No alternative route available"
    only for a true flag, does not show the notice for such a
    document. *)
Theorem no_alternative_flag_is_not_saved (e : Env) (o : Run) :
  (exists req : CreateReq, createOptimization e req = Json o) \/
  (exists (found : option Run) (req : RerouteReq),
     rerouteOptimization e found req = Json o) \/
  (exists found : option Run, resolveIncident e found = Json o) ->
  incidentAnalysis o ≫= noAlternativeRoute = None /\
  Page.showsNoAlternative o = false.
Proof.
  unfold Page.showsNoAlternative.
  intros [[req H]|[(found & req & H)|[found H]]].
  - unfold createOptimization in H.
    destruct (cr_name req) as [nm|]; [|discriminate].
    destruct (blank nm); [discriminate|].
    destruct (cr_vehicleIds req) as [[|v0 vids]|]; try discriminate.
    destruct (cr_locationIds req) as [[|l0 lids]|]; try discriminate.
    destruct (100 <? _)%nat; [discriminate|].
    destruct (20 <? _)%nat; [discriminate|].
    destruct (Vehicle_find e _); [discriminate|].
    destruct (Location_find e _); [discriminate|].
    destruct (findDepot _); [|discriminate].
    destruct (runORToolsOptimization _ _ _ _ _ _ _ _); [discriminate|].
    injection H as <-. simpl.
    destruct (given _ && _); [|auto].
    destruct (gemini e); simpl; rewrite ?andb_false_r; auto.
  - unfold rerouteOptimization in H. destruct found as [o0|]; [|discriminate].
    destruct (findDepot _); [|discriminate].
    injection H as <-. simpl. rewrite andb_false_r. auto.
  - unfold resolveIncident in H. destruct found as [o0|]; [|discriminate].
    destruct (negb _); [discriminate|].
    destruct (findDepot _); [|discriminate].
    injection H as <-. simpl. rewrite andb_false_r. auto.
Qed.

Lemma no_alternative_flag_is_not_saved_witness :
  incidentAnalysis Sample.activeRun ≫= noAlternativeRoute = None /\
  Page.showsNoAlternative Sample.activeRun = false.
Proof.
  apply (no_alternative_flag_is_not_saved Fixture.env Sample.activeRun).
  right. left. exists Fixture.created, (Fixture.accident 0). reflexivity.
Defined.


